(** * tfomics: training harness (fit.py)

    A shallow embedding of the metric stores, the learning-rate decay
    record, the trainer and the progress renderer of [fit.py], followed by
    the properties established about them.

    Conventions of the embedding
    - Python floats (losses, learning rates, timestamps) are rationals [Q];
      the values kept in the metric store are [pyfloat]: a rational or
      NaN, which numpy's reductions return and its argmin and argmax treat
      apart. The infinities are outside the model.
    - Python ints are [Z]; numpy's int64 is [Z] with the conversion error
      and the wrap-around of its arithmetic written out.
    - A raised exception is a value of [exception]; a method that mutates
      its object returns the outcome together with the object as the call
      left it, so a mutation done before an exception was raised persists.
    - numpy, printf-style formatting, the Keras model, [tf.data] and the
      wall clock are collaborators the repository does not implement; they
      enter as interfaces (type classes). *)

From Stdlib Require Import QArith Qround Ascii.
From stdpp Require Import base gmap list strings pretty.

Close Scope Q_scope.
Open Scope Z_scope.

(** ** Python runtime: exceptions and outcomes *)

Inductive exception : Type :=
  | KeyError (key : string)
  | IndexError
  | ValueError
  | ZeroDivisionError
  | UnboundLocalError (name : string)
  | AttributeError (name : string)
  | InvalidArgumentError
  | OverflowError.

Inductive result (A : Type) : Type :=
  | OK (a : A)
  | Raise (e : exception).
Arguments OK {A} a.
Arguments Raise {A} e.

(** State-and-exception monad: the state survives a raised exception. *)
Definition M (S A : Type) : Type := S → result A * S.

Definition ret {S A} (a : A) : M S A := λ s, (OK a, s).
Definition raise {S A} (e : exception) : M S A := λ s, (Raise e, s).
Definition bind {S A B} (m : M S A) (k : A → M S B) : M S B :=
  λ s, match m s with
       | (OK a, s') => k a s'
       | (Raise e, s') => (Raise e, s')
       end.
Definition get {S} : M S S := λ s, (OK s, s).
Definition gets {S A} (f : S → A) : M S A := λ s, (OK (f s), s).
Definition modify {S} (f : S → S) : M S unit := λ s, (OK tt, f s).
Definition lift_result {S A} (r : result A) : M S A := λ s, (r, s).

Global Instance M_ret {S} : MRet (M S) := λ A, ret.
Global Instance M_bind {S} : MBind (M S) := λ A B k m, bind m k.

(** Run a method of a component stored in a field of a larger object. *)
Definition zoom {S T A} (proj : S → T) (inj : T → S → S) (m : M T A) : M S A :=
  λ s, let '(r, t) := m (proj s) in (r, inj t s).

(** [for x in xs: body x] *)
Fixpoint for_each {S A} (xs : list A) (body : A → M S unit) : M S unit :=
  match xs with
  | [] => ret tt
  | x :: rest => body x;; for_each rest body
  end.

(** A Python float compared with [<]. *)
Definition Qltb (x y : Q) : bool := negb (Qle_bool y x).

(** A value of the metric store: a number, or NaN (numpy's mean of no
    values, or of NaN values only; a loss that diverged). *)
Inductive pyfloat : Type :=
  | Num (q : Q)
  | NaN.
Coercion Num : Q >-> pyfloat.

Definition is_nan (x : pyfloat) : bool :=
  match x with
  | NaN => true
  | Num _ => false
  end.

(** [x <= y] on floats: False as soon as one side is NaN. *)
Definition py_leb (x y : pyfloat) : bool :=
  match x, y with
  | Num a, Num b => Qle_bool a b
  | _, _ => false
  end.

(** ** numpy's int64 *)

Definition int64_min : Z := - 2 ^ 63.
Definition int64_max : Z := 2 ^ 63 - 1.

(** A Python int meeting an int64 in an arithmetic operation is converted
    to int64 (numpy's promotion rules since its version 2); one that does
    not fit raises [OverflowError]. *)
Definition to_int64 (z : Z) : result Z :=
  if decide (int64_min ≤ z ≤ int64_max) then OK z else Raise OverflowError.

(** int64 arithmetic wraps around (numpy warns and goes on). *)
Definition int64_wrap (z : Z) : Z := (z - int64_min) mod 2 ^ 64 + int64_min.
Definition int64_sub (a b : Z) : Z := int64_wrap (a - b).

(** [d[k]] on a dict: raises [KeyError] when the key is absent. *)
Definition dict_get {V} (d : gmap string V) (k : string) : result V :=
  match d !! k with
  | Some v => OK v
  | None => Raise (KeyError k)
  end.

(** [l[-1]] on a list: raises [IndexError] when the list is empty. *)
Definition list_last {A} (l : list A) : result A :=
  match last l with
  | Some a => OK a
  | None => Raise IndexError
  end.

(** [l[i]] for a non-negative index. *)
Definition list_get {A} (l : list A) (i : nat) : result A :=
  match l !! i with
  | Some a => OK a
  | None => Raise IndexError
  end.

(** Keyword arguments: an ordered dict; Python guarantees distinct keys. *)
Definition kwargs (V : Type) : Type := list (string * V).

Definition kw_keys {V} (kw : kwargs V) : list string := kw.*1.

Fixpoint kw_find {V} (kw : kwargs V) (k : string) : option V :=
  match kw with
  | [] => None
  | (k', v) :: rest => if decide (k' = k) then Some v else kw_find rest k
  end.

(** [d[k] = v] on an ordered dict: overwrite in place or append. *)
Fixpoint kw_set {V} (kw : kwargs V) (k : string) (v : V) : kwargs V :=
  match kw with
  | [] => [(k, v)]
  | (k', v') :: rest =>
      if decide (k' = k) then (k, v) :: rest else (k', v') :: kw_set rest k v
  end.

(** ** Collaborators *)

(** numpy reductions used by the metric store. *)
Class Numpy := {
  nanmean : list Q → pyfloat;
  nanstd : list Q → pyfloat;
}.

(** ["%.<digits>f" % q] and ["{:.<digits>f}".format(q)]. *)
Class Printf := {
  fmt_float : nat → Q → string;
}.

(** The same formats on a stored value: NaN is shown as "nan". *)
Definition fmt_value `{Printf} (digits : nat) (x : pyfloat) : string :=
  match x with
  | Num q => fmt_float digits q
  | NaN => "nan"
  end.

Definition LF : string := String "010"%char "".
Definition CR : string := String "013"%char "".
Definition TAB : string := String "009"%char "".

(** ** MonitorMetrics *)

Record MonitorMetrics : Type := mkMonitorMetrics {
  value : gmap string (list pyfloat);
  metric_names : list string;
}.

Definition set_value (v : gmap string (list pyfloat)) (self : MonitorMetrics) :=
  {| value := v; metric_names := metric_names self |}.

(** [if name in metric_names: value[name] = []; value[name_std] = []] *)
Definition declare_metric (name name_std : string) (names : list string)
    (v : gmap string (list pyfloat)) : gmap string (list pyfloat) :=
  if decide (name ∈ names) then <[name_std := []]> (<[name := []]> v) else v.

Definition MonitorMetrics_initialize_metrics (names : list string)
    (v : gmap string (list pyfloat)) : gmap string (list pyfloat) :=
  let v := <["loss" := []]> v in
  let v := declare_metric "acc" "acc_std" names v in
  let v := declare_metric "auroc" "auroc_std" names v in
  let v := declare_metric "aupr" "aupr_std" names v in
  let v := declare_metric "corr" "corr_std" names v in
  let v := declare_metric "mcc" "mcc_std" names v in
  let v := declare_metric "mse" "mse_std" names v in
  v.

Definition MonitorMetrics_init (names : list string) : MonitorMetrics :=
  {| value := MonitorMetrics_initialize_metrics names ∅;
     metric_names := names |}.

(** [self.value[key].append(x)] *)
Definition history_append (key : string) (x : pyfloat)
    : M MonitorMetrics unit :=
  h ← gets (λ self, dict_get (value self) key);
  h ← lift_result h;
  modify (λ self, set_value (<[key := h ++ [x]]> (value self)) self).

Section MonitorMetricsDefs.
Context `{Numpy}.

Definition MonitorMetrics_update_one (entry : string * list Q)
    : M MonitorMetrics unit :=
  let '(metric_name, vals) := entry in
  history_append metric_name (nanmean vals);;
  if decide (metric_name ≠ "loss")
  then history_append (metric_name +:+ "_std") (nanstd vals)
  else ret tt.

Definition MonitorMetrics_update (kw : kwargs (list Q))
    : M MonitorMetrics unit :=
  for_each kw MonitorMetrics_update_one.
End MonitorMetricsDefs.

Section MonitorMetricsPrint.
Context `{Printf}.

(** Returns the lines handed to [print]. *)
Definition MonitorMetrics_print_line (self : MonitorMetrics) (name : string)
    (metric_name : string) : result string :=
  if decide (metric_name = "loss") then
    match dict_get (value self) metric_name with
    | Raise e => Raise e
    | OK h =>
        match list_last h with
        | Raise e => Raise e
        | OK x => OK ("  " +:+ name +:+ " " +:+ metric_name +:+ ":" +:+ TAB
                        +:+ fmt_value 5 x)
        end
    end
  else
    match dict_get (value self) metric_name with
    | Raise e => Raise e
    | OK h =>
        match list_last h with
        | Raise e => Raise e
        | OK x =>
            match dict_get (value self) (metric_name +:+ "_std") with
            | Raise e => Raise e
            | OK hs =>
                match list_last hs with
                | Raise e => Raise e
                | OK sd => OK ("  " +:+ name +:+ " " +:+ metric_name +:+ ":"
                                 +:+ TAB +:+ fmt_value 5 x +:+ "+/-"
                                 +:+ fmt_value 5 sd)
                end
            end
        end
    end.

(** The lines printed before the first exception, and the outcome. *)
Fixpoint MonitorMetrics_print_lines (self : MonitorMetrics) (name : string)
    (names : list string) : result unit * list string :=
  match names with
  | [] => (OK tt, [])
  | n :: rest =>
      match MonitorMetrics_print_line self name n with
      | Raise e => (Raise e, [])
      | OK line =>
          let '(r, lines) := MonitorMetrics_print_lines self name rest in
          (r, line :: lines)
      end
  end.

Definition MonitorMetrics_print (self : MonitorMetrics) (name : string)
    : result unit * list string :=
  MonitorMetrics_print_lines self name (metric_names self).
End MonitorMetricsPrint.

(** ** TrainMetrics *)

Record TrainMetrics : Type := mkTrainMetrics {
  train : MonitorMetrics;
  valid : MonitorMetrics;
  test : MonitorMetrics;
}.

Definition set_train (m : MonitorMetrics) (self : TrainMetrics) :=
  {| train := m; valid := valid self; test := test self |}.
Definition set_valid (m : MonitorMetrics) (self : TrainMetrics) :=
  {| train := train self; valid := m; test := test self |}.
Definition set_test (m : MonitorMetrics) (self : TrainMetrics) :=
  {| train := train self; valid := valid self; test := m |}.

Definition TrainMetrics_init (names : list string) : TrainMetrics :=
  {| train := MonitorMetrics_init names;
     valid := MonitorMetrics_init names;
     test := MonitorMetrics_init names |}.

Section TrainMetricsDefs.
Context `{Numpy}.

Definition TrainMetrics_update (name : string) (kw : kwargs (list Q))
    : M TrainMetrics unit :=
  if decide (name = "train") then zoom train set_train (MonitorMetrics_update kw)
  else if decide (name = "valid") then zoom valid set_valid (MonitorMetrics_update kw)
  else if decide (name = "test") then zoom test set_test (MonitorMetrics_update kw)
  else ret tt.
End TrainMetricsDefs.

Section TrainMetricsPrint.
Context `{Printf}.

Definition TrainMetrics_print (self : TrainMetrics) (name : string)
    : result unit * list string :=
  if decide (name = "train") then MonitorMetrics_print (train self) "train"
  else if decide (name = "valid") then MonitorMetrics_print (valid self) "valid"
  else if decide (name = "test") then MonitorMetrics_print (test self) "test"
  else (OK tt, []).
End TrainMetricsPrint.

(** ** LRDecay *)

(** The optimizer object shared by the model and the decay record; only
    its learning rate is read or written by this repository. *)
Record Optimizer : Type := mkOptimizer {
  learning_rate : Q;
}.

Record LRDecay : Type := mkLRDecay {
  lr : Q;
  decay_rate : Q;
  patience : Z;
  metric : string;
  index : Z;
  best_val : Q;
  sign : Z;
}.

Definition set_lr (x : Q) (self : LRDecay) : LRDecay :=
  {| lr := x; decay_rate := decay_rate self; patience := patience self;
     metric := metric self; index := index self; best_val := best_val self;
     sign := sign self |}.
Definition set_index (i : Z) (self : LRDecay) : LRDecay :=
  {| lr := lr self; decay_rate := decay_rate self; patience := patience self;
     metric := metric self; index := i; best_val := best_val self;
     sign := sign self |}.
Definition set_best_val (b : Q) (self : LRDecay) : LRDecay :=
  {| lr := lr self; decay_rate := decay_rate self; patience := patience self;
     metric := metric self; index := index self; best_val := b;
     sign := sign self |}.
Definition set_best_val_sign (b : Q) (s : Z) (self : LRDecay) : LRDecay :=
  {| lr := lr self; decay_rate := decay_rate self; patience := patience self;
     metric := metric self; index := index self; best_val := b;
     sign := s |}.

(** The literal [1e10]. *)
Definition ten_billion : Q := inject_Z 10000000000.

Definition LRDecay_initialize (m : string) (self : LRDecay) : LRDecay :=
  if decide (m = "loss")
  then set_best_val_sign ten_billion 1 self
  else set_best_val_sign (- ten_billion)%Q (-1) self.

Definition LRDecay_init (opt : Optimizer) (rate : Q) (pat : Z) (m : string)
    : LRDecay :=
  LRDecay_initialize m
    {| lr := learning_rate opt; decay_rate := rate; patience := pat;
       metric := m; index := 0; best_val := 0%Q; sign := 0 |}.

(** The test [self.sign*val < self.sign*self.best_val]; a comparison with
    NaN is False. Returns the number that passed the test. *)
Definition LRDecay_improves (val : pyfloat) (self : LRDecay) : option Q :=
  match val with
  | Num v =>
      if Qltb (inject_Z (sign self) * v)%Q (inject_Z (sign self) * best_val self)%Q
      then Some v
      else None
  | NaN => None
  end.

Definition LRDecay_status (val : pyfloat) : M LRDecay bool :=
  self ← get;
  match LRDecay_improves val self with
  | Some v =>
      modify (set_best_val v);;
      modify (set_index 0);;
      mret false
  | None =>
      modify (λ self, set_index (index self + 1) self);;
      self ← get;
      if decide (index self = patience self)
      then modify (set_index 0);; mret true
      else mret false
  end.

(** ** Early stopping: numpy's argmin and argmax *)

(** One left-to-right scan keeping the first best element seen so far;
    [better x best] tells whether [x] replaces the running best. The scan
    is over once the running best is NaN: numpy's loops break there, so the
    first NaN of an array is its argmin and its argmax. *)
Fixpoint arg_scan (better : pyfloat → pyfloat → bool) (best : pyfloat)
    (best_i i : nat) (l : list pyfloat) : nat :=
  match l with
  | [] => best_i
  | x :: rest =>
      if is_nan best then best_i
      else if better x best
      then arg_scan better x i (S i) rest
      else arg_scan better best best_i (S i) rest
  end.

Definition arg_best (better : pyfloat → pyfloat → bool) (l : list pyfloat)
    : result nat :=
  match l with
  | [] => Raise ValueError
  | x :: rest => OK (arg_scan better x 0%nat 1%nat rest)
  end.

(** numpy replaces the running minimum by [x] when [not (x >= best)], the
    running maximum when [not (x <= best)]: a NaN always replaces it. *)
Definition np_argmin : list pyfloat → result nat :=
  arg_best (λ x best, negb (py_leb best x)).
Definition np_argmax : list pyfloat → result nat :=
  arg_best (λ x best, negb (py_leb x best)).

(** The index is an int64. In [patience - (len(vals) - index - 1)] the
    Python ints [len(vals)], [1] and [patience] are converted to int64 as
    their operation is reached, and the subtractions are int64
    subtractions. *)
Definition Trainer_early_stopping (metrics : TrainMetrics) (m : string)
    (pat : Z) : result bool :=
  match dict_get (value (valid metrics)) m with
  | Raise e => Raise e
  | OK vals =>
      match (if decide (m = "loss") then np_argmin vals else np_argmax vals) with
      | Raise e => Raise e
      | OK i =>
          match to_int64 (Z.of_nat (length vals)) with
          | Raise e => Raise e
          | OK len =>
              let elapsed := int64_sub (int64_sub len (Z.of_nat i)) 1 in
              match to_int64 pat with
              | Raise e => Raise e
              | OK p =>
                  if decide (int64_sub p elapsed ≤ 0)
                  then OK true
                  else OK false
              end
          end
      end
  end.

(** ** The process environment and the trainer object *)

(** The Keras model: forward pass, loss, gradients and optimizer step are
    one opaque training step; [model_evaluate] returns the loss followed by
    one value per metric. *)
Class Keras (Model X Y Pred : Type) := {
  model_metric_names : Model → list string;
  model_train_step : Optimizer → list X → list Y → Model → Q * list Pred * Model;
  model_evaluate : list X → list Y → Z → Model → list Q;
}.

(** [Dataset.shuffle(buffer_size)]: one pass over the data in shuffled
    order, drawing from a random generator. *)
Class TfData (Rng A : Type) := {
  dataset_shuffle : Z → list A → Rng → list A * Rng;
}.

(** [time.time()]: the value of the n-th reading of the wall clock. *)
Class Clock := {
  time_at : nat → Q;
}.

Record World (Model Rng : Type) : Type := mkWorld {
  model : Model;
  optimizer : Optimizer;
  metrics : TrainMetrics;
  lr_decay : option LRDecay;
  rng : Rng;
  ticks : nat;
  stdout : list string;
}.
Arguments mkWorld {Model Rng}.
Arguments model {Model Rng}.
Arguments optimizer {Model Rng}.
Arguments metrics {Model Rng}.
Arguments lr_decay {Model Rng}.
Arguments rng {Model Rng}.
Arguments ticks {Model Rng}.
Arguments stdout {Model Rng}.

Section WorldSetters.
Context {Model Rng : Type}.
Implicit Type w : World Model Rng.

Definition set_model (x : Model) w :=
  mkWorld x (optimizer w) (metrics w) (lr_decay w) (rng w) (ticks w) (stdout w).
Definition set_optimizer (x : Optimizer) w :=
  mkWorld (model w) x (metrics w) (lr_decay w) (rng w) (ticks w) (stdout w).
Definition set_metrics (x : TrainMetrics) w :=
  mkWorld (model w) (optimizer w) x (lr_decay w) (rng w) (ticks w) (stdout w).
Definition set_lr_decay (x : option LRDecay) w :=
  mkWorld (model w) (optimizer w) (metrics w) x (rng w) (ticks w) (stdout w).
Definition set_rng (x : Rng) w :=
  mkWorld (model w) (optimizer w) (metrics w) (lr_decay w) x (ticks w) (stdout w).
Definition set_ticks (x : nat) w :=
  mkWorld (model w) (optimizer w) (metrics w) (lr_decay w) (rng w) x (stdout w).
Definition set_stdout (x : list string) w :=
  mkWorld (model w) (optimizer w) (metrics w) (lr_decay w) (rng w) (ticks w) x.

(** [sys.stdout.write(s)] *)
Definition stdout_write (s : string) : M (World Model Rng) unit :=
  modify (λ w, set_stdout (stdout w ++ [s]) w).

(** [print(s)] *)
Definition print (s : string) : M (World Model Rng) unit :=
  stdout_write (s +:+ LF).

Definition time_time `{Clock} : M (World Model Rng) Q :=
  t ← gets (λ w, time_at (ticks w));
  modify (λ w, set_ticks (S (ticks w)) w);;
  mret t.
End WorldSetters.

(** ** progress_bar *)

(** [round(q)] on a float: to the nearest integer, ties to even. *)
Definition py_round (q : Q) : Z :=
  let f := Qfloor q in
  match Qcompare (q - inject_Z f)%Q (1 # 2)%Q with
  | Lt => f
  | Gt => f + 1
  | Eq => if Z.even f then f else f + 1
  end.

(** [c * n] for a one-character string: empty when [n <= 0]. *)
Definition str_mul (c : string) (n : Z) : string :=
  Nat.iter (Z.to_nat n) (λ s, c +:+ s) "".

(** ["-- name=%.5f"] appended when [name] is among the keyword arguments. *)
Definition metric_text `{Printf} (kw : kwargs Q) (name : string) : string :=
  match kw_find kw name with
  | Some v => " -- " +:+ name +:+ "=" +:+ fmt_float 5 v
  | None => ""
  end.

Section ProgressBar.
Context {Model Rng : Type} `{Printf} `{Clock}.

Definition progress_bar (iter num_batches : Z) (start_time : Q)
    (bar_length : Z) (kw : kwargs Q) : M (World Model Rng) unit :=
  percent ← (if decide (num_batches = 0) then raise ZeroDivisionError
             else mret (inject_Z iter / inject_Z num_batches)%Q);
  let progress := str_mul "=" (py_round (percent * inject_Z bar_length)%Q) in
  let spaces := str_mul " " (bar_length - py_round (percent * inject_Z bar_length)%Q) in
  head ← (if decide (iter = num_batches) then
            now ← time_time;
            let elapsed_time := (now - start_time)%Q in
            mret (CR +:+ "[" +:+ (progress +:+ spaces) +:+ "] "
                    +:+ fmt_float 1 (percent * inject_Z 100)%Q
                    +:+ "% -- elapsed time=" +:+ fmt_float 1 elapsed_time +:+ "s")
          else
            now ← time_time;
            remaining_time ←
              (if decide (iter + 1 = 0) then raise ZeroDivisionError
               else mret ((now - start_time)
                            * inject_Z (num_batches - (iter + 1))
                            / inject_Z (iter + 1))%Q);
            mret (CR +:+ "[" +:+ (progress +:+ spaces) +:+ "] "
                    +:+ fmt_float 1 (percent * inject_Z 100)%Q
                    +:+ "%  -- remaining time=" +:+ fmt_float 1 remaining_time +:+ "s"));
  let output_text :=
    head +:+ metric_text kw "loss" +:+ metric_text kw "acc"
         +:+ metric_text kw "auroc" +:+ metric_text kw "aupr"
         +:+ metric_text kw "pearsonr" +:+ metric_text kw "mcc"
         +:+ metric_text kw "mse" in
  let output_text :=
    if decide (iter = num_batches) then output_text +:+ LF else output_text in
  stdout_write output_text.
End ProgressBar.

(** ** tf.data pipeline *)

Fixpoint chunks {A} (fuel n : nat) (l : list A) : list (list A) :=
  match fuel with
  | O => []
  | S fuel' =>
      match l with
      | [] => []
      | _ => take n l :: chunks fuel' n (drop n l)
      end
  end.

(** [Dataset.batch(batch_size)]: consecutive groups, the last one possibly
    shorter. *)
Definition dataset_batch {A} (batch_size : Z) (l : list A) : list (list A) :=
  chunks (length l) (Z.to_nat batch_size) l.

(** [trainset.shuffle(buffer_size=b).batch(b)]: a lazy pipeline, evaluated
    anew at each iteration over it. *)
Record BatchDataset (A : Type) : Type := mkBatchDataset {
  source : list A;
  buffer_and_batch_size : Z;
}.
Arguments mkBatchDataset {A}.
Arguments source {A}.
Arguments buffer_and_batch_size {A}.

(** [np.concatenate(arrays, axis=0)] *)
Definition np_concatenate {A} (arrays : list (list A)) : result (list A) :=
  match arrays with
  | [] => Raise ValueError
  | _ => OK (concat arrays)
  end.

(** A local variable read before any assignment reached it. *)
Definition local_var {S A} (name : string) (v : option A) : M S A :=
  match v with
  | Some a => mret a
  | None => raise (UnboundLocalError name)
  end.

(** ** Trainer *)

Section Trainer.
Context {Model Rng X Y Pred : Type}.
Context `{Numpy} `{Printf} `{Clock}.
Context `{!Keras Model X Y Pred} `{!TfData Rng (X * Y)}.

Local Abbreviation W := (World Model Rng).

Definition Trainer_init (m : Model) : M W unit :=
  modify (set_model m);;
  let metric_names := "loss" :: model_metric_names m in
  modify (set_metrics (TrainMetrics_init metric_names));;
  modify (set_lr_decay None).

Definition Trainer_train_step (x : list X) (y : list Y) : M W (Q * list Pred) :=
  w ← get;
  let '(loss, predictions, m) := model_train_step (optimizer w) x y (model w) in
  modify (set_model m);;
  mret (loss, predictions).

Definition shuffle_batch (trainset : list (X * Y)) (batch_size : Z)
    : M W (BatchDataset (X * Y)) :=
  if decide (batch_size ≤ 0) then raise InvalidArgumentError
  else mret (mkBatchDataset trainset batch_size).

(** One pass over the pipeline: shuffle, then batch. *)
Definition dataset_iterate (ds : BatchDataset (X * Y))
    : M W (list (list X * list Y)) :=
  w ← get;
  let '(shuffled, g) :=
    dataset_shuffle (buffer_and_batch_size ds) (source ds) (rng w) in
  modify (set_rng g);;
  mret ((λ b : list (X * Y), (b.*1, b.*2))
          <$> dataset_batch (buffer_and_batch_size ds) shuffled).

(** Loop state of [train_epoch]: [running_loss], [pred_batch], [y_batch]
    and the loop variable [i], unbound before the first iteration. *)
Record EpochAcc : Type := mkEpochAcc {
  running_loss : Q;
  pred_batch : list (list Pred);
  y_batch : list (list Y);
  last_i : option Z;
}.

Fixpoint train_loop (i : Z) (batches : list (list X * list Y))
    (num_batches : Z) (start_time : Q) (verbose : bool) (acc : EpochAcc)
    : M W EpochAcc :=
  match batches with
  | [] => mret acc
  | (x, y) :: rest =>
      '(loss, pred) ← Trainer_train_step x y;
      let acc := {| running_loss := (running_loss acc + loss)%Q;
                    pred_batch := pred_batch acc ++ [pred];
                    y_batch := y_batch acc ++ [y];
                    last_i := Some i |} in
      (if verbose
       then progress_bar (i + 1) num_batches start_time 30
              [("loss", (running_loss acc / inject_Z (i + 1))%Q)]
       else mret tt);;
      train_loop (i + 1) rest num_batches start_time verbose acc
  end.

Definition Trainer_train_epoch (trainset : list (X * Y)) (shuffle : bool)
    (batch_size : Z) (verbose : bool) : M W (Q * list Pred * list Y) :=
  batch_dataset ← (if shuffle
                   then ds ← shuffle_batch trainset batch_size; mret (Some ds)
                   else mret None);
  batch_dataset ← local_var "batch_dataset" batch_dataset;
  all ← dataset_iterate batch_dataset;
  let num_batches := Z.of_nat (length all) in
  start_time ← time_time;
  batches ← dataset_iterate batch_dataset;
  acc ← train_loop 0 batches num_batches start_time verbose
          {| running_loss := 0%Q; pred_batch := []; y_batch := [];
             last_i := None |};
  pred ← lift_result (np_concatenate (pred_batch acc));
  y ← lift_result (np_concatenate (y_batch acc));
  i ← local_var "i" (last_i acc);
  mret ((running_loss acc / inject_Z (i + 1))%Q, pred, y).

(** [for i, metric in enumerate(self.model.metrics):
       metric_dic[metric.name] = results[i+1]] *)
Fixpoint build_metric_dic (i : nat) (names : list string) (results : list Q)
    (metric_dic : kwargs (list Q)) : result (kwargs (list Q)) :=
  match names with
  | [] => OK metric_dic
  | n :: rest =>
      match list_get results (S i) with
      | Raise e => Raise e
      | OK r => build_metric_dic (S i) rest results (kw_set metric_dic n [r])
      end
  end.

Definition Trainer_print_metrics (name : string) : M W unit :=
  w ← get;
  let '(r, lines) := TrainMetrics_print (metrics w) name in
  for_each lines print;;
  lift_result r.

Definition Trainer_evaluate (name : string) (x : list X) (y : list Y)
    (batch_size : Z) (verbose : bool) : M W unit :=
  results ← gets (λ w, model_evaluate x y batch_size (model w));
  names ← gets (λ w, model_metric_names (model w));
  metric_dic ← lift_result (build_metric_dic 0 names results []);
  loss ← lift_result (list_get results 0);
  zoom metrics set_metrics (TrainMetrics_update name [("loss", [loss])]);;
  zoom metrics set_metrics (TrainMetrics_update name metric_dic);;
  if verbose then Trainer_print_metrics name else mret tt.

Definition LRDecay_decay_learning_rate (self : LRDecay) : M W LRDecay :=
  let self := set_lr (lr self * decay_rate self)%Q self in
  modify (set_optimizer {| learning_rate := lr self |});;
  mret self.

Definition LRDecay_check (self : LRDecay) (val : pyfloat) : M W LRDecay :=
  match LRDecay_status val self with
  | (OK true, self) =>
      self ← LRDecay_decay_learning_rate self;
      print ("  Decaying learning rate to " +:+ fmt_float 6 (lr self));;
      mret self
  | (OK false, self) => mret self
  | (Raise e, _) => raise e
  end.

(** A sequence of values handed to [check] one at a time. *)
Fixpoint LRDecay_feed (self : LRDecay) (vals : list Q) : M W LRDecay :=
  match vals with
  | [] => mret self
  | val :: rest => self ← LRDecay_check self val; LRDecay_feed self rest
  end.

Definition Trainer_set_lr_decay (rate : Q) (pat : Z) (m : string) : M W unit :=
  modify (λ w, set_lr_decay (Some (LRDecay_init (optimizer w) rate pat m)) w).

Definition Trainer_check_lr_decay (val : pyfloat) : M W unit :=
  d ← gets lr_decay;
  match d with
  | None => raise (AttributeError "lr_decay")
  | Some self =>
      self ← LRDecay_check self val;
      modify (set_lr_decay (Some self))
  end.

(** ** fit_lr_decay *)

(** The trainer methods [fit_lr_decay] calls, each with the arguments of
    the call. *)
Inductive call : Type :=
  | CallTrainEpoch (trainset : list (X * Y)) (shuffle : bool) (batch_size : Z)
      (verbose : bool)
  | CallEvaluate (name : string) (x : list X) (y : list Y) (batch_size : Z)
      (verbose : bool)
  | CallCheckLrDecay (val : pyfloat)
  | CallEarlyStopping (metric : string) (patience : Z).

(** What a call returns. *)
Definition answer (c : call) : Type :=
  match c with
  | CallTrainEpoch _ _ _ _ => (Q * list Pred * list Y)%type
  | CallEvaluate _ _ _ _ _ => unit
  | CallCheckLrDecay _ => unit
  | CallEarlyStopping _ _ => bool
  end.

(** The method behind a call. *)
Definition perform (c : call) : M W (answer c) :=
  match c with
  | CallTrainEpoch trainset shuffle batch_size verbose =>
      Trainer_train_epoch trainset shuffle batch_size verbose
  | CallEvaluate name x y batch_size verbose =>
      Trainer_evaluate name x y batch_size verbose
  | CallCheckLrDecay val => Trainer_check_lr_decay val
  | CallEarlyStopping m pat =>
      tm ← gets metrics; lift_result (Trainer_early_stopping tm m pat)
  end.

(** A call as the run made it: the call and the world it found. *)
Record event : Type := mkEvent {
  made : call;
  found : W;
}.

(** The state of a run: the world, and the calls made so far. *)
Local Abbreviation T := (W * list event)%type.

Definition on_world {A} (m : M W A) : M T A :=
  zoom fst (λ w s, (w, s.2)) m.

(** Make a call on the trainer: the call is entered in the record and
    its method is run on the world. *)
Definition invoke (c : call) : M T (answer c) :=
  λ s, let '(r, w) := perform c s.1 in (r, (w, s.2 ++ [mkEvent c s.1])).

(** [tf.data.Dataset.from_tensor_slices((x_train, y_train))] *)
Definition from_tensor_slices (x : list X) (y : list Y) : result (list (X * Y)) :=
  if decide (length x = length y) then OK (zip x y) else Raise ValueError.

(** The body of the epoch loop; returns whether the loop is left by
    [break]. *)
Definition fit_epoch (epoch : Z) (trainset : list (X * Y))
    (x_valid : list X) (y_valid : list Y) (batch_size : Z)
    (shuffle verbose : bool) (es_patience : Z) (es_metric : string)
    (lr_metric : string) : M T bool :=
  on_world (stdout_write (CR +:+ "Epoch " +:+ pretty (epoch + 1) +:+ " " +:+ LF));;
  invoke (CallTrainEpoch trainset shuffle batch_size verbose);;
  invoke (CallEvaluate "valid" x_valid y_valid 128 true);;
  seen ← gets (λ s : T, metrics s.1);
  history ← lift_result (dict_get (value (valid seen)) lr_metric);
  val ← lift_result (list_last history);
  invoke (CallCheckLrDecay val);;
  stop ← invoke (CallEarlyStopping es_metric es_patience);
  if stop : bool
  then on_world (print "Patience ran out... Early stopping.");; mret true
  else mret false.

(** [for epoch in range(num_epochs): ...], left early by [break]. *)
Fixpoint fit_loop (epochs : list Z) (trainset : list (X * Y))
    (x_valid : list X) (y_valid : list Y) (batch_size : Z)
    (shuffle verbose : bool) (es_patience : Z) (es_metric : string)
    (lr_metric : string) : M T unit :=
  match epochs with
  | [] => mret tt
  | epoch :: rest =>
      stop ← fit_epoch epoch trainset x_valid y_valid batch_size shuffle
               verbose es_patience es_metric lr_metric;
      if stop : bool then mret tt
      else fit_loop rest trainset x_valid y_valid batch_size shuffle verbose
             es_patience es_metric lr_metric
  end.

Definition fit_lr_decay (m : Model) (x_train : list X) (y_train : list Y)
    (validation_data : list X * list Y) (num_epochs batch_size : Z)
    (shuffle verbose : bool) (es_patience : Z) (es_metric : string)
    (lr_decay_rate : Q) (lr_patience : Z) (lr_metric : string) : M T unit :=
  let '(x_valid, y_valid) := validation_data in
  trainset ← lift_result (from_tensor_slices x_train y_train);
  on_world (Trainer_init m);;
  on_world (Trainer_set_lr_decay lr_decay_rate lr_patience lr_metric);;
  fit_loop (seqZ 0 num_epochs) trainset x_valid y_valid batch_size shuffle
    verbose es_patience es_metric lr_metric.
End Trainer.
Arguments call : clear implicits.
Arguments event : clear implicits.

(** ** Vocabulary of the properties *)

(** [i] is the earliest position of a least element of [l]. *)
Definition earliest_min (l : list Q) (i : nat) : Prop :=
  ∃ b, l !! i = Some b
       ∧ (∀ j x, l !! j = Some x → (b <= x)%Q)
       ∧ (∀ j x, (j < i)%nat → l !! j = Some x → (b < x)%Q).

(** [i] is the earliest position of a greatest element of [l]. *)
Definition earliest_max (l : list Q) (i : nat) : Prop :=
  ∃ b, l !! i = Some b
       ∧ (∀ j x, l !! j = Some x → (x <= b)%Q)
       ∧ (∀ j x, (j < i)%nat → l !! j = Some x → (x < b)%Q).

(** The best entry of a history: least for "loss", greatest otherwise. *)
Definition best_index (m : string) (l : list Q) (i : nat) : Prop :=
  if decide (m = "loss") then earliest_min l i else earliest_max l i.

(** Feeding [vals] to a freshly initialised decay record multiplies the
    learning rate by the decay rate exactly [k] times: on the record, on
    the optimizer, and with one notice printed per decay. *)
Definition LRDecay_decays {Model Rng} `{Printf} (k : nat) (w : World Model Rng)
    (rate : Q) (pat : Z) (m : string) (vals : list Q) : Prop :=
  ∃ self' w',
    LRDecay_feed (LRDecay_init (optimizer w) rate pat m) vals w = (OK self', w')
    ∧ lr self' = Nat.iter k (λ l, (l * rate)%Q) (learning_rate (optimizer w))
    ∧ learning_rate (optimizer w') = lr self'
    ∧ length (stdout w') = (length (stdout w) + k)%nat.

(** The test made by [status] on a freshly initialised record. *)
Definition first_improves (m : string) (val : Q) : bool :=
  if decide (m = "loss") then Qltb val ten_billion
  else Qltb (- ten_billion)%Q val.

(** The metric identifiers the store knows how to track. *)
Definition recognized : list string :=
  ["loss"; "acc"; "auroc"; "aupr"; "corr"; "mcc"; "mse"].

(** The recognized identifiers that carry a derived "_std" series. *)
Definition with_std : list string :=
  ["acc"; "auroc"; "aupr"; "corr"; "mcc"; "mse"].

(** The keys a store built for the declared [names] holds: "loss", and
    each declared identifier of [with_std] together with its "_std" key. *)
Definition fresh_key (names : list string) (k : string) : Prop :=
  k = "loss"
  ∨ ∃ m, m ∈ with_std ∧ m ∈ names ∧ (k = m ∨ k = m +:+ "_std").

(** The store after a series of [update] calls, each one possibly ending
    in an exception the caller recovered from. *)
Fixpoint MonitorMetrics_after `{Numpy} (calls : list (kwargs (list Q)))
    (self : MonitorMetrics) : MonitorMetrics :=
  match calls with
  | [] => self
  | kw :: rest => MonitorMetrics_after rest (MonitorMetrics_update kw self).2
  end.

(** The history under a key, empty when the key is absent. *)
Definition history (self : MonitorMetrics) (k : string) : list pyfloat :=
  default [] (value self !! k).

(** A store with key set [keys] takes an update naming [name]: the key is
    there and, unless it is "loss", so is its "_std" key. *)
Definition accepts (keys : gset string) (name : string) : Prop :=
  name ∈ keys ∧ (name = "loss" ∨ name +:+ "_std" ∈ keys).

(** A tracked metric: a recognized identifier that has a history. *)
Definition tracked (self : MonitorMetrics) (name : string) : Prop :=
  name ∈ recognized ∧ is_Some (value self !! name).

(** Number of calls in [calls] whose keyword arguments name [name]. *)
Definition calls_naming (name : string) (calls : list (kwargs (list Q))) : nat :=
  length (filter (λ kw, name ∈ kw_keys kw) calls).

(** [j] is the position of the first NaN of [l]. *)
Definition first_nan (l : list pyfloat) (j : nat) : Prop :=
  l !! j = Some NaN ∧ ∀ k x, (k < j)%nat → l !! k = Some x → x ≠ NaN.

(** [val] is the latest validation value of the metric in the store
    [seen]. *)
Definition latest_valid (lr_metric : string) (seen : TrainMetrics)
    (val : pyfloat) : Prop :=
  ∃ h, value (valid seen) !! lr_metric = Some h ∧ last h = Some val.

(** Number of [train_epoch] calls in a record of calls. *)
Fixpoint train_epoch_calls {Model Rng X Y} (calls : list (event Model Rng X Y))
    : nat :=
  match calls with
  | [] => 0
  | e :: rest =>
      match made e with
      | CallTrainEpoch _ _ _ _ => S (train_epoch_calls rest)
      | _ => train_epoch_calls rest
      end
  end.

(** The method a call names. *)
Definition call_kind {X Y} (c : call X Y) : string :=
  match c with
  | CallTrainEpoch _ _ _ _ => "train_epoch"
  | CallEvaluate name _ _ _ _ => "evaluate " +:+ name
  | CallCheckLrDecay _ => "check_lr_decay"
  | CallEarlyStopping _ _ => "early_stopping"
  end.

Section Calls.
Context {Model Rng X Y Pred : Type}.
Context `{Numpy} `{Printf} `{Clock}.
Context `{!Keras Model X Y Pred} `{!TfData Rng (X * Y)}.

(** The world once the line announcing the epoch is written. *)
Definition announced (epoch : Z) (w : World Model Rng) : World Model Rng :=
  set_stdout
    (stdout w ++ [CR +:+ "Epoch " +:+ pretty (epoch + 1) +:+ " " +:+ LF]) w.

Section Loop.
Variables (trainset : list (X * Y)) (x_valid : list X) (y_valid : list Y).
Variables (batch_size : Z) (shuffle verbose : bool).
Variables (es_patience : Z) (es_metric lr_metric : string).

(** The calls of a run of the epoch loop over [epochs], started in the
    world [w], and the outcome [r] of the loop. Each epoch makes, in this
    order and each on the world the one before left behind: train_epoch
    (on the world with the epoch announced), evaluate on "valid",
    check_lr_decay with the latest validation value of [lr_metric], and
    early_stopping. A call that raised is the last one and its exception
    is the outcome; so is a missing validation value after evaluate. When
    early_stopping answered True the record ends and the loop returns;
    when it answered False the next epoch follows, as long as there is
    one; a loop with no epoch left returns without a call. *)
Fixpoint epochs_in_order (epochs : list Z) (w : World Model Rng)
    (calls : list (event Model Rng X Y)) (r : result unit) : Prop :=
  match epochs with
  | [] => calls = [] ∧ r = OK tt
  | epoch :: later =>
      let w0 := announced epoch w in
      let trained := Trainer_train_epoch trainset shuffle batch_size verbose w0 in
      let evaluated :=
        Trainer_evaluate "valid" x_valid y_valid 128 true trained.2 in
      match calls with
      | [] => False
      | e1 :: calls =>
          e1 = mkEvent (CallTrainEpoch trainset shuffle batch_size verbose) w0
          ∧ match calls with
            | [] => ∃ x, trained.1 = Raise x ∧ r = Raise x
            | e2 :: calls =>
                (∃ a, trained.1 = OK a)
                ∧ e2 = mkEvent (CallEvaluate "valid" x_valid y_valid 128 true)
                         trained.2
                ∧ match calls with
                  | [] =>
                      (∃ x, evaluated.1 = Raise x ∧ r = Raise x)
                      ∨ (evaluated.1 = OK tt
                         ∧ (¬ ∃ val, latest_valid lr_metric
                                       (metrics evaluated.2) val)
                         ∧ (r = Raise (KeyError lr_metric)
                            ∨ r = Raise IndexError))
                  | e3 :: calls =>
                      evaluated.1 = OK tt
                      ∧ ∃ val,
                          latest_valid lr_metric (metrics evaluated.2) val
                          ∧ e3 = mkEvent (CallCheckLrDecay val) evaluated.2
                          ∧ let checked :=
                              Trainer_check_lr_decay val evaluated.2 in
                            match calls with
                            | [] => ∃ x, checked.1 = Raise x ∧ r = Raise x
                            | e4 :: calls =>
                                checked.1 = OK tt
                                ∧ e4 = mkEvent
                                         (CallEarlyStopping es_metric
                                            es_patience)
                                         checked.2
                                ∧ match Trainer_early_stopping
                                          (metrics checked.2) es_metric
                                          es_patience with
                                  | Raise x => calls = [] ∧ r = Raise x
                                  | OK true => calls = [] ∧ r = OK tt
                                  | OK false =>
                                      epochs_in_order later checked.2 calls r
                                  end
                            end
                  end
            end
      end
  end.
End Loop.
End Calls.

(** Does the text contain a line feed? *)
Fixpoint has_LF (s : string) : bool :=
  match s with
  | EmptyString => false
  | String c rest => if decide (c = "010"%char) then true else has_LF rest
  end.

(** [sub] occurs in [s]. *)
Definition occurs_in (sub s : string) : Prop :=
  ∃ pre post, s = pre +:+ sub +:+ post.

(** ** Stand-ins for the collaborators, to run the definitions on examples *)

Definition demo_numpy : Numpy :=
  {| nanmean l := match l with
                  | [] => NaN
                  | _ => Num (foldr Qplus 0%Q l / inject_Z (Z.of_nat (length l)))
                  end;
     nanstd l := match l with
                 | [] => NaN
                 | _ => Num 0
                 end |}.

Definition demo_printf : Printf :=
  {| fmt_float digits q := "0." +:+ str_mul "0" (Z.of_nat digits) |}.

Definition demo_clock : Clock :=
  {| time_at n := inject_Z (Z.of_nat n) |}.

(** A model with one metric, "auroc", counting its training steps. *)
Definition demo_keras : Keras nat Z Z Z :=
  {| model_metric_names _ := ["auroc"];
     model_train_step opt x y steps := ((1 # 2)%Q, x, S steps);
     model_evaluate x y batch_size steps := [(1 # 2)%Q; (3 # 5)%Q] |}.

(** A shuffle that leaves the order alone. *)
Definition demo_tfdata : TfData unit (Z * Z) :=
  {| dataset_shuffle buffer l g := (l, g) |}.

(** A training set of four samples, a validation set of two. *)
Definition demo_trainset : list (Z * Z) := [(1, 5); (2, 6); (3, 7); (4, 8)].
Definition demo_validation : list Z * list Z := ([9; 10], [11; 12]).

(** A metric store whose validation split holds given histories. *)
Definition demo_history (histories : gmap string (list pyfloat))
    : TrainMetrics :=
  set_valid {| value := histories; metric_names := ["loss"; "auroc"] |}
    (TrainMetrics_init ["loss"; "auroc"]).

(** Two update calls: one naming "loss", one naming "auroc" and "loss". *)
Definition demo_calls : list (kwargs (list Q)) :=
  [ [("loss", [(1 # 2)%Q])];
    [("auroc", [(3 # 5)%Q; (7 # 10)%Q]); ("loss", [(2 # 5)%Q])] ].

Definition demo_world : World nat unit :=
  {| model := 0%nat; optimizer := {| learning_rate := (1 # 1000)%Q |};
     metrics := TrainMetrics_init ["loss"; "auroc"]; lr_decay := None;
     rng := tt; ticks := 0%nat; stdout := [] |}.

(** A model that has the metric "auroc" but whose evaluation reports the
    loss only. *)
Definition demo_keras_short : Keras nat Z Z Z :=
  {| model_metric_names _ := ["auroc"];
     model_train_step opt x y steps := ((1 # 2)%Q, x, S steps);
     model_evaluate x y batch_size steps := [(1 # 2)%Q] |}.


(** A model that also reports its loss as a metric. *)
Definition demo_keras_loss : Keras nat Z Z Z :=
  {| model_metric_names _ := ["loss"];
     model_train_step opt x y steps := ((1 # 2)%Q, x, S steps);
     model_evaluate x y batch_size steps := [(1 # 2)%Q; (3 # 5)%Q] |}.


(** ** Vocabulary of further properties *)

(** The values of [vals] improve one after the other, starting from the
    best value [best]: each is below the one before it for "loss", above
    it for any other metric. *)
Fixpoint improving (m : string) (best : Q) (vals : list Q) : Prop :=
  match vals with
  | [] => True
  | v :: rest =>
      (if decide (m = "loss") then (v < best)%Q else (best < v)%Q)
      ∧ improving m v rest
  end.

(** The metric names [progress_bar] looks for among its keyword arguments. *)
Definition shown_metrics : list string :=
  ["loss"; "acc"; "auroc"; "aupr"; "pearsonr"; "mcc"; "mse"].

(** [print] can show the metric [name] of the store: its history is not
    empty and, unless the name is "loss", neither is its "_std" history. *)
Definition printable (self : MonitorMetrics) (name : string) : Prop :=
  history self name ≠ []
  ∧ (name = "loss" ∨ history self (name +:+ "_std") ≠ []).

(** The store of the split called [name], if there is one. *)
Definition split_of (name : string) (tm : TrainMetrics) : option MonitorMetrics :=
  if decide (name = "train") then Some (train tm)
  else if decide (name = "valid") then Some (valid tm)
  else if decide (name = "test") then Some (test tm)
  else None.

(** A store as the trainer keeps it for a model whose metrics are called
    [names]: it declares "loss" and those names, and holds the keys the
    constructor made for them. *)
Definition store_for (names : list string) (self : MonitorMetrics) : Prop :=
  metric_names self = "loss" :: names
  ∧ dom (value self) = dom (value (MonitorMetrics_init ("loss" :: names))).

(** The parts of the world that belong to the trainer's bookkeeping. *)
Definition bookkeeping {Model Rng} (w : World Model Rng)
    : TrainMetrics * option LRDecay * Optimizer :=
  (metrics w, lr_decay w, optimizer w).

(** * Properties *)

(** ** Comparison of floats *)

Lemma Qltb_lt (x y : Q) : Qltb x y = true ↔ (x < y)%Q.
Proof.
  unfold Qltb. rewrite negb_true_iff, <- not_true_iff_false, Qle_bool_iff.
  split; [apply Qnot_le_lt | apply Qlt_not_le].
Qed.

Lemma Qltb_ge (x y : Q) : Qltb x y = false ↔ (y <= x)%Q.
Proof.
  unfold Qltb. rewrite negb_false_iff. apply Qle_bool_iff.
Qed.

Lemma Qltb_irrefl (x : Q) : Qltb x x = false.
Proof. apply Qltb_ge, Qle_refl. Qed.

Lemma Qltb_sign_pos (x y : Q) :
  Qltb (inject_Z 1 * x)%Q (inject_Z 1 * y)%Q = Qltb x y.
Proof.
  destruct (Qltb x y) eqn:E.
  - apply Qltb_lt. apply Qltb_lt in E. by rewrite !Qmult_1_l.
  - apply Qltb_ge. apply Qltb_ge in E. by rewrite !Qmult_1_l.
Qed.

Lemma Qmult_minus_one (x : Q) : (inject_Z (-1) * x == - x)%Q.
Proof. unfold Qeq, Qmult, Qopp; simpl. destruct (Qnum x); simpl; lia. Qed.

Lemma Qltb_sign_neg (x y : Q) :
  Qltb (inject_Z (-1) * x)%Q (inject_Z (-1) * y)%Q = Qltb y x.
Proof.
  destruct (Qltb y x) eqn:E.
  - apply Qltb_lt. apply Qltb_lt in E.
    rewrite !Qmult_minus_one. by apply Qopp_lt_compat.
  - apply Qltb_ge. apply Qltb_ge in E.
    rewrite !Qmult_minus_one. by apply Qopp_le_compat.
Qed.

(** ** TrainMetrics *)

(** C6. A split name other than "train", "valid" and "test" makes
    [TrainMetrics.update] a silent no-op: it returns normally and the three
    per-split stores are left exactly as they were. *)
Theorem TrainMetrics_update_unknown_split `{Numpy} (name : string)
    (kw : kwargs (list Q)) (tm : TrainMetrics) :
  name ≠ "train" → name ≠ "valid" → name ≠ "test" →
  TrainMetrics_update name kw tm = (OK tt, tm).
Proof.
  intros Htrain Hvalid Htest. unfold TrainMetrics_update.
  repeat case_decide; done.
Qed.

(** ** LRDecay: initial best value *)

Lemma LRDecay_init_loss (opt : Optimizer) (rate : Q) (pat : Z) :
  LRDecay_init opt rate pat "loss"
  = mkLRDecay (learning_rate opt) rate pat "loss" 0 ten_billion 1.
Proof. reflexivity. Qed.

Lemma LRDecay_init_other (opt : Optimizer) (rate : Q) (pat : Z) (m : string) :
  m ≠ "loss" →
  LRDecay_init opt rate pat m
  = mkLRDecay (learning_rate opt) rate pat m 0 (- ten_billion)%Q (-1).
Proof.
  intros Hm. unfold LRDecay_init, LRDecay_initialize. by case_decide.
Qed.

Lemma LRDecay_status_improves (self : LRDecay) (val : Q) :
  Qltb (inject_Z (sign self) * val)%Q (inject_Z (sign self) * best_val self)%Q = true →
  LRDecay_status val self = (OK false, set_index 0 (set_best_val val self)).
Proof.
  intros Hlt. unfold LRDecay_status, mbind, M_bind, bind, get; simpl.
  by rewrite Hlt.
Qed.

Lemma LRDecay_status_stalls (self : LRDecay) (val : Q) :
  Qltb (inject_Z (sign self) * val)%Q (inject_Z (sign self) * best_val self)%Q = false →
  LRDecay_status val self
  = if decide (index self + 1 = patience self)
    then (OK true, set_index 0 (set_index (index self + 1) self))
    else (OK false, set_index (index self + 1) self).
Proof.
  intros Hge. unfold LRDecay_status, mbind, M_bind, bind, get; simpl.
  rewrite Hge; simpl. by case_decide.
Qed.

Lemma fresh_test (opt : Optimizer) (rate : Q) (pat : Z) (m : string) (val : Q) :
  let self := LRDecay_init opt rate pat m in
  Qltb (inject_Z (sign self) * val)%Q (inject_Z (sign self) * best_val self)%Q
  = first_improves m val.
Proof.
  unfold first_improves. case_decide as Hm.
  - subst m. rewrite LRDecay_init_loss. simpl. apply Qltb_sign_pos.
  - rewrite LRDecay_init_other by done. simpl. apply Qltb_sign_neg.
Qed.

(** C4 (as the code has it). A fresh decay record holds the finite sentinel
    [1e10] as best value for "loss" and [-1e10] for any other metric; the
    first value counts as an improvement exactly when it is below [1e10]
    (for "loss") or above [-1e10] (otherwise), and a first value that is
    not leaves the sentinel in place. *)
Theorem LRDecay_initial_best_val (opt : Optimizer) (rate : Q) (pat : Z) :
  best_val (LRDecay_init opt rate pat "loss") = ten_billion
  ∧ (∀ m, m ≠ "loss" →
       best_val (LRDecay_init opt rate pat m) = (- ten_billion)%Q)
  ∧ (∀ m val,
       (if decide (m = "loss") then (val < ten_billion)%Q
        else (- ten_billion < val)%Q) →
       LRDecay_status val (LRDecay_init opt rate pat m)
       = (OK false, set_index 0 (set_best_val val (LRDecay_init opt rate pat m))))
  ∧ (∀ m val,
       (if decide (m = "loss") then (ten_billion <= val)%Q
        else (val <= - ten_billion)%Q) →
       best_val (LRDecay_status val (LRDecay_init opt rate pat m)).2
       = best_val (LRDecay_init opt rate pat m)).
Proof.
  split; [reflexivity |]. split.
  { intros m Hm. by rewrite LRDecay_init_other. }
  split.
  - intros m val Hval. apply LRDecay_status_improves.
    rewrite fresh_test. unfold first_improves.
    case_decide; by apply Qltb_lt.
  - intros m val Hval. rewrite LRDecay_status_stalls.
    + by destruct (decide (index _ + 1 = _)).
    + rewrite fresh_test. unfold first_improves.
      case_decide; by apply Qltb_ge.
Qed.

(** ** numpy: argmin and argmax *)

Section ArgScan.
Variable better : Q → Q → bool.
Variable replaces : pyfloat → pyfloat → bool.
Hypothesis replaces_num : ∀ x b : Q, replaces (Num x) (Num b) = better x b.
Hypothesis replaces_nan : ∀ b : Q, replaces NaN (Num b) = true.
Hypothesis better_irrefl : ∀ x, better x x = false.
Hypothesis better_asym : ∀ x y, better x y = true → better y x = false.
Hypothesis better_cut :
  ∀ x b y, better x b = true → better y b = false → better x y = true.

(** Invariant of the scan over numbers: [b], found at [bi], is the first
    best element of the prefix [p] already visited. *)
Lemma arg_scan_spec (l p : list Q) (b : Q) (bi : nat) :
  p !! bi = Some b →
  (∀ j x, p !! j = Some x → better x b = false) →
  (∀ j x, (j < bi)%nat → p !! j = Some x → better b x = true) →
  ∃ b', (p ++ l) !! arg_scan replaces (Num b) bi (length p) (Num <$> l) = Some b'
        ∧ (∀ j x, (p ++ l) !! j = Some x → better x b' = false)
        ∧ (∀ j x, (j < arg_scan replaces (Num b) bi (length p) (Num <$> l))%nat →
                  (p ++ l) !! j = Some x → better b' x = true).
Proof.
  revert p b bi. induction l as [|x l IH]; intros p b bi Hbi Hall Hbefore.
  - simpl. rewrite app_nil_r. eauto.
  - cbn [fmap list_fmap arg_scan is_nan]. rewrite replaces_num.
    replace (p ++ x :: l) with ((p ++ [x]) ++ l) by by rewrite <- app_assoc.
    replace (S (length p)) with (length (p ++ [x])) by (rewrite length_app; simpl; lia).
    destruct (better x b) eqn:Hx.
    + apply IH.
      * by rewrite lookup_app_r, Nat.sub_diag.
      * intros j y Hy. apply lookup_app_Some in Hy as [Hy | [_ Hy]].
        -- apply better_asym, (better_cut _ b); eauto.
        -- destruct (j - length p)%nat as [|k]; simpl in Hy.
           ++ simplify_eq. apply better_irrefl.
           ++ by rewrite lookup_nil in Hy.
      * intros j y Hj Hy. rewrite lookup_app_l in Hy by done.
        apply (better_cut _ b); eauto.
    + apply IH.
      * by apply lookup_app_l_Some.
      * intros j y Hy. apply lookup_app_Some in Hy as [Hy | [_ Hy]]; [eauto |].
        destruct (j - length p)%nat as [|k]; simpl in Hy.
        -- by simplify_eq.
        -- by rewrite lookup_nil in Hy.
      * intros j y Hj Hy. apply lookup_lt_Some in Hbi.
        rewrite lookup_app_l in Hy by lia. eauto.
Qed.

Lemma arg_best_spec (l : list Q) :
  l ≠ [] →
  ∃ i b, arg_best replaces (Num <$> l) = OK i ∧ l !! i = Some b
         ∧ (∀ j x, l !! j = Some x → better x b = false)
         ∧ (∀ j x, (j < i)%nat → l !! j = Some x → better b x = true).
Proof.
  destruct l as [|x l]; [done |]. intros _. cbn [fmap list_fmap arg_best].
  destruct (arg_scan_spec l [x] x 0) as (b & Hb & Hall & Hbefore).
  - done.
  - intros [|j] y Hy; simpl in Hy.
    + simplify_eq. apply better_irrefl.
    + by rewrite lookup_nil in Hy.
  - intros; lia.
  - exists (arg_scan replaces (Num x) 0 1 (Num <$> l)), b. eauto.
Qed.

(** The scan stops at the first NaN. *)
Lemma arg_scan_first_nan (l : list pyfloat) (b : Q) (bi i j : nat) :
  first_nan l j → arg_scan replaces (Num b) bi i l = (i + j)%nat.
Proof.
  revert b bi i j. induction l as [|x l IH]; intros b bi i j [Hj Hbefore].
  { by rewrite lookup_nil in Hj. }
  cbn [arg_scan is_nan]. destruct j as [|j].
  - simpl in Hj. injection Hj as ->. rewrite replaces_nan.
    destruct l; simpl; lia.
  - destruct x as [q |]; [| by destruct (Hbefore 0%nat NaN); [lia | |]].
    assert (first_nan l j) as Hrest.
    { split; [done |]. intros k y Hk. apply (Hbefore (S k)). lia. }
    destruct (replaces (Num q) (Num b)); rewrite (IH _ _ _ j Hrest); lia.
Qed.

Lemma arg_best_first_nan (l : list pyfloat) (j : nat) :
  first_nan l j → arg_best replaces l = OK j.
Proof.
  destruct l as [|x l]; intros [Hj Hbefore].
  { by rewrite lookup_nil in Hj. }
  cbn [arg_best]. f_equal. destruct j as [|j].
  - simpl in Hj. injection Hj as ->. by destruct l.
  - destruct x as [q |]; [| by destruct (Hbefore 0%nat NaN); [lia | |]].
    rewrite (arg_scan_first_nan l q 0 1 j); [done |].
    split; [done |]. intros k y Hk. apply (Hbefore (S k)). lia.
Qed.
End ArgScan.

Lemma np_argmin_spec (l : list Q) :
  l ≠ [] → ∃ i, np_argmin (Num <$> l) = OK i ∧ earliest_min l i.
Proof.
  intros Hl.
  destruct (arg_best_spec (λ x best, Qltb x best)
              (λ x best, negb (py_leb best x))) with (l := l)
    as (i & b & Hi & Hb & Hall & Hbefore); [done | | | | done |].
  - apply Qltb_irrefl.
  - intros x y Hxy. apply Qltb_ge, Qlt_le_weak. by apply Qltb_lt.
  - intros x b y Hxb Hyb. apply Qltb_lt.
    apply Qltb_lt in Hxb. apply Qltb_ge in Hyb. by eapply Qlt_le_trans.
  - exists i. split; [done |]. exists b. split; [done |]. split.
    + intros j x Hx. apply Qltb_ge. eauto.
    + intros j x Hj Hx. apply Qltb_lt. eauto.
Qed.

Lemma np_argmax_spec (l : list Q) :
  l ≠ [] → ∃ i, np_argmax (Num <$> l) = OK i ∧ earliest_max l i.
Proof.
  intros Hl.
  destruct (arg_best_spec (λ x best, Qltb best x)
              (λ x best, negb (py_leb x best))) with (l := l)
    as (i & b & Hi & Hb & Hall & Hbefore); [done | | | | done |].
  - apply Qltb_irrefl.
  - intros x y Hxy. apply Qltb_ge, Qlt_le_weak. by apply Qltb_lt.
  - intros x b y Hxb Hyb. apply Qltb_lt.
    apply Qltb_lt in Hxb. apply Qltb_ge in Hyb. by eapply Qle_lt_trans.
  - exists i. split; [done |]. exists b. split; [done |]. split.
    + intros j x Hx. apply Qltb_ge. eauto.
    + intros j x Hj Hx. apply Qltb_lt. eauto.
Qed.

(** The first NaN of a history is both its argmin and its argmax. *)
Lemma np_arg_first_nan (l : list pyfloat) (j : nat) :
  first_nan l j → np_argmin l = OK j ∧ np_argmax l = OK j.
Proof. intros Hj. split; by apply arg_best_first_nan. Qed.

(** ** int64 arithmetic *)

Lemma int64_wrap_id (z : Z) : int64_min ≤ z ≤ int64_max → int64_wrap z = z.
Proof.
  unfold int64_wrap, int64_min, int64_max. intros Hz.
  rewrite Z.mod_small; lia.
Qed.

Lemma int64_wrap_range (z : Z) : int64_min ≤ int64_wrap z ≤ int64_max.
Proof.
  unfold int64_wrap, int64_min, int64_max.
  pose proof (Z.mod_pos_bound (z - - 2 ^ 63) (2 ^ 64)). lia.
Qed.

(** Below the range the difference comes back at the top of it. *)
Lemma int64_wrap_below (z : Z) :
  int64_min - 2 ^ 64 ≤ z < int64_min → int64_wrap z = z + 2 ^ 64.
Proof.
  unfold int64_wrap, int64_min. intros Hz.
  rewrite <- (Z.mod_add _ 1) by lia. rewrite Z.mod_small; lia.
Qed.

(** The number of entries after an index of the list, as the code
    computes it. *)
Lemma elapsed_int64 (len i : nat) :
  (i < len)%nat → Z.of_nat len ≤ int64_max →
  int64_sub (int64_sub (Z.of_nat len) (Z.of_nat i)) 1
  = Z.of_nat (len - i - 1).
Proof.
  intros Hi Hlen. unfold int64_sub.
  rewrite (int64_wrap_id (Z.of_nat len - Z.of_nat i))
    by (unfold int64_min, int64_max in *; lia).
  rewrite int64_wrap_id by (unfold int64_min, int64_max in *; lia). lia.
Qed.

(** ** Early stopping *)

(** [early_stopping] once the index of the best entry is known. *)
Lemma early_stopping_run (tm : TrainMetrics) (m : string) (pat : Z)
    (vals : list pyfloat) (i : nat) :
  value (valid tm) !! m = Some vals →
  (if decide (m = "loss") then np_argmin vals else np_argmax vals) = OK i →
  (i < length vals)%nat → Z.of_nat (length vals) ≤ int64_max →
  Trainer_early_stopping tm m pat
  = if decide (int64_min ≤ pat ≤ int64_max)
    then OK (bool_decide (int64_wrap (pat - Z.of_nat (length vals - i - 1)) ≤ 0))
    else Raise OverflowError.
Proof.
  intros Hvals Hi Hlt Hlen. unfold Trainer_early_stopping, dict_get.
  rewrite Hvals, Hi. unfold to_int64 at 1.
  rewrite decide_True by (unfold int64_min; lia).
  rewrite elapsed_int64 by done. unfold to_int64.
  destruct (decide (int64_min ≤ pat ≤ int64_max)); [| done].
  unfold int64_sub.
  destruct (decide (int64_wrap (pat - Z.of_nat (length vals - i - 1)) ≤ 0)).
  - by rewrite bool_decide_eq_true_2.
  - by rewrite bool_decide_eq_false_2.
Qed.

(** On a history of numbers the index is that of the best entry. *)
Lemma early_stopping_best (m : string) (vals : list Q) :
  vals ≠ [] →
  ∃ i : nat,
    (if decide (m = "loss") then np_argmin (Num <$> vals)
     else np_argmax (Num <$> vals)) = OK i
    ∧ best_index m vals i ∧ (i < length vals)%nat.
Proof.
  intros Hne.
  assert (∃ i, (if decide (m = "loss") then np_argmin (Num <$> vals)
                else np_argmax (Num <$> vals))
               = OK i ∧ best_index m vals i) as (i & Hi & Hbest).
  { unfold best_index. case_decide;
      [apply np_argmin_spec | apply np_argmax_spec]; done. }
  exists i. split; [done |]. split; [done |].
  unfold best_index in Hbest.
  case_decide; destruct Hbest as (b & Hb & _); by eapply lookup_lt_Some.
Qed.

(** On a non-empty history of numbers the answer is decided by the number
    of entries after the best one. *)
Lemma early_stopping_elapsed (tm : TrainMetrics) (m : string) (pat : Z)
    (vals : list Q) :
  value (valid tm) !! m = Some (Num <$> vals) → vals ≠ [] →
  Z.of_nat (length vals) ≤ int64_max →
  ∃ i : nat,
    best_index m vals i ∧ (i < length vals)%nat
    ∧ Trainer_early_stopping tm m pat
      = if decide (int64_min ≤ pat ≤ int64_max)
        then OK (bool_decide
                   (int64_wrap (pat - Z.of_nat (length vals - i - 1)) ≤ 0))
        else Raise OverflowError.
Proof.
  intros Hvals Hne Hlen.
  destruct (early_stopping_best m vals Hne) as (i & Hi & Hbest & Hlt).
  exists i. split; [done |]. split; [done |].
  rewrite (early_stopping_run tm m pat (Num <$> vals) i), ?length_fmap;
    rewrite ?length_fmap; done.
Qed.

(** C3 (as the code has it). On a non-empty validation history without NaN
    entries, and for a patience that fits numpy's int64,
    [early_stopping] returns True exactly when the int64 difference of the
    patience and the number of entries recorded after the best entry is at
    most zero, the best entry being the earliest least one for "loss" and
    the earliest greatest one otherwise; unless the patience is so far
    below zero that the difference leaves the int64 range, this is the
    difference of the integers. On a history with a NaN entry the first
    NaN takes the place of the best entry. A patience outside the int64
    range raises [OverflowError] on every non-empty history. On the
    "auroc" history 0.5, 0.6, 0.55 the answer is True with patience 1 and
    False with patience 2; on the "loss" history 0.9, 0.8, 0.95, 1.0 it is
    True with patience 1. *)
Theorem early_stopping_spec :
  (∀ (tm : TrainMetrics) (m : string) (pat : Z) (vals : list Q),
     value (valid tm) !! m = Some (Num <$> vals) → vals ≠ [] →
     Z.of_nat (length vals) ≤ int64_max →
     int64_min ≤ pat ≤ int64_max →
     ∃ i : nat,
       best_index m vals i ∧ (i < length vals)%nat
       ∧ Trainer_early_stopping tm m pat
         = OK (bool_decide
                 (int64_wrap (pat - Z.of_nat (length vals - i - 1)) ≤ 0))
       ∧ (int64_min + Z.of_nat (length vals - i - 1) ≤ pat →
          Trainer_early_stopping tm m pat
          = OK (bool_decide (pat - Z.of_nat (length vals - i - 1) ≤ 0))))
  ∧ (∀ (tm : TrainMetrics) (m : string) (pat : Z) (vals : list pyfloat)
       (j : nat),
       value (valid tm) !! m = Some vals → first_nan vals j →
       Z.of_nat (length vals) ≤ int64_max →
       int64_min ≤ pat ≤ int64_max →
       Trainer_early_stopping tm m pat
       = OK (bool_decide
               (int64_wrap (pat - Z.of_nat (length vals - j - 1)) ≤ 0)))
  ∧ (∀ (tm : TrainMetrics) (m : string) (pat : Z) (vals : list pyfloat),
       value (valid tm) !! m = Some vals → vals ≠ [] →
       Z.of_nat (length vals) ≤ int64_max →
       ¬ (int64_min ≤ pat ≤ int64_max) →
       Trainer_early_stopping tm m pat = Raise OverflowError)
  ∧ (∀ tm : TrainMetrics,
       value (valid tm) !! "auroc"
       = Some [Num (1 # 2); Num (3 # 5); Num (11 # 20)] →
       Trainer_early_stopping tm "auroc" 1 = OK true
       ∧ Trainer_early_stopping tm "auroc" 2 = OK false)
  ∧ (∀ tm : TrainMetrics,
       value (valid tm) !! "loss"
       = Some [Num (9 # 10); Num (4 # 5); Num (19 # 20); Num (1 # 1)] →
       Trainer_early_stopping tm "loss" 1 = OK true).
Proof.
  split_and!.
  - intros tm m pat vals Hvals Hne Hlen Hpat.
    destruct (early_stopping_elapsed tm m pat vals Hvals Hne Hlen)
      as (i & Hbest & Hlt & Hrun).
    rewrite decide_True in Hrun by done.
    exists i. split; [done |]. split; [done |]. split; [done |].
    intros Hlow. rewrite Hrun, int64_wrap_id; [done |]. lia.
  - intros tm m pat vals j Hvals Hj Hlen Hpat.
    destruct (np_arg_first_nan vals j Hj) as [Hmin Hmax].
    rewrite (early_stopping_run tm m pat vals j Hvals).
    + by rewrite decide_True.
    + by case_decide.
    + destruct Hj as [Hj _]. by eapply lookup_lt_Some.
    + done.
  - intros tm m pat vals Hvals Hne Hlen Hpat.
    unfold Trainer_early_stopping, dict_get. rewrite Hvals.
    assert (∃ i, (if decide (m = "loss") then np_argmin vals
                  else np_argmax vals) = OK i) as [i ->].
    { destruct vals; [done |]. case_decide; simpl; eauto. }
    unfold to_int64.
    rewrite decide_True by (unfold int64_min; lia).
    by rewrite decide_False.
  - intros tm Hvals. unfold Trainer_early_stopping, dict_get. by rewrite Hvals.
  - intros tm Hvals. unfold Trainer_early_stopping, dict_get. by rewrite Hvals.
Qed.

(** ** LRDecay: decay under a stalled metric *)

Section LRDecayFeed.
Context {Model Rng : Type} `{Printf}.
Implicit Type w : World Model Rng.

(** The comparison made by [status]. *)
Local Abbreviation test val self :=
  (Qltb (inject_Z (sign self) * val)%Q (inject_Z (sign self) * best_val self)%Q).

Lemma LRDecay_check_improves (self : LRDecay) (val : Q) w :
  test val self = true →
  LRDecay_check self val w = (OK (set_index 0 (set_best_val val self)), w).
Proof.
  intros Ht. unfold LRDecay_check. by rewrite LRDecay_status_improves.
Qed.

Lemma LRDecay_check_waits (self : LRDecay) (val : Q) w :
  test val self = false → index self + 1 ≠ patience self →
  LRDecay_check self val w = (OK (set_index (index self + 1) self), w).
Proof.
  intros Ht Hi. unfold LRDecay_check. rewrite LRDecay_status_stalls by done.
  by destruct (decide (index self + 1 = patience self)).
Qed.

Lemma LRDecay_check_fires (self : LRDecay) (val : Q) w :
  test val self = false → index self + 1 = patience self →
  LRDecay_check self val w
  = (OK (set_lr (lr self * decay_rate self)%Q (set_index 0 self)),
     set_stdout
       (stdout w ++ [("  Decaying learning rate to "
                        +:+ fmt_float 6 (lr self * decay_rate self)%Q) +:+ LF])
       (set_optimizer {| learning_rate := (lr self * decay_rate self)%Q |} w)).
Proof.
  intros Ht Hi. unfold LRDecay_check. rewrite LRDecay_status_stalls by done.
  by destruct (decide (index self + 1 = patience self)).
Qed.

(** A record whose best value the constant [val] does not beat, with the
    counter at [index self]: [n] more copies of [val] fire the decay once
    every [patience self] calls. *)
Lemma LRDecay_feed_stalled (n : nat) (self : LRDecay) (val : Q) w :
  test val self = false →
  0 ≤ index self < patience self →
  learning_rate (optimizer w) = lr self →
  let k := Z.to_nat ((index self + Z.of_nat n) / patience self) in
  ∃ self' w',
    LRDecay_feed self (replicate n val) w = (OK self', w')
    ∧ lr self' = Nat.iter k (λ l, (l * decay_rate self)%Q) (lr self)
    ∧ learning_rate (optimizer w') = lr self'
    ∧ length (stdout w') = (length (stdout w) + k)%nat.
Proof.
  revert self w. induction n as [|n IH]; intros self w Ht Hi Hopt k.
  - exists self, w. subst k. rewrite Z.add_0_r, Z.div_small by done.
    simpl. by rewrite Nat.add_0_r.
  - simpl. unfold mbind, M_bind, bind.
    destruct (decide (index self + 1 = patience self)) as [Hfire | Hwait].
    + rewrite LRDecay_check_fires by done.
      set (self1 := set_lr _ _). set (w1 := set_stdout _ _).
      destruct (IH self1 w1) as (self' & w' & Hrun & Hlr & Hopt' & Hout);
        [done | simpl in *; lia | done |].
      exists self', w'. split; [done |].
      assert (k = S (Z.to_nat ((index self1 + Z.of_nat n) / patience self1)))
        as ->.
      { subst k. simpl.
        replace (index self + Z.of_nat (S n))
          with (Z.of_nat n + 1 * patience self) by lia.
        rewrite Z.div_add by lia.
        rewrite Z2Nat.inj_add, Nat.add_1_r; [done | | lia].
        apply Z.div_pos; lia. }
      split; [| split; [done |]].
      * rewrite Hlr. by rewrite Nat.iter_succ_r.
      * rewrite Hout. subst w1. simpl. rewrite length_app. simpl. lia.
    + rewrite LRDecay_check_waits by done.
      set (self1 := set_index _ _).
      destruct (IH self1 w) as (self' & w' & Hrun & Hlr & Hopt' & Hout);
        [done | simpl in *; lia | done |].
      exists self', w'. split; [done |].
      assert (k = Z.to_nat ((index self1 + Z.of_nat n) / patience self1)) as ->.
      { subst k. simpl. do 2 f_equal. lia. }
      done.
Qed.

(** C2 (as the code has it). Feed [n] copies of one value to a freshly
    initialised record with patience at least 1. When that value improves
    on the initial sentinel (below [1e10] for "loss", above [-1e10]
    otherwise) the first call records it and the learning rate is
    multiplied by the decay rate exactly floor((n-1)/patience) times;
    when it does not, exactly floor(n/patience) times. *)
Theorem LRDecay_constant_sequence (w : World Model Rng) (rate : Q) (pat : Z)
    (m : string) (val : Q) (n : nat) :
  1 ≤ pat →
  LRDecay_decays
    (Z.to_nat (if first_improves m val then (Z.of_nat n - 1) / pat
               else Z.of_nat n / pat))
    w rate pat m (replicate n val).
Proof.
  intros Hpat. unfold LRDecay_decays.
  set (fresh := LRDecay_init (optimizer w) rate pat m).
  assert (lr fresh = learning_rate (optimizer w)
          ∧ decay_rate fresh = rate ∧ patience fresh = pat
          ∧ index fresh = 0) as (Hlr0 & Hrate & Hp & Hi).
  { subst fresh. unfold LRDecay_init, LRDecay_initialize. by case_decide. }
  pose proof (fresh_test (optimizer w) rate pat m val) as Htest.
  simpl in Htest. fold fresh in Htest.
  destruct (first_improves m val).
  - destruct n as [|n].
    + assert (Z.to_nat ((Z.of_nat 0 - 1) / pat) = 0%nat) as ->.
      { assert ((Z.of_nat 0 - 1) / pat < 0); [| lia].
        apply Z.div_lt_upper_bound; lia. }
      exists fresh, w. simpl. split_and!; [done | done | done | lia].
    + simpl. unfold mbind, M_bind, bind.
      rewrite LRDecay_check_improves by done.
      set (self1 := set_index 0 _).
      destruct (LRDecay_feed_stalled n self1 val w)
        as (self' & w' & Hrun & Hlr & Hopt & Hout).
      * subst self1. simpl.
        destruct (sign fresh) as [|s|s]; apply Qltb_irrefl.
      * simpl. lia.
      * done.
      * exists self', w'. split; [done |]. simpl in *.
        rewrite Hrate, Hp, Hlr0 in *.
        replace (Z.of_nat (S n) - 1) with (0 + Z.of_nat n) by lia.
        done.
  - destruct (LRDecay_feed_stalled n fresh val w)
      as (self' & w' & Hrun & Hlr & Hopt & Hout); [done | lia | done |].
    exists self', w'. split; [done |].
    rewrite Hrate, Hp, Hi, Hlr0 in *. by rewrite Z.add_0_l in *.
Qed.
End LRDecayFeed.

(** ** Strings: the "_std" suffix *)

Lemma string_length_app (s t : string) :
  String.length (s +:+ t) = (String.length s + String.length t)%nat.
Proof. induction s as [|a s IH]; [done |]. cbv [String.append]. simpl. f_equal. apply IH. Qed.

Lemma string_app_inj_r (t s1 s2 : string) : s1 +:+ t = s2 +:+ t → s1 = s2.
Proof.
  revert s2. induction s1 as [|a s1 IH]; intros [|b s2] Heq.
  - done.
  - apply (f_equal String.length) in Heq.
    rewrite !string_length_app in Heq. simpl in Heq. lia.
  - apply (f_equal String.length) in Heq.
    rewrite !string_length_app in Heq. simpl in Heq. lia.
  - change (String a (s1 +:+ t) = String b (s2 +:+ t)) in Heq.
    injection Heq as -> Heq. f_equal. by apply IH.
Qed.

Lemma std_suffix_neq (s : string) : s +:+ "_std" ≠ s.
Proof.
  intros Heq. apply (f_equal String.length) in Heq.
  rewrite string_length_app in Heq. simpl in Heq. lia.
Qed.

Lemma recognized_no_std_suffix (m s : string) :
  m ∈ recognized → m ≠ s +:+ "_std".
Proof.
  intros Hm ->.
  pose proof (string_length_app s "_std") as Hlen.
  unfold recognized in Hm.
  repeat (apply elem_of_cons in Hm as [Hm | Hm]);
    try (by apply elem_of_nil in Hm);
    rewrite Hm in Hlen; simpl in Hlen;
    destruct s as [|a [|b s]]; simpl in Hlen; try lia;
    vm_compute in Hm; discriminate Hm.
Qed.

Lemma with_std_recognized (m : string) :
  m ∈ with_std ↔ m ∈ recognized ∧ m ≠ "loss".
Proof.
  unfold with_std, recognized. rewrite !elem_of_cons, !elem_of_nil.
  split.
  - intros H; repeat destruct H as [-> | H]; try done; split; auto 10.
  - intros [H Hne]. repeat destruct H as [-> | H]; try done; auto 10.
Qed.

(** ** MonitorMetrics: construction *)

Lemma declare_metric_lookup (n ns : string) (names : list string)
    (v : gmap string (list pyfloat)) (k : string) :
  declare_metric n ns names v !! k
  = if decide (n ∈ names ∧ (k = n ∨ k = ns)) then Some [] else v !! k.
Proof.
  unfold declare_metric. destruct (decide (n ∈ names)) as [Hin | Hout].
  - destruct (decide (k = ns)) as [-> | Hns].
    { rewrite lookup_insert_eq, decide_True; auto. }
    rewrite lookup_insert_ne by done.
    destruct (decide (k = n)) as [-> | Hn].
    { rewrite lookup_insert_eq, decide_True; auto. }
    rewrite lookup_insert_ne by done. rewrite decide_False; [done |].
    intros [_ [? | ?]]; done.
  - rewrite decide_False; [done |]. by intros [? _].
Qed.

Lemma fresh_lookup (names : list string) (k : string) (h : list pyfloat) :
  MonitorMetrics_initialize_metrics names ∅ !! k = Some h →
  h = [] ∧ fresh_key names k.
Proof.
  unfold MonitorMetrics_initialize_metrics, fresh_key, with_std.
  rewrite !declare_metric_lookup.
  repeat (case_decide as Hd;
          [ intros [= <-]; split; [done |]; right;
            destruct Hd as [Hin Hk];
            eexists; split; [| split; [exact Hin | exact Hk]];
            rewrite !elem_of_cons; auto 10
          | clear Hd ]).
  intros [[<- <-] | [_ Hempty]]%lookup_insert_Some; [auto |].
  by rewrite lookup_empty in Hempty.
Qed.

Lemma fresh_lookup_key (names : list string) (k : string) :
  fresh_key names k → MonitorMetrics_initialize_metrics names ∅ !! k = Some [].
Proof.
  unfold MonitorMetrics_initialize_metrics.
  rewrite !declare_metric_lookup.
  intros Hk. repeat (case_decide; [done |]).
  destruct Hk as [-> | (m & Hm & Hin & Hk)]; [by rewrite lookup_insert_eq |].
  exfalso. unfold with_std in Hm. rewrite !elem_of_cons, elem_of_nil in Hm.
  repeat destruct Hm as [-> | Hm]; try done;
    cbv [String.append] in Hk; tauto.
Qed.

Lemma fresh_dom (names : list string) (k : string) :
  k ∈ dom (value (MonitorMetrics_init names)) ↔ fresh_key names k.
Proof.
  rewrite elem_of_dom. simpl. split.
  - intros [h Hh]. by apply fresh_lookup in Hh as [_ ?].
  - intros Hk. rewrite fresh_lookup_key by done. eauto.
Qed.

Lemma fresh_history (names : list string) (k : string) :
  history (MonitorMetrics_init names) k = [].
Proof.
  unfold history. simpl.
  destruct (MonitorMetrics_initialize_metrics names ∅ !! k) as [h|] eqn:Hh;
    [| done].
  by apply fresh_lookup in Hh as [-> _].
Qed.

(** On the keys of a fresh store, the updates it takes are those naming a
    recognized identifier that has a history. *)
Lemma fresh_accepts (names : list string) (name : string) :
  accepts (dom (value (MonitorMetrics_init names))) name
  ↔ name ∈ recognized ∧ name ∈ dom (value (MonitorMetrics_init names)).
Proof.
  unfold accepts. rewrite !fresh_dom. split.
  - intros [Hk [-> | Hstd]].
    { split; [| done]. unfold recognized. rewrite elem_of_cons. auto. }
    split; [| done].
    destruct Hstd as [Hloss | (m & Hm & Hin & [Heq | Heq])].
    + symmetry in Hloss. apply recognized_no_std_suffix in Hloss; [done |].
      unfold recognized. rewrite elem_of_cons. auto.
    + symmetry in Heq. apply recognized_no_std_suffix in Heq; [done |].
      by apply with_std_recognized in Hm as [? _].
    + apply string_app_inj_r in Heq as ->.
      by apply with_std_recognized in Hm as [? _].
  - intros [Hrec Hk]. split; [done |].
    destruct (decide (name = "loss")) as [| Hne]; [auto |]. right. right.
    destruct Hk as [-> | (m & Hm & Hin & [-> | ->])]; [done | eauto |].
    by destruct (recognized_no_std_suffix _ m Hrec).
Qed.

(** A "_std" key exists exactly for the tracked metrics other than "loss". *)
Lemma fresh_std_keys (names : list string) (n : string) :
  n +:+ "_std" ∈ dom (value (MonitorMetrics_init names))
  ↔ (n ∈ recognized ∧ n ∈ dom (value (MonitorMetrics_init names))) ∧ n ≠ "loss".
Proof.
  rewrite !fresh_dom. split.
  - intros [Hloss | (m & Hm & Hin & [Heq | Heq])].
    + symmetry in Hloss. apply recognized_no_std_suffix in Hloss; [done |].
      unfold recognized. rewrite elem_of_cons. auto.
    + symmetry in Heq. apply recognized_no_std_suffix in Heq; [done |].
      by apply with_std_recognized in Hm as [? _].
    + apply string_app_inj_r in Heq as ->.
      pose proof Hm as [Hrec Hne]%with_std_recognized.
      split; [split; [done |] | done]. right. eauto.
  - intros [[Hrec Hk] Hne]. right.
    destruct Hk as [-> | (m & Hm & Hin & [-> | ->])]; [done | eauto |].
    by destruct (recognized_no_std_suffix _ m Hrec).
Qed.

(** ** MonitorMetrics: update *)

Lemma for_each_cons {S A} (x : A) (xs : list A) (body : A → M S unit) (s : S) :
  for_each (x :: xs) body s
  = match body x s with
    | (OK _, s') => for_each xs body s'
    | (Raise e, s') => (Raise e, s')
    end.
Proof. reflexivity. Qed.

Lemma history_append_Some (key : string) (x : pyfloat)
    (self : MonitorMetrics) (h : list pyfloat) :
  value self !! key = Some h →
  history_append key x self
  = (OK tt, set_value (<[key := h ++ [x]]> (value self)) self).
Proof.
  intros Hh. unfold history_append, mbind, M_bind, bind, gets, lift_result,
    modify, dict_get. by rewrite Hh.
Qed.

Lemma history_append_None (key : string) (x : pyfloat)
    (self : MonitorMetrics) :
  value self !! key = None →
  history_append key x self = (Raise (KeyError key), self).
Proof.
  intros Hh. unfold history_append, mbind, M_bind, bind, gets, lift_result,
    modify, dict_get. by rewrite Hh.
Qed.

Section MonitorMetricsUpdate.
Context `{Numpy}.
Local Arguments MonitorMetrics_update_one : simpl never.

(** What one iteration of the loop of [update] does, case by case. *)
Lemma update_one_run (name : string) (vals : list Q) (self : MonitorMetrics) :
  MonitorMetrics_update_one (name, vals) self
  = match value self !! name with
    | None => (Raise (KeyError name), self)
    | Some h =>
        let self1 :=
          set_value (<[name := h ++ [nanmean vals]]> (value self)) self in
        if decide (name = "loss") then (OK tt, self1)
        else
          match value self !! (name +:+ "_std") with
          | None => (Raise (KeyError (name +:+ "_std")), self1)
          | Some hs =>
              (OK tt,
               set_value (<[name +:+ "_std" := hs ++ [nanstd vals]]> (value self1))
                 self1)
          end
    end.
Proof.
  unfold MonitorMetrics_update_one, mbind, M_bind, bind.
  destruct (value self !! name) as [h|] eqn:Hh.
  - rewrite (history_append_Some _ _ _ h) by done. simpl.
    destruct (decide (name = "loss")) as [-> | Hne].
    + by rewrite decide_False by (by intros ?).
    + rewrite decide_True by done.
      pose proof (std_suffix_neq name) as Hstd.
      destruct (value self !! (name +:+ "_std")) as [hs|] eqn:Hhs.
      * rewrite (history_append_Some _ _ _ hs); [done |].
        simpl. by rewrite lookup_insert_ne.
      * rewrite history_append_None; [done |].
        simpl. by rewrite lookup_insert_ne.
  - by rewrite history_append_None.
Qed.

Lemma update_one_dom (entry : string * list Q) (self : MonitorMetrics) :
  dom (value (MonitorMetrics_update_one entry self).2) = dom (value self).
Proof.
  destruct entry as [name vals]. rewrite update_one_run.
  destruct (value self !! name) as [h|] eqn:Hh; [| done]. simpl.
  assert (dom (<[name := h ++ [nanmean vals]]> (value self)) = dom (value self))
    as Hdom by (apply dom_insert_lookup_L; eauto).
  destruct (decide (name = "loss")); [done |].
  destruct (value self !! (name +:+ "_std")) as [hs|] eqn:Hhs; [| done].
  simpl. rewrite dom_insert_lookup_L; [done |].
  rewrite lookup_insert_ne by apply not_eq_sym, std_suffix_neq. eauto.
Qed.

Lemma update_one_outcome (entry : string * list Q) (self : MonitorMetrics) :
  (MonitorMetrics_update_one entry self).1 = OK tt
  ∨ ∃ k, (MonitorMetrics_update_one entry self).1 = Raise (KeyError k).
Proof.
  destruct entry as [name vals]. rewrite update_one_run.
  destruct (value self !! name); [| eauto]. simpl.
  destruct (decide (name = "loss")); [auto |].
  destruct (value self !! (name +:+ "_std")); eauto.
Qed.

Lemma update_one_OK (name : string) (vals : list Q) (self : MonitorMetrics) :
  (MonitorMetrics_update_one (name, vals) self).1 = OK tt
  ↔ accepts (dom (value self)) name.
Proof.
  rewrite update_one_run. unfold accepts. rewrite !elem_of_dom.
  destruct (value self !! name) as [h|].
  - simpl. destruct (decide (name = "loss")) as [-> | Hne].
    + split; eauto.
    + destruct (value self !! (name +:+ "_std")) as [hs|].
      * split; eauto.
      * split; [done |]. intros [_ [? | [? ?]]]; done.
  - split; [done |]. intros [[? ?] _]; done.
Qed.

(** A successful iteration lengthens the history of the metric it names by
    one and leaves the histories of the other recognized metrics alone. *)
Lemma update_one_length (name : string) (vals : list Q) (self : MonitorMetrics)
    (n : string) :
  (MonitorMetrics_update_one (name, vals) self).1 = OK tt →
  n ∈ recognized →
  length (history (MonitorMetrics_update_one (name, vals) self).2 n)
  = (length (history self n) + (if decide (n = name) then 1 else 0))%nat.
Proof.
  rewrite update_one_run. intros Hok Hrec. unfold history.
  destruct (value self !! name) as [h|] eqn:Hh; [| done]. simpl in *.
  assert (n ≠ name +:+ "_std") as Hstd by by apply recognized_no_std_suffix.
  destruct (decide (name = "loss")) as [Hloss | Hloss]; simpl.
  - destruct (decide (n = name)) as [-> | Hn].
    + rewrite lookup_insert_eq, Hh. simpl. by rewrite length_app.
    + rewrite lookup_insert_ne by done. lia.
  - destruct (value self !! (name +:+ "_std")) as [hs|] eqn:Hhs; [| done].
    simpl. rewrite lookup_insert_ne by done.
    destruct (decide (n = name)) as [-> | Hn].
    + rewrite lookup_insert_eq, Hh. simpl. by rewrite length_app.
    + rewrite lookup_insert_ne by done. lia.
Qed.

Lemma update_dom (kw : kwargs (list Q)) (self : MonitorMetrics) :
  dom (value (MonitorMetrics_update kw self).2) = dom (value self).
Proof.
  unfold MonitorMetrics_update. revert self.
  induction kw as [|entry kw IH]; intros self; [done |].
  rewrite for_each_cons. pose proof (update_one_dom entry self) as Hdom.
  destruct (MonitorMetrics_update_one entry self) as [[[] | e] self1];
    simpl in *; [| done].
  by rewrite IH.
Qed.

Lemma update_outcome (kw : kwargs (list Q)) (self : MonitorMetrics) :
  (MonitorMetrics_update kw self).1 = OK tt
  ∨ ∃ k, (MonitorMetrics_update kw self).1 = Raise (KeyError k).
Proof.
  unfold MonitorMetrics_update. revert self.
  induction kw as [|entry kw IH]; intros self; [by left |].
  rewrite for_each_cons.
  destruct (update_one_outcome entry self) as [Hok | [k Hk]];
    destruct (MonitorMetrics_update_one entry self) as [[[] | e] self1];
    simplify_eq/=; eauto.
Qed.

Lemma update_OK (kw : kwargs (list Q)) (self : MonitorMetrics) :
  (MonitorMetrics_update kw self).1 = OK tt
  ↔ Forall (accepts (dom (value self))) (kw_keys kw).
Proof.
  unfold MonitorMetrics_update. revert self.
  induction kw as [|[name vals] kw IH]; intros self.
  { split; [by constructor | done]. }
  rewrite for_each_cons. unfold kw_keys. rewrite fmap_cons, Forall_cons. simpl.
  rewrite <- update_one_OK with (vals := vals).
  pose proof (update_one_dom (name, vals) self) as Hdom.
  destruct (MonitorMetrics_update_one (name, vals) self) as [[[] | e] self1];
    cbn [fst snd] in *.
  - rewrite IH, Hdom. unfold kw_keys. tauto.
  - split; [done |]. by intros [? _].
Qed.

Lemma update_length (kw : kwargs (list Q)) (self : MonitorMetrics) (n : string) :
  (MonitorMetrics_update kw self).1 = OK tt →
  NoDup (kw_keys kw) → n ∈ recognized →
  length (history (MonitorMetrics_update kw self).2 n)
  = (length (history self n) + (if decide (n ∈ kw_keys kw) then 1 else 0))%nat.
Proof.
  unfold MonitorMetrics_update. revert self.
  induction kw as [|[name vals] kw IH]; intros self Hok Hnodup Hrec.
  { simpl. lia. }
  rewrite for_each_cons in *. unfold kw_keys in *. rewrite fmap_cons in *.
  apply NoDup_cons in Hnodup as [Hfresh Hnodup]. simpl in *.
  pose proof (update_one_length name vals self n) as Hone.
  destruct (MonitorMetrics_update_one (name, vals) self) as [[[] | e] self1];
    simpl in *; [| done].
  rewrite IH, Hone by done.
  destruct (decide (n = name)) as [-> | Hne].
  - rewrite decide_False by done. rewrite decide_True by apply list_elem_of_here.
    lia.
  - destruct (decide (n ∈ kw.*1)) as [Hin | Hout].
    + rewrite decide_True by by apply list_elem_of_further. lia.
    + rewrite decide_False; [lia |]. by intros [? | ?]%elem_of_cons.
Qed.
End MonitorMetricsUpdate.

(** ** MonitorMetrics: series of updates *)

Section MonitorMetricsSeries.
Context `{Numpy}.
Local Arguments MonitorMetrics_update : simpl never.

Lemma after_dom (calls : list (kwargs (list Q))) (self : MonitorMetrics) :
  dom (value (MonitorMetrics_after calls self)) = dom (value self).
Proof.
  revert self. induction calls as [|kw calls IH]; intros self; [done |].
  simpl. by rewrite IH, update_dom.
Qed.

Lemma series_OK (calls : list (kwargs (list Q))) (self : MonitorMetrics) :
  (for_each calls MonitorMetrics_update self).1 = OK tt
  ↔ Forall (λ kw, Forall (accepts (dom (value self))) (kw_keys kw)) calls.
Proof.
  revert self. induction calls as [|kw calls IH]; intros self.
  { split; [by constructor | done]. }
  rewrite for_each_cons, Forall_cons, <- update_OK.
  pose proof (update_dom kw self) as Hdom.
  destruct (MonitorMetrics_update kw self) as [[[] | e] self1]; cbn [fst snd] in *.
  - rewrite IH, Hdom. tauto.
  - split; [done |]. by intros [? _].
Qed.

Lemma series_dom (calls : list (kwargs (list Q))) (self final : MonitorMetrics) :
  for_each calls MonitorMetrics_update self = (OK tt, final) →
  dom (value final) = dom (value self).
Proof.
  revert self. induction calls as [|kw calls IH]; intros self Hrun.
  { by injection Hrun as <-. }
  rewrite for_each_cons in Hrun.
  pose proof (update_dom kw self) as Hdom.
  destruct (MonitorMetrics_update kw self) as [[[] | e] self1];
    cbn [fst snd] in *; [| done].
  by rewrite (IH self1).
Qed.

Lemma series_length (calls : list (kwargs (list Q))) (self final : MonitorMetrics)
    (n : string) :
  for_each calls MonitorMetrics_update self = (OK tt, final) →
  Forall (λ kw, NoDup (kw_keys kw)) calls →
  n ∈ recognized →
  length (history final n)
  = (length (history self n) + calls_naming n calls)%nat.
Proof.
  unfold calls_naming.
  revert self. induction calls as [|kw calls IH]; intros self Hrun Hnodup Hrec.
  { injection Hrun as <-. simpl. lia. }
  rewrite for_each_cons in Hrun. apply Forall_cons in Hnodup as [Hkw Hnodup].
  pose proof (update_length kw self n) as Hone.
  destruct (MonitorMetrics_update kw self) as [[[] | e] self1];
    cbn [fst snd] in *; [| done].
  rewrite (IH self1), Hone by done.
  rewrite filter_cons. destruct (decide (n ∈ kw_keys kw)); simpl; lia.
Qed.

Lemma tracked_dom (self : MonitorMetrics) (n : string) :
  tracked self n ↔ n ∈ recognized ∧ n ∈ dom (value self).
Proof. unfold tracked. by rewrite elem_of_dom. Qed.

(** C5. Starting from a freshly constructed store, a series of [update]
    calls (each with distinct keyword names) runs to completion exactly
    when every call names tracked metrics only; and once it has, the
    history of each tracked metric is as long as the number of calls that
    named it, while a "<name>_std" history exists for every tracked metric
    except "loss" and for no other name. *)
Theorem MonitorMetrics_history_lengths (names : list string)
    (calls : list (kwargs (list Q))) :
  Forall (λ kw, NoDup (kw_keys kw)) calls →
  ((for_each calls MonitorMetrics_update (MonitorMetrics_init names)).1 = OK tt
   ↔ Forall (λ kw, Forall (tracked (MonitorMetrics_init names)) (kw_keys kw)) calls)
  ∧ (∀ final : MonitorMetrics,
       for_each calls MonitorMetrics_update (MonitorMetrics_init names)
       = (OK tt, final) →
       (∀ n, tracked final n →
             ∃ h, value final !! n = Some h ∧ length h = calls_naming n calls)
       ∧ (∀ n, is_Some (value final !! (n +:+ "_std"))
               ↔ tracked final n ∧ n ≠ "loss")).
Proof.
  intros Hnodup. split.
  - rewrite series_OK. apply Forall_proper; [| done]. intros kw.
    apply Forall_proper; [| done]. intros n.
    by rewrite fresh_accepts, tracked_dom.
  - intros final Hrun. pose proof (series_dom _ _ _ Hrun) as Hdom. split.
    + intros n [Hrec [h Hh]]. exists h. split; [done |].
      pose proof (series_length _ _ _ n Hrun Hnodup Hrec) as Hlen.
      rewrite fresh_history in Hlen. unfold history in Hlen.
      by rewrite Hh in Hlen.
    + intros n. rewrite tracked_dom, <- elem_of_dom, Hdom.
      apply fresh_std_keys.
Qed.

Lemma unknown_name_raises (kw : kwargs (list Q)) (self : MonitorMetrics)
    (name : string) :
  name ∈ kw_keys kw → ¬ accepts (dom (value self)) name →
  ∃ k, (MonitorMetrics_update kw self).1 = Raise (KeyError k).
Proof.
  intros Hin Hno.
  destruct (update_outcome kw self) as [Hok | Hraise]; [| done].
  apply update_OK in Hok. rewrite Forall_forall in Hok. by apply Hok in Hin.
Qed.

Lemma TrainMetrics_update_propagates (kw : kwargs (list Q))
    (self : MonitorMetrics) (tm : TrainMetrics) :
  (TrainMetrics_update "train" kw (set_train self tm)).1
  = (MonitorMetrics_update kw self).1
  ∧ (TrainMetrics_update "valid" kw (set_valid self tm)).1
    = (MonitorMetrics_update kw self).1
  ∧ (TrainMetrics_update "test" kw (set_test self tm)).1
    = (MonitorMetrics_update kw self).1.
Proof.
  unfold TrainMetrics_update, zoom; simpl.
  by destruct (MonitorMetrics_update kw self).
Qed.

(** C7. A metric name for which construction created no history makes
    every later [update] naming it fail with a key lookup error, whatever
    calls came before; the callers do not recover from it:
    [TrainMetrics.update] on any of the three splits ends in that same
    exception. *)
Theorem MonitorMetrics_update_unknown_metric (names : list string)
    (calls : list (kwargs (list Q))) (kw : kwargs (list Q)) (name : string)
    (tm : TrainMetrics) :
  value (MonitorMetrics_init names) !! name = None →
  name ∈ kw_keys kw →
  ∃ k,
    (MonitorMetrics_update kw
       (MonitorMetrics_after calls (MonitorMetrics_init names))).1
    = Raise (KeyError k)
    ∧ (TrainMetrics_update "train" kw
         (set_train (MonitorMetrics_after calls (MonitorMetrics_init names)) tm)).1
      = Raise (KeyError k)
    ∧ (TrainMetrics_update "valid" kw
         (set_valid (MonitorMetrics_after calls (MonitorMetrics_init names)) tm)).1
      = Raise (KeyError k)
    ∧ (TrainMetrics_update "test" kw
         (set_test (MonitorMetrics_after calls (MonitorMetrics_init names)) tm)).1
      = Raise (KeyError k).
Proof.
  intros Hnone Hin.
  destruct (unknown_name_raises kw
              (MonitorMetrics_after calls (MonitorMetrics_init names)) name)
    as [k Hk]; [done | |].
  { rewrite after_dom. intros [Hdom _].
    apply elem_of_dom in Hdom as [h Hh]. by rewrite Hnone in Hh. }
  exists k.
  destruct (TrainMetrics_update_propagates kw
              (MonitorMetrics_after calls (MonitorMetrics_init names)) tm)
    as (-> & -> & ->).
  done.
Qed.

Lemma fresh_key_filter (names : list string) (name k : string) :
  name ∉ recognized →
  fresh_key (filter (λ n, n ≠ name) names) k ↔ fresh_key names k.
Proof.
  intros Hname. unfold fresh_key.
  split; (intros [-> | (m & Hm & Hin & Hk)]; [by left | right]);
    exists m; (split; [done |]); (split; [| done]).
  - by apply list_elem_of_filter in Hin as [_ ?].
  - apply list_elem_of_filter. split; [| done].
    intros ->. by apply with_std_recognized in Hm as [? _].
Qed.

(** C10 (as the code has it). Declaring at construction a metric name
    outside the recognized set creates no history on its account: the
    store is the one built without that name, and holds a key of that name
    only when the name is the "_std" key of a declared recognized metric.
    Every later [update] naming it fails with a key lookup error, even
    though the name was supplied at construction. *)
Theorem MonitorMetrics_unrecognized_declared (names : list string)
    (name : string) (calls : list (kwargs (list Q))) (kw : kwargs (list Q)) :
  name ∈ names → name ∉ recognized →
  value (MonitorMetrics_init names)
  = value (MonitorMetrics_init (filter (λ n, n ≠ name) names))
  ∧ (value (MonitorMetrics_init names) !! name = None
     ∨ ∃ m, m ∈ with_std ∧ m ∈ names ∧ name = m +:+ "_std")
  ∧ (name ∈ kw_keys kw →
     ∃ k, (MonitorMetrics_update kw
             (MonitorMetrics_after calls (MonitorMetrics_init names))).1
          = Raise (KeyError k)).
Proof.
  intros Hdecl Hname. split; [| split].
  - apply map_eq. intros k. simpl.
    destruct (MonitorMetrics_initialize_metrics names ∅ !! k) as [h|] eqn:Hh.
    + apply fresh_lookup in Hh as [-> Hk]. symmetry.
      by apply fresh_lookup_key, fresh_key_filter.
    + destruct (MonitorMetrics_initialize_metrics (filter _ names) ∅ !! k)
        as [h|] eqn:Hh'; [| done].
      apply fresh_lookup in Hh' as [-> Hk]. apply fresh_key_filter in Hk; [| done].
      by rewrite fresh_lookup_key in Hh.
  - destruct (value (MonitorMetrics_init names) !! name) as [h|] eqn:Hh;
      [| by left].
    right. apply fresh_lookup in Hh as [_ [-> | (m & Hm & Hin & [-> | ->])]].
    + exfalso. apply Hname. unfold recognized. rewrite elem_of_cons. auto.
    + exfalso. by apply with_std_recognized in Hm as [? _].
    + eauto.
  - intros Hin. apply (unknown_name_raises _ _ name); [done |].
    rewrite after_dom, fresh_accepts. by intros [? _].
Qed.
End MonitorMetricsSeries.

(** ** progress_bar *)

Lemma string_app_assoc (a b c : string) : (a +:+ b) +:+ c = a +:+ (b +:+ c).
Proof.
  induction a as [|x a IH]; [done |].
  change (String x ((a +:+ b) +:+ c) = String x (a +:+ (b +:+ c))).
  by rewrite IH.
Qed.

Lemma has_LF_app (a b : string) : has_LF (a +:+ b) = has_LF a || has_LF b.
Proof.
  induction a as [|x a IH]; [done |].
  change (has_LF (String x (a +:+ b)) = has_LF (String x a) || has_LF b).
  simpl. by destruct (decide (x = "010"%char)).
Qed.

Lemma has_LF_str_mul (c : string) (n : Z) :
  has_LF c = false → has_LF (str_mul c n) = false.
Proof.
  intros Hc. unfold str_mul.
  induction (Z.to_nat n) as [|k IH]; [done |].
  simpl. by rewrite has_LF_app, Hc, IH.
Qed.

Lemma occurs_in_skip (a sub s : string) :
  occurs_in sub s → occurs_in sub (a +:+ s).
Proof.
  intros (pre & post & ->). exists (a +:+ pre), post.
  by rewrite string_app_assoc.
Qed.

Lemma occurs_in_here (a b c post : string) :
  occurs_in (a +:+ b +:+ c) (a +:+ b +:+ c +:+ post).
Proof. exists "", post. by rewrite !string_app_assoc. Qed.

Section ProgressBarFacts.
Context {Model Rng : Type} `{Printf} `{Clock}.
Implicit Type w : World Model Rng.
Hypothesis fmt_float_one_line : ∀ digits q, has_LF (fmt_float digits q) = false.

Lemma has_LF_metric_text (kw : kwargs Q) (name : string) :
  has_LF name = false → has_LF (metric_text kw name) = false.
Proof.
  intros Hname. unfold metric_text. destruct (kw_find kw name); [| done].
  by rewrite !has_LF_app, Hname, fmt_float_one_line.
Qed.

(** The metrics appended after the time, none of which breaks the line. *)
Lemma has_LF_metrics (kw : kwargs Q) (head : string) :
  has_LF head = false →
  has_LF (head +:+ metric_text kw "loss" +:+ metric_text kw "acc"
            +:+ metric_text kw "auroc" +:+ metric_text kw "aupr"
            +:+ metric_text kw "pearsonr" +:+ metric_text kw "mcc"
            +:+ metric_text kw "mse") = false.
Proof.
  intros Hhead. rewrite !has_LF_app, Hhead.
  rewrite (has_LF_metric_text kw "loss"), (has_LF_metric_text kw "acc"),
    (has_LF_metric_text kw "auroc"), (has_LF_metric_text kw "aupr"),
    (has_LF_metric_text kw "pearsonr"), (has_LF_metric_text kw "mcc"),
    (has_LF_metric_text kw "mse"); reflexivity.
Qed.

Lemma progress_bar_last (n : Z) (start_time : Q) (bar_length : Z)
    (kw : kwargs Q) w :
  n ≠ 0 →
  ∃ body,
    progress_bar n n start_time bar_length kw w
    = (OK tt, set_stdout (stdout w ++ [body +:+ LF]) (set_ticks (S (ticks w)) w))
    ∧ has_LF body = false
    ∧ occurs_in ("elapsed time=" +:+ fmt_float 1 (time_at (ticks w) - start_time)%Q
                   +:+ "s") body.
Proof.
  intros Hn. eexists. split; [| split].
  - unfold progress_bar, time_time, stdout_write.
    unfold mbind, M_bind, bind, gets, modify, raise, mret, M_ret, ret.
    rewrite decide_False by done. rewrite !decide_True by done.
    reflexivity.
  - apply has_LF_metrics.
    rewrite !has_LF_app, !fmt_float_one_line.
    by rewrite !has_LF_str_mul.
  - rewrite !string_app_assoc. do 6 apply occurs_in_skip.
    apply (occurs_in_skip "% -- ").
    exact (occurs_in_here "elapsed time=" (fmt_float 1 _) "s" _).
Qed.

Lemma progress_bar_running (iter num_batches : Z) (start_time : Q)
    (bar_length : Z) (kw : kwargs Q) w :
  num_batches ≠ 0 → iter ≠ num_batches → iter ≠ -1 →
  ∃ text,
    progress_bar iter num_batches start_time bar_length kw w
    = (OK tt, set_stdout (stdout w ++ [text]) (set_ticks (S (ticks w)) w))
    ∧ has_LF text = false
    ∧ occurs_in ("remaining time="
                   +:+ fmt_float 1 ((time_at (ticks w) - start_time)
                                      * inject_Z (num_batches - (iter + 1))
                                      / inject_Z (iter + 1))%Q
                   +:+ "s") text.
Proof.
  intros Hn Hiter Hfirst. eexists. split; [| split].
  - unfold progress_bar, time_time, stdout_write.
    unfold mbind, M_bind, bind, gets, modify, raise, mret, M_ret, ret.
    rewrite !(decide_False (P := num_batches = 0)) by done.
    rewrite !(decide_False (P := iter = num_batches)) by done.
    rewrite !(decide_False (P := iter + 1 = 0)) by lia.
    cbv beta iota zeta.
    rewrite !(decide_False (P := iter = num_batches)) by done. reflexivity.
  - apply has_LF_metrics.
    rewrite !has_LF_app, !fmt_float_one_line.
    by rewrite !has_LF_str_mul.
  - rewrite !string_app_assoc. do 6 apply occurs_in_skip.
    apply (occurs_in_skip "%  -- ").
    exact (occurs_in_here "remaining time=" (fmt_float 1 _) "s" _).
Qed.

Lemma progress_bar_no_batches (iter : Z) (start_time : Q) (bar_length : Z)
    (kw : kwargs Q) w :
  progress_bar iter 0 start_time bar_length kw w = (Raise ZeroDivisionError, w).
Proof. reflexivity. Qed.

(** C9 (as the code has it). For every call of [progress_bar] with a
    non-zero number of batches: when the batch index equals the number of
    batches the text written holds the elapsed-time summary and ends with
    the line terminator, its only one; when the index is strictly less
    (and is not -1) the text reports the extrapolated remaining time and
    holds no line terminator. *)
Theorem progress_bar_output (iter num_batches : Z) (start_time : Q)
    (bar_length : Z) (kw : kwargs Q) (w : World Model Rng) :
  num_batches ≠ 0 →
  (iter = num_batches →
   ∃ body,
     progress_bar iter num_batches start_time bar_length kw w
     = (OK tt, set_stdout (stdout w ++ [body +:+ LF]) (set_ticks (S (ticks w)) w))
     ∧ has_LF body = false
     ∧ occurs_in ("elapsed time="
                    +:+ fmt_float 1 (time_at (ticks w) - start_time)%Q +:+ "s")
         body)
  ∧ (iter < num_batches → iter ≠ -1 →
     ∃ text,
       progress_bar iter num_batches start_time bar_length kw w
       = (OK tt, set_stdout (stdout w ++ [text]) (set_ticks (S (ticks w)) w))
       ∧ has_LF text = false
       ∧ occurs_in ("remaining time="
                      +:+ fmt_float 1 ((time_at (ticks w) - start_time)
                                         * inject_Z (num_batches - (iter + 1))
                                         / inject_Z (iter + 1))%Q
                      +:+ "s") text).
Proof.
  intros Hn. split.
  - intros ->. by apply progress_bar_last.
  - intros Hlt Hfirst. apply progress_bar_running; [done | lia | done].
Qed.
End ProgressBarFacts.

(** ** Trainer: one epoch of training *)

Lemma bind_run {S A B} (m : M S A) (k : A → M S B) (s : S) :
  (m ≫= k) s
  = match m s with
    | (OK a, s') => k a s'
    | (Raise e, s') => (Raise e, s')
    end.
Proof. reflexivity. Qed.

Section TrainerFacts.
Context {Model Rng X Y Pred : Type}.
Context `{Numpy} `{Printf} `{Clock}.
Context `{!Keras Model X Y Pred} `{!TfData Rng (X * Y)}.
Implicit Type w : World Model Rng.

(** C1 (what the code does). With shuffling disabled [train_epoch] never
    builds the batched dataset: the local variable [batch_dataset] is read
    unassigned, the call ends in [UnboundLocalError] before any batch is
    visited, and nothing is returned. *)
Theorem train_epoch_without_shuffle (trainset : list (X * Y)) (batch_size : Z)
    (verbose : bool) (w : World Model Rng) :
  Trainer_train_epoch trainset false batch_size verbose w
  = (Raise (UnboundLocalError "batch_dataset"), w).
Proof. reflexivity. Qed.

(** ** fit_lr_decay: order of the calls *)

Lemma on_world_run {A} (m : M (World Model Rng) A) w
    (log : list (event Model Rng X Y)) :
  on_world m (w, log) = ((m w).1, ((m w).2, log)).
Proof. unfold on_world, zoom. simpl. by destruct (m w). Qed.

Lemma invoke_run (c : call X Y) w (log : list (event Model Rng X Y)) :
  invoke c (w, log)
  = ((perform c w).1, ((perform c w).2, log ++ [mkEvent c w])).
Proof. unfold invoke. simpl. by destruct (perform c w). Qed.

(** [early_stopping] reads the world and leaves it as it is. *)
Lemma perform_early_stopping (m : string) (pat : Z) w :
  perform (CallEarlyStopping m pat) w
  = (Trainer_early_stopping (metrics w) m pat, w).
Proof. reflexivity. Qed.

Section Epoch.
Variables (trainset : list (X * Y)) (x_valid : list X) (y_valid : list Y).
Variables (batch_size : Z) (shuffle verbose : bool).
Variables (es_patience : Z) (es_metric lr_metric : string).

Local Abbreviation in_order :=
  (epochs_in_order trainset x_valid y_valid batch_size shuffle verbose
     es_patience es_metric lr_metric).

(** One pass through the loop body: the calls it adds to the record make
    up an epoch, complete when the pass returns, cut short at the
    exception when it raises; a pass that returns False hands the world on
    to the next epoch. *)
Lemma fit_epoch_in_order (epoch : Z) (later : list Z) w
    (log : list (event Model Rng X Y)) r s' :
  fit_epoch epoch trainset x_valid y_valid batch_size shuffle verbose
    es_patience es_metric lr_metric (w, log) = (r, s') →
  ∃ calls,
    s'.2 = log ++ calls
    ∧ match r with
      | OK false =>
          ∀ rest r', in_order later s'.1 rest r' →
                     in_order (epoch :: later) w (calls ++ rest) r'
      | OK true => in_order (epoch :: later) w calls (OK tt)
      | Raise x => in_order (epoch :: later) w calls (Raise x)
      end.
Proof.
  unfold fit_epoch. intros Hrun.
  rewrite bind_run, on_world_run in Hrun.
  unfold stdout_write, modify in Hrun. cbn [fst snd] in Hrun.
  change (set_stdout _ w) with (announced epoch w) in Hrun.
  set (w0 := announced epoch w) in *.
  set (c1 := CallTrainEpoch trainset shuffle batch_size verbose) in *.
  set (c2 := CallEvaluate "valid" x_valid y_valid 128 true) in *.
  set (c4 := CallEarlyStopping es_metric es_patience) in *.
  rewrite bind_run, invoke_run in Hrun. cbn [perform c1] in Hrun.
  destruct (Trainer_train_epoch trainset shuffle batch_size verbose w0)
    as [[a1 | x1] w1] eqn:Hc1; cbn [fst snd] in Hrun.
  2: { injection Hrun as <- <-. exists [mkEvent c1 w0]. split; [done |].
       cbn [epochs_in_order]. cbv zeta. fold w0. rewrite Hc1.
       split; [done |]. by eauto. }
  rewrite bind_run, invoke_run in Hrun. cbn [perform c2] in Hrun.
  destruct (Trainer_evaluate "valid" x_valid y_valid 128 true w1)
    as [[[] | x2] w2] eqn:Hc2; cbn [fst snd] in Hrun.
  2: { injection Hrun as <- <-. exists [mkEvent c1 w0; mkEvent c2 w1].
       split; [by rewrite <- app_assoc |].
       cbn [epochs_in_order]. cbv zeta. fold w0. rewrite Hc1. cbn [fst snd].
       rewrite Hc2.
       split; [done |]. split; [by eauto |]. split; [done |].
       left. by eauto. }
  rewrite bind_run in Hrun. unfold gets at 1 in Hrun. cbn [fst snd] in Hrun.
  rewrite bind_run in Hrun. unfold lift_result at 1, dict_get in Hrun.
  destruct (value (valid (metrics w2)) !! lr_metric) as [h |] eqn:Hh.
  2: { injection Hrun as <- <-. exists [mkEvent c1 w0; mkEvent c2 w1].
       split; [by rewrite <- app_assoc |].
       cbn [epochs_in_order]. cbv zeta. fold w0. rewrite Hc1. cbn [fst snd].
       rewrite Hc2. cbn [fst snd].
       split; [done |]. split; [by eauto |]. split; [done |].
       right. split; [done |]. split; [| by left].
       intros (val & h & Hh' & _). by rewrite Hh in Hh'. }
  rewrite bind_run in Hrun. unfold lift_result at 1, list_last in Hrun.
  destruct (last h) as [val |] eqn:Hlast.
  2: { injection Hrun as <- <-. exists [mkEvent c1 w0; mkEvent c2 w1].
       split; [by rewrite <- app_assoc |].
       cbn [epochs_in_order]. cbv zeta. fold w0. rewrite Hc1. cbn [fst snd].
       rewrite Hc2. cbn [fst snd].
       split; [done |]. split; [by eauto |]. split; [done |].
       right. split; [done |]. split; [| by right].
       intros (val & h' & Hh' & Hlast'). rewrite Hh in Hh'.
       injection Hh' as <-. by rewrite Hlast in Hlast'. }
  assert (latest_valid lr_metric (metrics w2) val) as Hval
    by (unfold latest_valid; eauto).
  set (c3 := CallCheckLrDecay val) in *.
  rewrite bind_run, invoke_run in Hrun. cbn [perform c3] in Hrun.
  destruct (Trainer_check_lr_decay val w2) as [[[] | x3] w3] eqn:Hc3;
    cbn [fst snd] in Hrun.
  2: { injection Hrun as <- <-.
       exists [mkEvent c1 w0; mkEvent c2 w1; mkEvent c3 w2].
       split; [by rewrite <- !app_assoc |].
       cbn [epochs_in_order]. cbv zeta. fold w0. rewrite Hc1. cbn [fst snd].
       rewrite Hc2. cbn [fst snd].
       split; [done |]. split; [by eauto |]. split; [done |].
       split; [done |]. exists val. split; [done |]. split; [done |].
       rewrite Hc3. by eauto. }
  rewrite bind_run, invoke_run in Hrun.
  subst c4. rewrite perform_early_stopping in Hrun. cbn [fst snd] in Hrun.
  set (c4 := CallEarlyStopping es_metric es_patience) in *.
  assert (∀ rest r0,
            match Trainer_early_stopping (metrics w3) es_metric es_patience with
            | Raise x => rest = [] ∧ r0 = Raise x
            | OK true => rest = [] ∧ r0 = OK tt
            | OK false => in_order later w3 rest r0
            end →
            in_order (epoch :: later) w
              ([mkEvent c1 w0; mkEvent c2 w1; mkEvent c3 w2; mkEvent c4 w3]
               ++ rest) r0) as Hepoch.
  { intros rest r0 Hrest.
    cbn [epochs_in_order app]. cbv zeta. fold w0. rewrite Hc1. cbn [fst snd].
    rewrite Hc2. cbn [fst snd].
    split; [done |]. split; [by eauto |]. split; [done |].
    split; [done |]. exists val. split; [done |]. split; [done |].
    rewrite Hc3. cbn [fst snd]. split; [done |]. split; [done |].
    exact Hrest. }
  destruct (Trainer_early_stopping (metrics w3) es_metric es_patience)
    as [[|] | x4] eqn:Hc4; cbn [fst snd] in Hrun.
  - rewrite bind_run, on_world_run in Hrun. unfold print, stdout_write in Hrun.
    unfold modify at 1 in Hrun. cbn [fst snd] in Hrun.
    injection Hrun as <- <-.
    exists [mkEvent c1 w0; mkEvent c2 w1; mkEvent c3 w2; mkEvent c4 w3].
    split; [by rewrite <- !app_assoc |].
    specialize (Hepoch [] (OK tt)). rewrite app_nil_r in Hepoch. by apply Hepoch.
  - injection Hrun as <- <-.
    exists [mkEvent c1 w0; mkEvent c2 w1; mkEvent c3 w2; mkEvent c4 w3].
    split; [by rewrite <- !app_assoc |].
    intros rest r' Hrest. by apply Hepoch.
  - injection Hrun as <- <-.
    exists [mkEvent c1 w0; mkEvent c2 w1; mkEvent c3 w2; mkEvent c4 w3].
    split; [by rewrite <- !app_assoc |].
    specialize (Hepoch [] (Raise x4)). rewrite app_nil_r in Hepoch.
    by apply Hepoch.
Qed.

Lemma fit_loop_in_order (epochs : list Z) w
    (log : list (event Model Rng X Y)) :
  ∃ calls,
    (fit_loop epochs trainset x_valid y_valid batch_size shuffle verbose
       es_patience es_metric lr_metric (w, log)).2.2 = log ++ calls
    ∧ in_order epochs w calls
        (fit_loop epochs trainset x_valid y_valid batch_size shuffle verbose
           es_patience es_metric lr_metric (w, log)).1.
Proof.
  revert w log. induction epochs as [|epoch epochs IH]; intros w log.
  { exists []. by rewrite app_nil_r. }
  cbn [fit_loop]. rewrite bind_run.
  destruct (fit_epoch epoch trainset x_valid y_valid batch_size shuffle verbose
              es_patience es_metric lr_metric (w, log))
    as [r [w1 log1]] eqn:Hepoch.
  apply (fit_epoch_in_order epoch epochs) in Hepoch as (calls & Hlog & Hnext).
  cbn [fst snd] in Hlog, Hnext. subst log1.
  destruct r as [[|] | x]; cbn [fst snd]; [by eauto | | by eauto].
  destruct (IH w1 (log ++ calls)) as (rest & Hrest & Horder).
  exists (calls ++ rest). split; [by rewrite Hrest, app_assoc |].
  by apply Hnext.
Qed.
End Epoch.

(** What [fit_lr_decay] has done when it enters the loop. *)
Lemma fit_lr_decay_run_loop (m : Model) (x_train : list X)
    (y_train : list Y) (validation_data : list X * list Y)
    (num_epochs batch_size : Z) (shuffle verbose : bool) (es_patience : Z)
    (es_metric : string) (lr_decay_rate : Q) (lr_patience : Z)
    (lr_metric : string) w (trainset : list (X * Y)) :
  from_tensor_slices x_train y_train = OK trainset →
  fit_lr_decay m x_train y_train validation_data num_epochs batch_size
    shuffle verbose es_patience es_metric lr_decay_rate lr_patience
    lr_metric (w, [])
  = fit_loop (seqZ 0 num_epochs) trainset validation_data.1 validation_data.2
      batch_size shuffle verbose es_patience es_metric lr_metric
      ((Trainer_set_lr_decay lr_decay_rate lr_patience lr_metric
          (Trainer_init m w).2).2, []).
Proof.
  intros Hset. unfold fit_lr_decay. destruct validation_data as [x_valid y_valid].
  rewrite bind_run. unfold lift_result at 1. by rewrite Hset.
Qed.

Lemma fit_lr_decay_no_trainset (m : Model) (x_train : list X)
    (y_train : list Y) (validation_data : list X * list Y)
    (num_epochs batch_size : Z) (shuffle verbose : bool) (es_patience : Z)
    (es_metric : string) (lr_decay_rate : Q) (lr_patience : Z)
    (lr_metric : string) w (x : exception) :
  from_tensor_slices x_train y_train = Raise x →
  fit_lr_decay m x_train y_train validation_data num_epochs batch_size
    shuffle verbose es_patience es_metric lr_decay_rate lr_patience
    lr_metric (w, [])
  = (Raise x, (w, [])).
Proof.
  intros Hset. unfold fit_lr_decay. destruct validation_data as [x_valid y_valid].
  rewrite bind_run. unfold lift_result at 1. by rewrite Hset.
Qed.

End TrainerFacts.

(** * The definitions at work on concrete inputs *)

(** With shuffling on (here: a shuffle that keeps the order) an epoch over
    four samples in batches of two returns four predictions, in the order
    of the batches. *)
Example train_epoch_shuffled_run :
  (λ r, (r.1.2, r.2))
    <$> (match (@Trainer_train_epoch nat unit Z Z Z demo_printf demo_clock
                  demo_keras demo_tfdata demo_trainset true 2 false
                  demo_world).1 with
         | OK r => Some r
         | Raise _ => None
         end)
  = Some ([1; 2; 3; 4], [5; 6; 7; 8]).
Proof. vm_compute. reflexivity. Qed.

(** The same call with shuffling off. *)
Example train_epoch_unshuffled_run :
  (@Trainer_train_epoch nat unit Z Z Z demo_printf demo_clock demo_keras
     demo_tfdata demo_trainset false 2 false demo_world).1
  = Raise (UnboundLocalError "batch_dataset").
Proof. reflexivity. Qed.

(** A run of [fit_lr_decay] on a model whose validation "auroc" never
    moves: with an early-stopping patience of 2, three epochs are run and
    the loop is left after the third. *)
Example fit_lr_decay_run :
  (λ e, call_kind (made e))
    <$> (@fit_lr_decay nat unit Z Z Z demo_numpy demo_printf demo_clock
           demo_keras demo_tfdata 0%nat [1; 2; 3; 4] [5; 6; 7; 8]
           demo_validation 10 2 true false 2 "auroc" (3 # 10)%Q 3 "auroc"
           (demo_world, [])).2.2
  = [ "train_epoch"; "evaluate valid"; "check_lr_decay"; "early_stopping";
      "train_epoch"; "evaluate valid"; "check_lr_decay"; "early_stopping";
      "train_epoch"; "evaluate valid"; "check_lr_decay"; "early_stopping" ].
Proof. vm_compute. reflexivity. Qed.

(** ** Instances of the theorems *)

Lemma TrainMetrics_update_unknown_split_witness :
  @TrainMetrics_update demo_numpy "dev" [("loss", [(1 # 2)%Q])]
    (TrainMetrics_init ["loss"; "auroc"])
  = (OK tt, TrainMetrics_init ["loss"; "auroc"]).
Proof.
  apply (@TrainMetrics_update_unknown_split demo_numpy "dev"); discriminate.
Defined.

Lemma LRDecay_initial_best_val_witness :
  best_val (LRDecay_init (mkOptimizer (1 # 1000)%Q) (3 # 10)%Q 3 "auroc")
  = (- ten_billion)%Q
  ∧ (LRDecay_status (1 # 2)%Q
       (LRDecay_init (mkOptimizer (1 # 1000)%Q) (3 # 10)%Q 3 "loss")).1
    = OK false.
Proof.
  destruct (LRDecay_initial_best_val (mkOptimizer (1 # 1000)%Q) (3 # 10)%Q 3)
    as (_ & Hother & Himproves & _).
  split.
  - apply Hother. discriminate.
  - rewrite (Himproves "loss" (1 # 2)%Q); reflexivity.
Defined.

(** C4, as stated, fails: the initial best value for "loss" is not above
    every finite value. A first loss of [2e10] does not count as an
    improvement: the sentinel stays and the counter is incremented. *)
Lemma LRDecay_initial_best_val_finite :
  ¬ (inject_Z 20000000000 < best_val
       (LRDecay_init (mkOptimizer (1 # 1000)%Q) (3 # 10)%Q 3 "loss"))%Q
  ∧ LRDecay_status (inject_Z 20000000000)
      (LRDecay_init (mkOptimizer (1 # 1000)%Q) (3 # 10)%Q 3 "loss")
    = (OK false,
       set_index 1 (LRDecay_init (mkOptimizer (1 # 1000)%Q) (3 # 10)%Q 3 "loss")).
Proof. split; [by vm_compute | reflexivity]. Qed.

Lemma LRDecay_constant_sequence_witness :
  @LRDecay_decays nat unit demo_printf 2 demo_world (3 # 10)%Q 2 "loss"
    (replicate 5 (1 # 2)%Q).
Proof.
  apply (@LRDecay_constant_sequence nat unit demo_printf demo_world
           (3 # 10)%Q 2 "loss" (1 # 2)%Q 5).
  lia.
Defined.

(** C2, as stated, fails: a fresh record with patience 1 fed the constant
    sequence of length 1 does not decay floor(1/1) = 1 time; the first
    value improves on the sentinel and the learning rate is untouched. *)
Lemma LRDecay_constant_sequence_off_by_one :
  ¬ @LRDecay_decays nat unit demo_printf (Z.to_nat (1 / 1)) demo_world
      (3 # 10)%Q 1 "loss" (replicate 1 (1 # 2)%Q).
Proof.
  intros (self' & w' & Hrun & Hlr & _).
  vm_compute in Hrun. injection Hrun as <- <-.
  vm_compute in Hlr. discriminate Hlr.
Qed.

Lemma early_stopping_spec_witness :
  Trainer_early_stopping
    (demo_history {["auroc" := [Num (1 # 2); Num (3 # 5); Num (11 # 20)]]})
    "auroc" 1
  = OK true
  ∧ ∃ i, best_index "loss" [(9 # 10)%Q; (4 # 5)%Q; (19 # 20)%Q; (1 # 1)%Q] i
         ∧ Trainer_early_stopping
             (demo_history
                {["loss" := Num <$> [(9 # 10)%Q; (4 # 5)%Q; (19 # 20)%Q;
                                     (1 # 1)%Q]]})
             "loss" 1
           = OK (bool_decide (1 - Z.of_nat (4 - i - 1) ≤ 0)).
Proof.
  destruct early_stopping_spec as (Hgeneral & _ & _ & Hauroc & _). split.
  - apply Hauroc. reflexivity.
  - destruct (Hgeneral
                (demo_history
                   {["loss" := Num <$> [(9 # 10)%Q; (4 # 5)%Q; (19 # 20)%Q;
                                        (1 # 1)%Q]]})
                "loss" 1 [(9 # 10)%Q; (4 # 5)%Q; (19 # 20)%Q; (1 # 1)%Q])
      as (i & Hbest & Hi & _ & Hstop).
    + reflexivity.
    + discriminate.
    + vm_compute. discriminate.
    + split; vm_compute; discriminate.
    + exists i. split; [exact Hbest |]. apply Hstop.
      simpl length in *. unfold int64_min. lia.
Defined.

(** A NaN in the history takes the place of the best entry: on the "loss"
    history 0.5, NaN, 0.3 the least entry is the last one, no entry was
    recorded after it, and yet a patience of 1 has run out; and a patience
    beyond the int64 range gives no answer at all. *)
Lemma early_stopping_nan_or_overflow :
  earliest_min [(1 # 2)%Q; (3 # 10)%Q] 1
  ∧ Trainer_early_stopping
      (demo_history {["loss" := [Num (1 # 2); NaN; Num (3 # 10)]]}) "loss" 1
    = OK true
  ∧ Trainer_early_stopping
      (demo_history {["auroc" := [Num (1 # 2); Num (3 # 5)]]}) "auroc" (2 ^ 70)
    = Raise OverflowError.
Proof.
  split; [| split; reflexivity].
  exists (3 # 10)%Q. split; [done |]. split.
  - intros [|[|j]] x Hx; simpl in Hx; [| | by rewrite lookup_nil in Hx];
      injection Hx as <-; by vm_compute.
  - intros [|j] x Hj Hx; [| lia]. simpl in Hx. injection Hx as <-. by vm_compute.
Qed.

Lemma MonitorMetrics_history_lengths_witness :
  (for_each demo_calls (@MonitorMetrics_update demo_numpy)
     (MonitorMetrics_init ["loss"; "auroc"])).1 = OK tt
  ∧ ∀ final,
      for_each demo_calls (@MonitorMetrics_update demo_numpy)
        (MonitorMetrics_init ["loss"; "auroc"]) = (OK tt, final) →
      ∃ h, value final !! "loss" = Some h ∧ length h = 2%nat.
Proof.
  assert (Forall (λ kw : kwargs (list Q), NoDup (kw_keys kw)) demo_calls)
    as Hdistinct.
  { repeat constructor; vm_compute; intros Hin;
      repeat (inversion_clear Hin as [| ? ? ? Hin']; rename Hin' into Hin). }
  destruct (@MonitorMetrics_history_lengths demo_numpy ["loss"; "auroc"]
              demo_calls Hdistinct) as [Hcompletes Hfinal].
  split; [reflexivity |].
  intros final Hrun. destruct (Hfinal final Hrun) as [Hlength _].
  apply (Hlength "loss"). injection Hrun as <-. split.
  - unfold recognized. apply list_elem_of_here.
  - vm_compute. eauto.
Defined.

(** A call that raises leaves the count behind: [update(bogus=...,
    loss=...)] on a fresh store raises at "bogus", before "loss" is
    reached, so the history of "loss" is still empty although one call
    has named it. *)
Lemma MonitorMetrics_history_lengths_failed_call :
  (@MonitorMetrics_update demo_numpy
     [("bogus", [(1 # 2)%Q]); ("loss", [(2 # 5)%Q])]
     (MonitorMetrics_init ["loss"; "auroc"])).1
  = Raise (KeyError "bogus")
  ∧ history (@MonitorMetrics_update demo_numpy
               [("bogus", [(1 # 2)%Q]); ("loss", [(2 # 5)%Q])]
               (MonitorMetrics_init ["loss"; "auroc"])).2 "loss"
    = []
  ∧ calls_naming "loss" [[("bogus", [(1 # 2)%Q]); ("loss", [(2 # 5)%Q])]]
    = 1%nat.
Proof. split; [| split]; vm_compute; reflexivity. Qed.

Lemma MonitorMetrics_update_unknown_metric_witness :
  ∃ k, (@MonitorMetrics_update demo_numpy [("acc", [(1 # 2)%Q])]
          (@MonitorMetrics_after demo_numpy demo_calls
             (MonitorMetrics_init ["loss"; "auroc"]))).1
       = Raise (KeyError k).
Proof.
  destruct (@MonitorMetrics_update_unknown_metric demo_numpy ["loss"; "auroc"]
              demo_calls [("acc", [(1 # 2)%Q])] "acc"
              (TrainMetrics_init ["loss"; "auroc"]))
    as (k & Hk & _).
  - reflexivity.
  - apply list_elem_of_here.
  - exists k. exact Hk.
Defined.

Lemma MonitorMetrics_unrecognized_declared_witness :
  value (MonitorMetrics_init ["loss"; "accuracy"])
  = value (MonitorMetrics_init (filter (λ n, n ≠ "accuracy") ["loss"; "accuracy"]))
  ∧ ∃ k, (@MonitorMetrics_update demo_numpy [("accuracy", [(1 # 2)%Q])]
            (@MonitorMetrics_after demo_numpy []
               (MonitorMetrics_init ["loss"; "accuracy"]))).1
         = Raise (KeyError k).
Proof.
  destruct (@MonitorMetrics_unrecognized_declared demo_numpy
              ["loss"; "accuracy"] "accuracy" [] [("accuracy", [(1 # 2)%Q])])
    as (Hsame & _ & Hraises).
  - apply list_elem_of_further, list_elem_of_here.
  - unfold recognized. intros Hin.
    repeat (inversion_clear Hin as [| ? ? ? Hin']; rename Hin' into Hin).
  - split; [exact Hsame |]. apply Hraises, list_elem_of_here.
Defined.

(** C10, as stated, fails in one corner: declared next to "acc", the
    unrecognized name "acc_std" does find a history under its name, the
    derived series of "acc". *)
Lemma MonitorMetrics_declared_std_name :
  "acc_std" ∈ ["acc"; "acc_std"]
  ∧ ("acc_std" ∉ recognized)
  ∧ value (MonitorMetrics_init ["acc"; "acc_std"]) !! "acc_std" = Some [].
Proof.
  split; [apply list_elem_of_further, list_elem_of_here |].
  split; [| reflexivity].
  unfold recognized. intros Hin.
  repeat (inversion_clear Hin as [| ? ? ? Hin']; rename Hin' into Hin).
Qed.

Lemma demo_printf_one_line (digits : nat) (q : Q) :
  has_LF (@fmt_float demo_printf digits q) = false.
Proof.
  simpl. rewrite has_LF_app. by rewrite has_LF_str_mul.
Defined.

Lemma progress_bar_output_witness :
  ∃ text,
    @progress_bar nat unit demo_printf demo_clock 2 4 0%Q 30 [("loss", (1 # 2)%Q)]
      demo_world
    = (OK tt, set_stdout [text] (set_ticks 1%nat demo_world))
    ∧ has_LF text = false.
Proof.
  destruct (@progress_bar_output nat unit demo_printf demo_clock
              demo_printf_one_line 2 4 0%Q 30 [("loss", (1 # 2)%Q)] demo_world)
    as [_ Hrunning]; [lia |].
  destruct Hrunning as (text & Hrun & Hline & _); [lia | lia |].
  exists text. split; [exact Hrun | exact Hline].
Defined.

(** C9, as stated, fails: a call with zero batches in total (index 0 of 0)
    raises [ZeroDivisionError] and writes nothing; and so does, after
    reading the clock, a call whose index is -1. *)
Lemma progress_bar_zero_division :
  @progress_bar nat unit demo_printf demo_clock 0 0 0%Q 30 [] demo_world
  = (Raise ZeroDivisionError, demo_world)
  ∧ (¬ ∃ w', @progress_bar nat unit demo_printf demo_clock 0 0 0%Q 30 []
               demo_world = (OK tt, w'))
  ∧ @progress_bar nat unit demo_printf demo_clock (-1) 4 0%Q 30 [] demo_world
    = (Raise ZeroDivisionError, set_ticks 1%nat demo_world).
Proof.
  split; [reflexivity |]. split; [| reflexivity].
  intros [w' Hrun]. discriminate Hrun.
Qed.


(** * Further properties *)

(** ** LRDecay: the counter, improving metrics, and how often it decays *)

(** A NaN never counts as an improvement. *)
Lemma LRDecay_status_nan (self : LRDecay) :
  LRDecay_status NaN self
  = if decide (index self + 1 = patience self)
    then (OK true, set_index 0 (set_index (index self + 1) self))
    else (OK false, set_index (index self + 1) self).
Proof.
  unfold LRDecay_status, mbind, M_bind, bind, get; simpl. by case_decide.
Qed.

(** [status] keeps the non-improvement counter within [0, patience): a
    record whose counter is in range comes out with its counter in range,
    whatever the value, NaN included; its configuration and learning rate
    are not touched, and a True answer leaves the counter at 0 and the
    best value as it was. *)
Theorem LRDecay_status_counter_in_range (self : LRDecay) (val : pyfloat) :
  0 ≤ index self < patience self →
  0 ≤ index (LRDecay_status val self).2 < patience self
  ∧ patience (LRDecay_status val self).2 = patience self
  ∧ decay_rate (LRDecay_status val self).2 = decay_rate self
  ∧ sign (LRDecay_status val self).2 = sign self
  ∧ lr (LRDecay_status val self).2 = lr self
  ∧ ((LRDecay_status val self).1 = OK true →
     index (LRDecay_status val self).2 = 0
     ∧ best_val (LRDecay_status val self).2 = best_val self).
Proof.
  intros Hi. destruct val as [val |].
  - destruct (Qltb (inject_Z (sign self) * val)%Q
                   (inject_Z (sign self) * best_val self)%Q) eqn:Htest.
    + rewrite LRDecay_status_improves by done. simpl.
      split_and!; try done; lia.
    + rewrite LRDecay_status_stalls by done.
      destruct (decide (index self + 1 = patience self)); simpl;
        split_and!; try done; lia.
  - rewrite LRDecay_status_nan.
    destruct (decide (index self + 1 = patience self)); simpl;
      split_and!; try done; lia.
Qed.

Lemma LRDecay_status_counter_in_range_witness :
  index (LRDecay_status (1 # 2)%Q
           (mkLRDecay (1 # 1000)%Q (3 # 10)%Q 3 "loss" 2 (2 # 5)%Q 1)).2 = 0.
Proof.
  destruct (LRDecay_status_counter_in_range
              (mkLRDecay (1 # 1000)%Q (3 # 10)%Q 3 "loss" 2 (2 # 5)%Q 1)
              (1 # 2)%Q) as (_ & _ & _ & _ & _ & Hfired).
  - simpl. lia.
  - apply Hfired. reflexivity.
Defined.

Section LRDecayMore.
Context {Model Rng : Type} `{Printf}.
Implicit Type w : World Model Rng.

Lemma improving_test (m : string) (self : LRDecay) (val : Q) :
  (m = "loss" ∧ sign self = 1) ∨ (m ≠ "loss" ∧ sign self = -1) →
  (if decide (m = "loss") then (val < best_val self)%Q
   else (best_val self < val)%Q) →
  Qltb (inject_Z (sign self) * val)%Q (inject_Z (sign self) * best_val self)%Q
  = true.
Proof.
  intros [[Hm Hs] | [Hm Hs]] Hval; rewrite Hs.
  - rewrite decide_True in Hval by done. rewrite Qltb_sign_pos. by apply Qltb_lt.
  - rewrite decide_False in Hval by done. rewrite Qltb_sign_neg. by apply Qltb_lt.
Qed.

Lemma LRDecay_feed_improving (m : string) (vals : list Q) (self : LRDecay) w :
  (m = "loss" ∧ sign self = 1) ∨ (m ≠ "loss" ∧ sign self = -1) →
  improving m (best_val self) vals →
  ∃ self',
    LRDecay_feed self vals w = (OK self', w)
    ∧ lr self' = lr self
    ∧ index self' = (if vals is [] then index self else 0)
    ∧ best_val self' = default (best_val self) (last vals).
Proof.
  revert self. induction vals as [|val vals IH]; intros self Hsign Himp.
  { exists self. done. }
  destruct Himp as [Hval Himp]. simpl. unfold mbind, M_bind, bind.
  rewrite LRDecay_check_improves by by eapply improving_test.
  destruct (IH (set_index 0 (set_best_val val self))) as (self' & -> & Hlr & Hi & Hb);
    [done | done |].
  exists self'. split; [done |]. split; [done |]. split.
  - rewrite Hi. destruct vals; reflexivity.
  - rewrite Hb. destruct vals as [|v vals]; [reflexivity |].
    rewrite (last_cons val), !(last_cons v). by destruct (last vals).
Qed.

(** A metric that improves at every call never triggers a decay: fed to a
    freshly initialised record, a sequence of values each better than the
    one before (and the first better than the initial sentinel) leaves the
    learning rate, the optimizer and the console untouched; the counter
    ends at 0 and the best value is the last value. *)
Theorem LRDecay_improving_never_decays (w : World Model Rng) (rate : Q)
    (pat : Z) (m : string) (vals : list Q) :
  improving m (best_val (LRDecay_init (optimizer w) rate pat m)) vals →
  ∃ self',
    LRDecay_feed (LRDecay_init (optimizer w) rate pat m) vals w = (OK self', w)
    ∧ lr self' = learning_rate (optimizer w)
    ∧ index self' = 0
    ∧ best_val self'
      = default (best_val (LRDecay_init (optimizer w) rate pat m)) (last vals).
Proof.
  intros Himp.
  destruct (LRDecay_feed_improving m vals (LRDecay_init (optimizer w) rate pat m) w)
    as (self' & Hrun & Hlr & Hi & Hb); [| done |].
  { destruct (decide (m = "loss")) as [-> | Hm].
    - left. by rewrite LRDecay_init_loss.
    - right. by rewrite LRDecay_init_other. }
  exists self'. split; [done |]. split; [| split; [| done]].
  - rewrite Hlr. unfold LRDecay_init, LRDecay_initialize. by case_decide.
  - rewrite Hi. destruct vals; [| done].
    unfold LRDecay_init, LRDecay_initialize. by case_decide.
Qed.

(** From any state with the counter in range, [n] calls fire at most
    floor((index + n) / patience) decays. *)
Lemma LRDecay_feed_bound (vals : list Q) (self : LRDecay) w :
  0 ≤ index self < patience self →
  learning_rate (optimizer w) = lr self →
  ∃ (k : nat) self' w',
    LRDecay_feed self vals w = (OK self', w')
    ∧ Z.of_nat k ≤ (index self + Z.of_nat (length vals)) / patience self
    ∧ lr self' = Nat.iter k (λ l, (l * decay_rate self)%Q) (lr self)
    ∧ learning_rate (optimizer w') = lr self'
    ∧ length (stdout w') = (length (stdout w) + k)%nat.
Proof.
  revert self w. induction vals as [|val vals IH]; intros self w Hi Hopt.
  { exists 0%nat, self, w. simpl. split_and!; try done; try lia.
    rewrite Z.add_0_r. apply Z.div_pos; lia. }
  simpl length. simpl LRDecay_feed. unfold mbind, M_bind, bind.
  assert (∀ i, 0 ≤ i →
            i + Z.of_nat (length vals) ≤ index self + Z.of_nat (S (length vals)) →
            (i + Z.of_nat (length vals)) / patience self
            ≤ (index self + Z.of_nat (S (length vals))) / patience self) as Hmono.
  { intros i Hi0 Hle. apply Z.div_le_mono; lia. }
  destruct (Qltb (inject_Z (sign self) * val)%Q
                 (inject_Z (sign self) * best_val self)%Q) eqn:Htest.
  - rewrite LRDecay_check_improves by done.
    destruct (IH (set_index 0 (set_best_val val self)) w)
      as (k & self' & w' & Hrun & Hk & Hlr & Hopt' & Hout);
      [simpl; lia | done |].
    exists k, self', w'. split; [done |]. simpl in *.
    split; [| done]. etrans; [exact Hk |]. apply Hmono; lia.
  - destruct (decide (index self + 1 = patience self)) as [Hfire | Hwait].
    + rewrite LRDecay_check_fires by done.
      set (self1 := set_lr _ _). set (w1 := set_stdout _ _).
      destruct (IH self1 w1)
        as (k & self' & w' & Hrun & Hk & Hlr & Hopt' & Hout);
        [simpl; lia | done |].
      exists (S k), self', w'. split; [done |]. split_and!.
      * subst self1. simpl in Hk. rewrite Z.add_0_l in Hk.
        replace (index self + Z.of_nat (S (length vals)))
          with (Z.of_nat (length vals) + 1 * patience self) by lia.
        rewrite Z.div_add by lia. lia.
      * rewrite Hlr, Nat.iter_succ_r. done.
      * done.
      * rewrite Hout. subst w1. simpl. rewrite length_app. simpl. lia.
    + rewrite LRDecay_check_waits by done.
      destruct (IH (set_index (index self + 1) self) w)
        as (k & self' & w' & Hrun & Hk & Hlr & Hopt' & Hout);
        [simpl; lia | done |].
      exists k, self', w'. split; [done |]. simpl in *.
      split; [| done]. etrans; [exact Hk |]. apply Z.div_le_mono; lia.
Qed.

(** Whatever the values, a freshly initialised record with patience at
    least 1 never fails and decays at most once per [patience] calls: after
    [n] calls the learning rate has been multiplied by the decay rate [k]
    times for some [k <= floor(n / patience)], the optimizer holds the
    same rate as the record, and one notice was printed per decay. *)
Theorem LRDecay_decay_count_bound (w : World Model Rng) (rate : Q) (pat : Z)
    (m : string) (vals : list Q) :
  1 ≤ pat →
  ∃ k : nat,
    Z.of_nat k ≤ Z.of_nat (length vals) / pat
    ∧ LRDecay_decays k w rate pat m vals.
Proof.
  intros Hpat. unfold LRDecay_decays.
  set (fresh := LRDecay_init (optimizer w) rate pat m).
  assert (lr fresh = learning_rate (optimizer w)
          ∧ decay_rate fresh = rate ∧ patience fresh = pat
          ∧ index fresh = 0) as (Hlr0 & Hrate & Hp & Hi).
  { subst fresh. unfold LRDecay_init, LRDecay_initialize. by case_decide. }
  destruct (LRDecay_feed_bound vals fresh w)
    as (k & self' & w' & Hrun & Hk & Hlr & Hopt & Hout); [lia | done |].
  rewrite Hrate, Hp, Hi, Hlr0, Z.add_0_l in *.
  exists k. split; [done |]. exists self', w'. done.
Qed.
End LRDecayMore.

Lemma LRDecay_improving_never_decays_witness :
  ∃ self',
    @LRDecay_feed nat unit demo_printf
      (LRDecay_init (optimizer demo_world) (3 # 10)%Q 1 "loss")
      [(9 # 10)%Q; (4 # 5)%Q; (7 # 10)%Q] demo_world
    = (OK self', demo_world)
    ∧ lr self' = (1 # 1000)%Q.
Proof.
  destruct (@LRDecay_improving_never_decays nat unit demo_printf demo_world
              (3 # 10)%Q 1 "loss" [(9 # 10)%Q; (4 # 5)%Q; (7 # 10)%Q])
    as (self' & Hrun & Hlr & _).
  - simpl. repeat split; reflexivity.
  - exists self'. split; [exact Hrun | exact Hlr].
Defined.

Lemma LRDecay_decay_count_bound_witness :
  ∃ k : nat,
    Z.of_nat k ≤ 2
    ∧ @LRDecay_decays nat unit demo_printf k demo_world (3 # 10)%Q 2 "loss"
        [(1 # 2)%Q; (3 # 5)%Q; (2 # 5)%Q; (1 # 2)%Q; (1 # 2)%Q].
Proof.
  destruct (@LRDecay_decay_count_bound nat unit demo_printf demo_world
              (3 # 10)%Q 2 "loss"
              [(1 # 2)%Q; (3 # 5)%Q; (2 # 5)%Q; (1 # 2)%Q; (1 # 2)%Q])
    as (k & Hk & Hdecays); [lia |].
  exists k. split; [exact Hk | exact Hdecays].
Defined.


(** ** Early stopping: errors, bounds in the patience, a new best *)

Lemma arg_scan_bound (better : pyfloat → pyfloat → bool) (best : pyfloat)
    (bi i : nat) (l : list pyfloat) :
  (bi < i)%nat → (arg_scan better best bi i l < i + length l)%nat.
Proof.
  revert best bi i. induction l as [|x l IH]; intros best bi i Hbi.
  { simpl. lia. }
  cbn [arg_scan length]. destruct (is_nan best); [lia |].
  destruct (better x best).
  - specialize (IH x i (S i)). lia.
  - specialize (IH best bi (S i)). lia.
Qed.

(** On any non-empty history, NaN entries or not, argmin and argmax give
    an index of the history. *)
Lemma np_arg_bound (m : string) (vals : list pyfloat) :
  vals ≠ [] →
  ∃ i : nat,
    (if decide (m = "loss") then np_argmin vals else np_argmax vals) = OK i
    ∧ (i < length vals)%nat.
Proof.
  destruct vals as [|v vals]; [done |]. intros _.
  unfold np_argmin, np_argmax, arg_best.
  case_decide; eexists; (split; [reflexivity |]);
    match goal with
    | |- context [arg_scan ?f ?b ?bi ?i ?l] =>
        pose proof (arg_scan_bound f b bi i l)
    end; simpl; lia.
Qed.

Lemma early_stopping_any (tm : TrainMetrics) (m : string) (pat : Z)
    (vals : list pyfloat) :
  value (valid tm) !! m = Some vals → vals ≠ [] →
  Z.of_nat (length vals) ≤ int64_max →
  ∃ i : nat,
    (i < length vals)%nat
    ∧ Trainer_early_stopping tm m pat
      = if decide (int64_min ≤ pat ≤ int64_max)
        then OK (bool_decide
                   (int64_wrap (pat - Z.of_nat (length vals - i - 1)) ≤ 0))
        else Raise OverflowError.
Proof.
  intros Hvals Hne Hlen.
  destruct (np_arg_bound m vals Hne) as (i & Hi & Hlt).
  exists i. split; [done |]. by apply early_stopping_run.
Qed.

(** [early_stopping] reads the validation split only and fails in three
    ways: a metric without a validation history raises a key lookup error
    naming it, an empty history (no evaluation yet) raises the value error
    of argmin/argmax on an empty sequence, and on a non-empty history a
    patience outside the int64 range raises an overflow error; on a
    non-empty history and with a patience in that range it returns a
    boolean, whatever the entries. *)
Theorem early_stopping_outcomes (tm : TrainMetrics) (m : string) (pat : Z) :
  match value (valid tm) !! m with
  | None => Trainer_early_stopping tm m pat = Raise (KeyError m)
  | Some [] => Trainer_early_stopping tm m pat = Raise ValueError
  | Some (v :: vals) =>
      Z.of_nat (length (v :: vals)) ≤ int64_max →
      if decide (int64_min ≤ pat ≤ int64_max)
      then ∃ stop : bool, Trainer_early_stopping tm m pat = OK stop
      else Trainer_early_stopping tm m pat = Raise OverflowError
  end.
Proof.
  destruct (value (valid tm) !! m) as [[|v vals] |] eqn:Hvals.
  - unfold Trainer_early_stopping, dict_get. rewrite Hvals. by case_decide.
  - intros Hlen.
    destruct (early_stopping_any tm m pat (v :: vals)) as (i & _ & ->);
      [done | done | done |].
    case_decide; eauto.
  - unfold Trainer_early_stopping, dict_get. by rewrite Hvals.
Qed.

(** Bounds in the patience: on a non-empty history a patience of zero or
    less always stops, unless it lies so close to the bottom of the int64
    range that the subtraction wraps around; and a patience at least as
    large as the number of recorded epochs (and within int64) never
    stops. *)
Theorem early_stopping_patience_bounds (tm : TrainMetrics) (m : string)
    (pat : Z) (vals : list pyfloat) :
  value (valid tm) !! m = Some vals → vals ≠ [] →
  Z.of_nat (length vals) ≤ int64_max →
  (int64_min + Z.of_nat (length vals) ≤ pat → pat ≤ 0 →
   Trainer_early_stopping tm m pat = OK true)
  ∧ (Z.of_nat (length vals) ≤ pat → pat ≤ int64_max →
     Trainer_early_stopping tm m pat = OK false).
Proof.
  intros Hvals Hne Hlen.
  destruct (early_stopping_any tm m pat vals) as (i & Hi & ->);
    [done | done | done |].
  split; intros Hlow Hhigh.
  - rewrite decide_True by (unfold int64_max; lia).
    rewrite int64_wrap_id by (unfold int64_max; lia).
    rewrite bool_decide_eq_true_2; [done | lia].
  - rewrite decide_True by (unfold int64_min; lia).
    rewrite int64_wrap_id by (unfold int64_min; lia).
    rewrite bool_decide_eq_false_2; [done | lia].
Qed.

(** The answer is monotone in the patience: if a patience stops on a
    history, every smaller patience stops on it too, down to where the
    subtraction would leave the int64 range. *)
Theorem early_stopping_monotone (tm : TrainMetrics) (m : string)
    (pat pat' : Z) (vals : list pyfloat) :
  value (valid tm) !! m = Some vals →
  Z.of_nat (length vals) ≤ int64_max →
  int64_min + Z.of_nat (length vals) ≤ pat' → pat' ≤ pat →
  Trainer_early_stopping tm m pat = OK true →
  Trainer_early_stopping tm m pat' = OK true.
Proof.
  intros Hvals Hlen Hlow Hle.
  destruct vals as [|v vals].
  { unfold Trainer_early_stopping, dict_get. rewrite Hvals. by case_decide. }
  destruct (np_arg_bound m (v :: vals)) as (i & Hi & Hlt); [done |].
  rewrite !(early_stopping_run tm m _ (v :: vals) i) by done.
  destruct (decide (int64_min ≤ pat ≤ int64_max)) as [Hpat |]; [| done].
  rewrite decide_True by (unfold int64_min, int64_max in *; lia).
  rewrite (int64_wrap_id (pat - _))
    by (unfold int64_min, int64_max in *; lia).
  rewrite (int64_wrap_id (pat' - _))
    by (unfold int64_min, int64_max in *; lia).
  intros [= Hstop%bool_decide_eq_true].
  rewrite bool_decide_eq_true_2; [done | simpl length in *; lia].
Qed.

(** A new best resets the clock: when the latest validation value is
    strictly better than every earlier one (lower for "loss", higher
    otherwise), no patience of 1 or more, within int64, stops. *)
Theorem early_stopping_new_best (tm : TrainMetrics) (m : string) (pat : Z)
    (earlier : list Q) (latest : Q) :
  value (valid tm) !! m = Some (Num <$> earlier ++ [latest]) →
  Forall (λ v, if decide (m = "loss") then (latest < v)%Q else (v < latest)%Q)
    earlier →
  Z.of_nat (length (earlier ++ [latest])) ≤ int64_max →
  1 ≤ pat → pat ≤ int64_max →
  Trainer_early_stopping tm m pat = OK false.
Proof.
  intros Hvals Hbetter Hlen Hpat Hmax.
  destruct (early_stopping_elapsed tm m pat (earlier ++ [latest]))
    as (i & Hbest & Hi & ->); [done | by destruct earlier | done |].
  rewrite length_app in *. simpl in *.
  assert (i = length earlier) as ->.
  { destruct (decide (i < length earlier)%nat) as [Hlt | ?]; [| lia].
    exfalso. unfold best_index in Hbest.
    destruct (lookup_lt_is_Some_2 earlier i Hlt) as [v Hv].
    rewrite Forall_forall in Hbetter.
    pose proof (Hbetter v (list_elem_of_lookup_2 _ _ _ Hv)) as Hv'.
    destruct (decide (m = "loss")); destruct Hbest as (b & Hb & Hall & _);
      rewrite lookup_app_l in Hb by done; simplify_eq;
      specialize (Hall (length earlier) latest);
      rewrite lookup_app_r, Nat.sub_diag in Hall by lia;
      specialize (Hall eq_refl).
    - by apply Qlt_not_le in Hv'.
    - by apply Qlt_not_le in Hv'. }
  rewrite decide_True by (unfold int64_min; lia).
  rewrite int64_wrap_id by (unfold int64_min; lia).
  rewrite bool_decide_eq_false_2; [done | lia].
Qed.

Lemma early_stopping_outcomes_witness :
  ∃ stop : bool,
    Trainer_early_stopping
      (demo_history {["auroc" := [Num (1 # 2); NaN; Num (11 # 20)]]}) "auroc" 1
    = OK stop.
Proof.
  pose proof (early_stopping_outcomes
                (demo_history {["auroc" := [Num (1 # 2); NaN; Num (11 # 20)]]})
                "auroc" 1) as Hcases.
  assert (value (valid (demo_history
                          {["auroc" := [Num (1 # 2); NaN; Num (11 # 20)]]}))
          !! "auroc" = Some [Num (1 # 2); NaN; Num (11 # 20)]) as Hvals
    by reflexivity.
  rewrite Hvals in Hcases.
  rewrite decide_True in Hcases by (split; vm_compute; discriminate).
  apply Hcases. vm_compute. discriminate.
Defined.

Lemma early_stopping_patience_bounds_witness :
  Trainer_early_stopping
    (demo_history {["auroc" := [Num (1 # 2); Num (3 # 5); Num (11 # 20)]]})
    "auroc" 0
  = OK true
  ∧ Trainer_early_stopping
      (demo_history {["auroc" := [Num (1 # 2); Num (3 # 5); Num (11 # 20)]]})
      "auroc" 3
    = OK false.
Proof.
  destruct (early_stopping_patience_bounds
              (demo_history
                 {["auroc" := [Num (1 # 2); Num (3 # 5); Num (11 # 20)]]})
              "auroc" 0 [Num (1 # 2); Num (3 # 5); Num (11 # 20)])
    as [Hstop _]; [reflexivity | discriminate | vm_compute; discriminate |].
  destruct (early_stopping_patience_bounds
              (demo_history
                 {["auroc" := [Num (1 # 2); Num (3 # 5); Num (11 # 20)]]})
              "auroc" 3 [Num (1 # 2); Num (3 # 5); Num (11 # 20)])
    as [_ Hgo]; [reflexivity | discriminate | vm_compute; discriminate |].
  split.
  - apply Hstop; [vm_compute; discriminate | lia].
  - apply Hgo; [simpl; lia | vm_compute; discriminate].
Defined.

Lemma early_stopping_monotone_witness :
  Trainer_early_stopping
    (demo_history
       {["loss" := [Num (9 # 10); Num (4 # 5); Num (19 # 20); Num (1 # 1)]]})
    "loss" 1
  = OK true.
Proof.
  apply (early_stopping_monotone _ "loss" 2 1
           [Num (9 # 10); Num (4 # 5); Num (19 # 20); Num (1 # 1)]).
  - reflexivity.
  - vm_compute. discriminate.
  - vm_compute. discriminate.
  - lia.
  - reflexivity.
Defined.

Lemma early_stopping_new_best_witness :
  Trainer_early_stopping
    (demo_history
       {["auroc" := Num <$> [(1 # 2)%Q; (11 # 20)%Q] ++ [(3 # 5)%Q]]})
    "auroc" 1
  = OK false.
Proof.
  apply (early_stopping_new_best _ "auroc" 1 [(1 # 2)%Q; (11 # 20)%Q] (3 # 5)%Q).
  - reflexivity.
  - repeat constructor.
  - vm_compute. discriminate.
  - lia.
  - vm_compute. discriminate.
Defined.


(** ** MonitorMetrics: what an update writes and what it leaves alone *)

Section MonitorMetricsMore.
Context `{Numpy}.
Local Arguments MonitorMetrics_update_one : simpl never.
Local Arguments MonitorMetrics_update : simpl never.

Lemma default_insert (v : gmap string (list pyfloat)) (key k : string)
    (h : list pyfloat) :
  default [] (<[key := h]> v !! k)
  = if decide (k = key) then h else default [] (v !! k).
Proof.
  destruct (decide (k = key)) as [-> | Hne].
  - by rewrite lookup_insert_eq.
  - by rewrite lookup_insert_ne.
Qed.

Lemma update_one_names (entry : string * list Q) (self : MonitorMetrics) :
  metric_names (MonitorMetrics_update_one entry self).2 = metric_names self.
Proof.
  destruct entry as [name vals]. rewrite update_one_run.
  destruct (value self !! name); [| done]. simpl.
  destruct (decide (name = "loss")); [done |].
  by destruct (value self !! (name +:+ "_std")).
Qed.

Lemma update_one_prefix (entry : string * list Q) (self : MonitorMetrics)
    (k : string) :
  history self k `prefix_of` history (MonitorMetrics_update_one entry self).2 k.
Proof.
  destruct entry as [name vals]. rewrite update_one_run.
  destruct (value self !! name) as [h|] eqn:Hh; [| done]. cbn zeta.
  assert (default [] (value self !! k)
          `prefix_of` default [] (<[name := h ++ [nanmean vals]]> (value self) !! k))
    as Hfirst.
  { rewrite default_insert. case_decide as Hk; [| done].
    subst k. rewrite Hh. simpl. by apply prefix_app_r. }
  destruct (decide (name = "loss")); [done |].
  destruct (value self !! (name +:+ "_std")) as [hs|] eqn:Hhs; [| done].
  unfold history. simpl. etrans; [exact Hfirst |].
  rewrite (default_insert (<[name := _]> _)). case_decide as Hk; [| done].
  subst k. rewrite lookup_insert_ne by apply not_eq_sym, std_suffix_neq.
  rewrite Hhs. simpl. by apply prefix_app_r.
Qed.

Lemma update_names (kw : kwargs (list Q)) (self : MonitorMetrics) :
  metric_names (MonitorMetrics_update kw self).2 = metric_names self.
Proof.
  unfold MonitorMetrics_update. revert self.
  induction kw as [|entry kw IH]; intros self; [done |].
  rewrite for_each_cons. pose proof (update_one_names entry self) as Hn.
  destruct (MonitorMetrics_update_one entry self) as [[[] | e] self1];
    cbn [fst snd] in *; [| done].
  by rewrite IH.
Qed.

Lemma update_prefix (kw : kwargs (list Q)) (self : MonitorMetrics) (k : string) :
  history self k `prefix_of` history (MonitorMetrics_update kw self).2 k.
Proof.
  unfold MonitorMetrics_update. revert self.
  induction kw as [|entry kw IH]; intros self; [done |].
  rewrite for_each_cons. pose proof (update_one_prefix entry self k) as Hp.
  destruct (MonitorMetrics_update_one entry self) as [[[] | e] self1];
    cbn [fst snd] in *; [| done].
  etrans; [exact Hp | apply IH].
Qed.

(** [update] only ever appends: whether it returns or raises half-way,
    every history of the store is extended at its end (possibly by
    nothing), no key is created or deleted, and the declared names are
    kept. *)
Theorem MonitorMetrics_update_append_only (kw : kwargs (list Q))
    (self : MonitorMetrics) :
  metric_names (MonitorMetrics_update kw self).2 = metric_names self
  ∧ dom (value (MonitorMetrics_update kw self).2) = dom (value self)
  ∧ ∀ k, history self k `prefix_of` history (MonitorMetrics_update kw self).2 k.
Proof.
  split; [apply update_names |]. split; [apply update_dom |].
  intros k. apply update_prefix.
Qed.

(** One successful iteration on a store with the keys of a fresh one. *)
Lemma update_one_effect (names : list string) (name : string) (vals : list Q)
    (self : MonitorMetrics) :
  dom (value self) = dom (value (MonitorMetrics_init names)) →
  (MonitorMetrics_update_one (name, vals) self).1 = OK tt →
  name ∈ recognized
  ∧ last (history (MonitorMetrics_update_one (name, vals) self).2 name)
    = Some (nanmean vals)
  ∧ (name ≠ "loss" →
     last (history (MonitorMetrics_update_one (name, vals) self).2
             (name +:+ "_std")) = Some (nanstd vals))
  ∧ ∀ n, n ∈ recognized →
      length (history (MonitorMetrics_update_one (name, vals) self).2
                (n +:+ "_std"))
      = (length (history self (n +:+ "_std"))
         + (if decide (n = name) then (if decide (n = "loss") then 0 else 1)
            else 0))%nat
      ∧ (n ≠ name →
         history (MonitorMetrics_update_one (name, vals) self).2 n
         = history self n
         ∧ history (MonitorMetrics_update_one (name, vals) self).2 (n +:+ "_std")
           = history self (n +:+ "_std")).
Proof.
  intros Hdom Hok.
  assert (name ∈ recognized) as Hrec.
  { apply update_one_OK in Hok. rewrite Hdom in Hok.
    by apply fresh_accepts in Hok as [? _]. }
  split; [done |]. revert Hok. rewrite update_one_run.
  destruct (value self !! name) as [h|] eqn:Hh; [| done]. cbn zeta.
  pose proof (std_suffix_neq name) as Hstd.
  destruct (decide (name = "loss")) as [Hloss | Hloss].
  - intros _. unfold history. simpl. split; [| split; [done |]].
    { rewrite default_insert, decide_True by done. apply last_snoc. }
    intros n Hn. rewrite !default_insert.
    rewrite (decide_False (P := n +:+ "_std" = name))
      by (intros Heq; by destruct (recognized_no_std_suffix _ n Hrec)).
    split.
    + destruct (decide (n = name)); [| lia]. subst n.
      rewrite decide_True by done. lia.
    + intros Hne. by rewrite decide_False.
  - destruct (value self !! (name +:+ "_std")) as [hs|] eqn:Hhs; [| done].
    intros _. unfold history. simpl. rewrite !default_insert.
    rewrite decide_False by done. rewrite !decide_True by done.
    split; [apply last_snoc |].
    split; [intros _; apply last_snoc |].
    intros n Hn. rewrite !default_insert.
    rewrite (decide_False (P := n +:+ "_std" = name))
      by (intros Heq; by destruct (recognized_no_std_suffix _ n Hrec)).
    rewrite (decide_False (P := n = name +:+ "_std"))
      by (by apply recognized_no_std_suffix).
    split.
    + destruct (decide (n = name)) as [-> | Hne].
      * rewrite !decide_True by done. rewrite decide_False by done.
        rewrite length_app. simpl. rewrite Hhs. simpl. lia.
      * rewrite decide_False; [lia |]. by intros ?%string_app_inj_r.
    + intros Hne. rewrite decide_False by done. split; [done |].
      rewrite decide_False; [done |]. by intros ?%string_app_inj_r.
Qed.

Lemma update_untouched (names : list string) (kw : kwargs (list Q))
    (self : MonitorMetrics) (n : string) :
  dom (value self) = dom (value (MonitorMetrics_init names)) →
  (MonitorMetrics_update kw self).1 = OK tt →
  n ∈ recognized → n ∉ kw_keys kw →
  history (MonitorMetrics_update kw self).2 n = history self n
  ∧ history (MonitorMetrics_update kw self).2 (n +:+ "_std")
    = history self (n +:+ "_std").
Proof.
  unfold MonitorMetrics_update. revert self.
  induction kw as [|[name vals] kw IH]; intros self Hdom Hok Hrec Hout; [done |].
  rewrite for_each_cons in *. unfold kw_keys in *. rewrite fmap_cons in Hout.
  apply not_elem_of_cons in Hout as [Hne Hout]. simpl in Hne.
  pose proof (update_one_effect names name vals self Hdom) as Hone.
  pose proof (update_one_dom (name, vals) self) as Hdom1.
  destruct (MonitorMetrics_update_one (name, vals) self) as [[[] | e] self1];
    cbn [fst snd] in *; [| done].
  destruct (Hone eq_refl) as (_ & _ & _ & Hothers).
  destruct (Hothers n Hrec) as [_ Hsame]. destruct (Hsame Hne) as [<- <-].
  apply IH; [by rewrite Hdom1 | done..].
Qed.

Lemma update_records (names : list string) (kw : kwargs (list Q))
    (self : MonitorMetrics) (n : string) (vals : list Q) :
  dom (value self) = dom (value (MonitorMetrics_init names)) →
  (MonitorMetrics_update kw self).1 = OK tt →
  NoDup (kw_keys kw) → (n, vals) ∈ kw →
  last (history (MonitorMetrics_update kw self).2 n) = Some (nanmean vals)
  ∧ (n ≠ "loss" →
     last (history (MonitorMetrics_update kw self).2 (n +:+ "_std"))
     = Some (nanstd vals)).
Proof.
  unfold MonitorMetrics_update. revert self.
  induction kw as [|[name vals'] kw IH]; intros self Hdom Hok Hnodup Hin.
  { by apply elem_of_nil in Hin. }
  rewrite for_each_cons in *. unfold kw_keys in *. rewrite fmap_cons in Hnodup.
  apply NoDup_cons in Hnodup as [Hfresh Hnodup]. simpl in Hfresh.
  pose proof (update_one_effect names name vals' self Hdom) as Hone.
  pose proof (update_one_dom (name, vals') self) as Hdom1.
  destruct (MonitorMetrics_update_one (name, vals') self) as [[[] | e] self1];
    cbn [fst snd] in *; [| done].
  destruct (Hone eq_refl) as (Hrec & Hmean & Hstd & _).
  apply elem_of_cons in Hin as [[= -> ->] | Hin].
  - destruct (update_untouched names kw self1 name) as [Hn Hs];
      [by rewrite Hdom1 | done | done | done |].
    unfold MonitorMetrics_update in Hn, Hs. rewrite Hn, Hs. by split.
  - apply IH; [by rewrite Hdom1 | done..].
Qed.

Lemma update_std_length (names : list string) (kw : kwargs (list Q))
    (self : MonitorMetrics) (n : string) :
  dom (value self) = dom (value (MonitorMetrics_init names)) →
  (MonitorMetrics_update kw self).1 = OK tt →
  NoDup (kw_keys kw) → n ∈ recognized → n ≠ "loss" →
  length (history (MonitorMetrics_update kw self).2 (n +:+ "_std"))
  = (length (history self (n +:+ "_std"))
     + (if decide (n ∈ kw_keys kw) then 1 else 0))%nat.
Proof.
  unfold MonitorMetrics_update. revert self.
  induction kw as [|[name vals] kw IH]; intros self Hdom Hok Hnodup Hrec Hloss.
  { simpl. lia. }
  rewrite for_each_cons in *. unfold kw_keys in *. rewrite fmap_cons in *.
  apply NoDup_cons in Hnodup as [Hfresh Hnodup]. simpl in *.
  pose proof (update_one_effect names name vals self Hdom) as Hone.
  pose proof (update_one_dom (name, vals) self) as Hdom1.
  destruct (MonitorMetrics_update_one (name, vals) self) as [[[] | e] self1];
    cbn [fst snd] in *; [| done].
  destruct (Hone eq_refl) as (_ & _ & _ & Hothers).
  destruct (Hothers n Hrec) as [Hlen _].
  rewrite IH, Hlen by (by rewrite ?Hdom1).
  destruct (decide (n = name)) as [-> | Hne].
  - rewrite (decide_False (P := name = "loss")) by done.
    rewrite decide_False by done. rewrite decide_True by apply list_elem_of_here.
    lia.
  - destruct (decide (n ∈ kw.*1)) as [Hin | Hout].
    + rewrite decide_True by by apply list_elem_of_further. lia.
    + rewrite decide_False; [lia |]. by intros [? | ?]%elem_of_cons.
Qed.

(** What a successful update records. On a store built by the constructor
    (and any earlier calls), after an update that returns, the last entry
    of the history of each metric it named is the mean of the values
    supplied for it and, except for "loss", the last entry of its "_std"
    history is their standard deviation. *)
Theorem MonitorMetrics_update_records_mean_std (names : list string)
    (calls : list (kwargs (list Q))) (kw : kwargs (list Q)) (n : string)
    (vals : list Q) :
  NoDup (kw_keys kw) → (n, vals) ∈ kw →
  (MonitorMetrics_update kw
     (MonitorMetrics_after calls (MonitorMetrics_init names))).1 = OK tt →
  last (history (MonitorMetrics_update kw
                   (MonitorMetrics_after calls (MonitorMetrics_init names))).2 n)
  = Some (nanmean vals)
  ∧ (n ≠ "loss" →
     last (history (MonitorMetrics_update kw
                      (MonitorMetrics_after calls (MonitorMetrics_init names))).2
             (n +:+ "_std"))
     = Some (nanstd vals)).
Proof.
  intros Hnodup Hin Hok.
  apply (update_records names); [apply after_dom | done..].
Qed.

Lemma series_std_length (names : list string) (calls : list (kwargs (list Q)))
    (self final : MonitorMetrics) (n : string) :
  dom (value self) = dom (value (MonitorMetrics_init names)) →
  for_each calls MonitorMetrics_update self = (OK tt, final) →
  Forall (λ kw, NoDup (kw_keys kw)) calls →
  n ∈ recognized → n ≠ "loss" →
  length (history final (n +:+ "_std"))
  = (length (history self (n +:+ "_std")) + calls_naming n calls)%nat.
Proof.
  unfold calls_naming. revert self.
  induction calls as [|kw calls IH]; intros self Hdom Hrun Hnodup Hrec Hloss.
  { injection Hrun as <-. simpl. lia. }
  rewrite for_each_cons in Hrun. apply Forall_cons in Hnodup as [Hkw Hnodup].
  pose proof (update_std_length names kw self n Hdom) as Hone.
  pose proof (update_dom kw self) as Hdom1.
  destruct (MonitorMetrics_update kw self) as [[[] | e] self1];
    cbn [fst snd] in *; [| done].
  rewrite (IH self1), Hone by (by rewrite ?Hdom1).
  rewrite filter_cons. destruct (decide (n ∈ kw_keys kw)); simpl; lia.
Qed.

(** Means and deviations stay in step: after a series of updates that all
    returned, started on a fresh store, the "_std" history of every
    tracked metric other than "loss" is exactly as long as the history of
    the metric itself. *)
Theorem MonitorMetrics_std_in_step (names : list string)
    (calls : list (kwargs (list Q))) (final : MonitorMetrics) (n : string) :
  Forall (λ kw, NoDup (kw_keys kw)) calls →
  for_each calls MonitorMetrics_update (MonitorMetrics_init names)
  = (OK tt, final) →
  tracked final n → n ≠ "loss" →
  length (history final (n +:+ "_std")) = length (history final n)
  ∧ length (history final n) = calls_naming n calls.
Proof.
  intros Hnodup Hrun [Hrec _] Hloss.
  rewrite (series_std_length names calls _ final n) by done.
  rewrite (series_length calls _ final n) by done.
  by rewrite !fresh_history.
Qed.
End MonitorMetricsMore.

Lemma MonitorMetrics_update_records_mean_std_witness :
  last (history (@MonitorMetrics_update demo_numpy
                   [("auroc", [(3 # 5)%Q; (7 # 10)%Q]); ("loss", [(2 # 5)%Q])]
                   (@MonitorMetrics_after demo_numpy demo_calls
                      (MonitorMetrics_init ["loss"; "auroc"]))).2 "auroc")
  = Some (@nanmean demo_numpy [(3 # 5)%Q; (7 # 10)%Q]).
Proof.
  destruct (@MonitorMetrics_update_records_mean_std demo_numpy ["loss"; "auroc"]
              demo_calls
              [("auroc", [(3 # 5)%Q; (7 # 10)%Q]); ("loss", [(2 # 5)%Q])]
              "auroc" [(3 # 5)%Q; (7 # 10)%Q]) as [Hmean _].
  - repeat constructor; vm_compute; intros Hin;
      repeat (inversion_clear Hin as [| ? ? ? Hin']; rename Hin' into Hin).
  - apply list_elem_of_here.
  - reflexivity.
  - exact Hmean.
Defined.

Lemma MonitorMetrics_std_in_step_witness :
  length (history (for_each demo_calls (@MonitorMetrics_update demo_numpy)
                     (MonitorMetrics_init ["loss"; "auroc"])).2 "auroc_std")
  = 1%nat.
Proof.
  destruct (@MonitorMetrics_std_in_step demo_numpy ["loss"; "auroc"] demo_calls
              (for_each demo_calls (@MonitorMetrics_update demo_numpy)
                 (MonitorMetrics_init ["loss"; "auroc"])).2 "auroc")
    as [Hstd Hlen].
  - repeat constructor; vm_compute; intros Hin;
      repeat (inversion_clear Hin as [| ? ? ? Hin']; rename Hin' into Hin).
  - reflexivity.
  - split; [apply list_elem_of_further, list_elem_of_further, list_elem_of_here |].
    vm_compute. eauto.
  - discriminate.
  - change ("auroc_std") with ("auroc" +:+ "_std"). rewrite Hstd, Hlen.
    reflexivity.
Defined.


(** ** Printing the metrics *)

Section PrintFacts.
Context `{Printf}.

Lemma dict_last (self : MonitorMetrics) (k : string) :
  match dict_get (value self) k with
  | OK h =>
      match list_last h with
      | OK _ => history self k ≠ []
      | Raise _ => history self k = []
      end
  | Raise _ => history self k = []
  end.
Proof.
  unfold dict_get, list_last, history.
  destruct (value self !! k) as [h|]; [| done]. simpl.
  destruct (last h) as [x|] eqn:Hx.
  - intros ->. done.
  - by apply last_None.
Qed.

Lemma print_line_OK (self : MonitorMetrics) (label n : string) :
  (∃ line, MonitorMetrics_print_line self label n = OK line) ↔ printable self n.
Proof.
  unfold printable, MonitorMetrics_print_line.
  pose proof (dict_last self n) as Hn.
  pose proof (dict_last self (n +:+ "_std")) as Hs.
  destruct (decide (n = "loss")) as [Hloss | Hloss].
  - destruct (dict_get (value self) n) as [h | e];
      [destruct (list_last h) as [x | e] |].
    + split; [intros _; split; [done | by left] | eauto].
    + split; [by intros [? ?] | by intros [? _]].
    + split; [by intros [? ?] | by intros [? _]].
  - destruct (dict_get (value self) n) as [h | e];
      [destruct (list_last h) as [x | e] |].
    + destruct (dict_get (value self) (n +:+ "_std")) as [hs | e];
        [destruct (list_last hs) as [sd | e] |].
      * split; [intros _; split; [done | by right] | eauto].
      * split; [by intros [? ?] | by intros [_ [? | ?]]].
      * split; [by intros [? ?] | by intros [_ [? | ?]]].
    + split; [by intros [? ?] | by intros [? _]].
    + split; [by intros [? ?] | by intros [? _]].
Qed.

Lemma print_lines_outcome (self : MonitorMetrics) (label : string)
    (names : list string) :
  ((MonitorMetrics_print_lines self label names).1 = OK tt
   ↔ Forall (printable self) names)
  ∧ (length (MonitorMetrics_print_lines self label names).2 ≤ length names)%nat
  ∧ ((MonitorMetrics_print_lines self label names).1 = OK tt →
     length (MonitorMetrics_print_lines self label names).2 = length names).
Proof.
  induction names as [|n names (IHok & IHle & IHlen)].
  { simpl. split_and!; [| lia | done]. split; [by constructor | done]. }
  simpl. rewrite Forall_cons, <- (print_line_OK self label n).
  destruct (MonitorMetrics_print_line self label n) as [line | e].
  - destruct (MonitorMetrics_print_lines self label names) as [r lines].
    simpl in *. split_and!.
    + rewrite IHok. split; [eauto | tauto].
    + lia.
    + intros Hr. by rewrite IHlen.
  - simpl. split_and!; [| lia | done].
    split; [done |]. by intros [[? ?] _].
Qed.

(** [print] shows one line per declared metric name, in order, and stops
    at the first name it cannot show: it returns normally exactly when
    every declared name has a non-empty history (and, unless it is "loss",
    a non-empty "_std" history), and then it has printed as many lines as
    there are declared names; in no case does it print more lines than
    that. *)
Theorem MonitorMetrics_print_outcome (self : MonitorMetrics) (label : string) :
  ((MonitorMetrics_print self label).1 = OK tt
   ↔ Forall (printable self) (metric_names self))
  ∧ (length (MonitorMetrics_print self label).2 ≤ length (metric_names self))%nat
  ∧ ((MonitorMetrics_print self label).1 = OK tt →
     length (MonitorMetrics_print self label).2 = length (metric_names self)).
Proof. apply print_lines_outcome. Qed.

(** Printing before anything was recorded fails: on a freshly constructed
    store with at least one declared name, [print] raises on the first
    name without printing a line, an index error when that name has an
    (empty) history and a key lookup error naming it when it has none. *)
Theorem MonitorMetrics_print_fresh (n : string) (rest : list string)
    (label : string) :
  MonitorMetrics_print (MonitorMetrics_init (n :: rest)) label
  = (Raise (if decide (n ∈ dom (value (MonitorMetrics_init (n :: rest))))
            then IndexError else KeyError n), []).
Proof.
  unfold MonitorMetrics_print. cbn [metric_names MonitorMetrics_init].
  cbn [MonitorMetrics_print_lines].
  assert (MonitorMetrics_print_line (MonitorMetrics_init (n :: rest)) label n
          = Raise (if decide (n ∈ dom (value (MonitorMetrics_init (n :: rest))))
                   then IndexError else KeyError n)) as ->; [| done].
  unfold MonitorMetrics_print_line, dict_get, list_last.
  destruct (value (MonitorMetrics_init (n :: rest)) !! n) as [h|] eqn:Hh.
  - rewrite (decide_True (P := n ∈ dom _)) by (apply elem_of_dom; eauto).
    apply fresh_lookup in Hh as [-> _]. by case_decide.
  - rewrite (decide_False (P := n ∈ dom _))
      by (rewrite elem_of_dom, Hh; by intros [? ?]).
    destruct (decide (n = "loss")) as [-> | ?]; [| done].
    simpl in Hh. by rewrite fresh_lookup_key in Hh by by left.
Qed.
End PrintFacts.

(** ** TrainMetrics: the splits do not interfere *)

(** An update addressed to one split leaves the stores of the other two
    splits exactly as they were, whether the update returns or raises. *)
Theorem TrainMetrics_update_isolated `{Numpy} (name : string)
    (kw : kwargs (list Q)) (tm : TrainMetrics) :
  (name ≠ "train" → train (TrainMetrics_update name kw tm).2 = train tm)
  ∧ (name ≠ "valid" → valid (TrainMetrics_update name kw tm).2 = valid tm)
  ∧ (name ≠ "test" → test (TrainMetrics_update name kw tm).2 = test tm).
Proof.
  unfold TrainMetrics_update, zoom.
  repeat case_decide; subst;
    repeat match goal with
           | |- context [MonitorMetrics_update ?kw ?s] =>
               destruct (MonitorMetrics_update kw s)
           end; simpl; split_and!; done.
Qed.

Lemma TrainMetrics_update_isolated_witness :
  train (@TrainMetrics_update demo_numpy "valid" [("bogus", [(1 # 2)%Q])]
           (TrainMetrics_init ["loss"; "auroc"])).2
  = train (TrainMetrics_init ["loss"; "auroc"]).
Proof.
  destruct (@TrainMetrics_update_isolated demo_numpy "valid"
              [("bogus", [(1 # 2)%Q])] (TrainMetrics_init ["loss"; "auroc"]))
    as [Htrain _].
  apply Htrain. discriminate.
Defined.


(** ** progress_bar: the bar and the metrics shown *)

Lemma py_round_floor (q : Q) :
  (q - inject_Z (Qfloor q) < 1 # 2)%Q → py_round q = Qfloor q.
Proof.
  intros Hlt. unfold py_round. cbv zeta.
  destruct (Qcompare_spec (q - inject_Z (Qfloor q))%Q (1 # 2)%Q)
    as [Heq | _ | Hgt]; [| done |].
  - rewrite Heq in Hlt. by apply Qlt_irrefl in Hlt.
  - by destruct (Qlt_irrefl _ (Qlt_trans _ _ _ Hlt Hgt)).
Qed.

Lemma py_round_cases (q : Q) : py_round q = Qfloor q ∨ py_round q = Qfloor q + 1.
Proof.
  unfold py_round. cbv zeta.
  destruct (Qcompare _ _); auto. destruct (Z.even _); auto.
Qed.

Lemma py_round_int (q : Q) (z : Z) : (q == inject_Z z)%Q → py_round q = z.
Proof.
  intros Hq. assert (Qfloor q = z) as Hfloor by by rewrite Hq, Qfloor_Z.
  rewrite py_round_floor; [done |]. rewrite Hfloor, Hq.
  unfold Qminus. rewrite Qplus_opp_r. done.
Qed.

Lemma py_round_bounds (q : Q) (z : Z) :
  (0 <= q)%Q → (q <= inject_Z z)%Q → 0 ≤ py_round q ≤ z.
Proof.
  intros Hlo Hhi.
  assert (0 ≤ Qfloor q) as Hf0.
  { change 0 with (Qfloor (inject_Z 0)) at 1. rewrite Qfloor_Z.
    change 0 with (Qfloor 0%Q). by apply Qfloor_resp_le. }
  assert (Qfloor q ≤ z) as Hfz.
  { rewrite <- (Qfloor_Z z). by apply Qfloor_resp_le. }
  destruct (decide (Qfloor q = z)) as [Heq | Hne].
  - rewrite py_round_floor; [lia |]. rewrite Heq.
    apply Qle_lt_trans with 0%Q; [| done].
    apply Qle_minus_iff in Hhi. apply Qle_minus_iff.
    setoid_replace (0 + - (q - inject_Z z))%Q with (inject_Z z + - q)%Q
      using relation Qeq by ring.
    done.
  - destruct (py_round_cases q) as [-> | ->]; lia.
Qed.

Lemma string_length_str_mul (c : string) (n : Z) :
  String.length c = 1%nat → String.length (str_mul c n) = Z.to_nat n.
Proof.
  intros Hc. unfold str_mul. induction (Z.to_nat n) as [|k IH]; [done |].
  simpl. by rewrite string_length_app, Hc, IH.
Qed.

Lemma percent_bounds (iter num_batches bar_length : Z) :
  0 ≤ iter ≤ num_batches → num_batches ≠ 0 → 0 ≤ bar_length →
  (0 <= inject_Z iter / inject_Z num_batches * inject_Z bar_length)%Q
  ∧ (inject_Z iter / inject_Z num_batches * inject_Z bar_length
     <= inject_Z bar_length)%Q.
Proof.
  intros Hiter Hn Hlen.
  assert (0 < inject_Z num_batches)%Q as Hpos.
  { unfold Qlt. simpl. lia. }
  assert (0 <= inject_Z bar_length)%Q as Hlen' by (unfold Qle; simpl; lia).
  assert (0 <= inject_Z iter / inject_Z num_batches)%Q as Hlo.
  { apply Qle_shift_div_l; [done |]. unfold Qle. simpl. lia. }
  assert (inject_Z iter / inject_Z num_batches <= 1)%Q as Hhi.
  { apply Qle_shift_div_r; [done |]. unfold Qle. simpl. lia. }
  split; [by apply Qmult_le_0_compat |].
  setoid_replace (inject_Z bar_length) with (1 * inject_Z bar_length)%Q
    using relation Qeq at 2 by ring.
  by apply Qmult_le_compat_r.
Qed.

Section ProgressBarMore.
Context {Model Rng : Type} `{Printf} `{Clock}.
Implicit Type w : World Model Rng.

Lemma metric_text_other (kw : kwargs Q) (name shown : string) (v : Q) :
  name ≠ shown → metric_text ((name, v) :: kw) shown = metric_text kw shown.
Proof. intros Hne. unfold metric_text. simpl. by rewrite decide_False. Qed.

(** [progress_bar] shows the seven metrics it knows by name and nothing
    else: a keyword argument under any other name (such as "corr", which
    the metric store does track) changes neither the text written nor the
    outcome. *)
Theorem progress_bar_ignores_other_metrics (iter num_batches : Z)
    (start_time : Q) (bar_length : Z) (kw : kwargs Q) (name : string) (v : Q)
    (w : World Model Rng) :
  name ∉ shown_metrics →
  progress_bar iter num_batches start_time bar_length ((name, v) :: kw) w
  = progress_bar iter num_batches start_time bar_length kw w.
Proof.
  intros Hname. unfold progress_bar.
  assert (∀ shown, shown ∈ shown_metrics →
            metric_text ((name, v) :: kw) shown = metric_text kw shown) as Hsame.
  { intros shown Hin. apply metric_text_other. by intros ->. }
  rewrite !Hsame; [done | unfold shown_metrics; rewrite !elem_of_cons; auto 10..].
Qed.

(** The text written by a call that does not divide by zero. *)
Lemma progress_bar_run (iter num_batches : Z) (start_time : Q)
    (bar_length : Z) (kw : kwargs Q) w :
  num_batches ≠ 0 → iter = num_batches ∨ iter + 1 ≠ 0 →
  ∃ rest,
    progress_bar iter num_batches start_time bar_length kw w
    = (OK tt,
       set_stdout
         (stdout w
          ++ [CR +:+ "["
              +:+ str_mul "="
                    (py_round (inject_Z iter / inject_Z num_batches
                               * inject_Z bar_length)%Q)
              +:+ str_mul " "
                    (bar_length
                     - py_round (inject_Z iter / inject_Z num_batches
                                 * inject_Z bar_length)%Q)
              +:+ "] " +:+ rest])
         (set_ticks (S (ticks w)) w)).
Proof.
  intros Hn Hiter. unfold progress_bar, time_time, stdout_write.
  unfold mbind, M_bind, bind, gets, modify, raise, mret, M_ret, ret.
  rewrite (decide_False (P := num_batches = 0)) by done.
  destruct (decide (iter = num_batches)) as [Heq | Hne].
  - eexists. rewrite !string_app_assoc. reflexivity.
  - destruct Hiter as [? | Hiter]; [done |].
    rewrite (decide_False (P := iter + 1 = 0)) by done.
    eexists. rewrite !string_app_assoc. reflexivity.
Qed.

(** The bar has a fixed width. For a batch index between 0 and the number
    of batches and a non-negative bar length, the text written starts with
    a carriage return and a bracketed bar of exactly [bar_length]
    characters, some "=" followed by spaces; the bar is all "=" at the
    last batch and all spaces at index 0. *)
Theorem progress_bar_bar_width (iter num_batches : Z) (start_time : Q)
    (bar_length : Z) (kw : kwargs Q) (w : World Model Rng) :
  0 ≤ iter ≤ num_batches → num_batches ≠ 0 → 0 ≤ bar_length →
  ∃ (filled : Z) (rest : string),
    progress_bar iter num_batches start_time bar_length kw w
    = (OK tt,
       set_stdout
         (stdout w
          ++ [CR +:+ "[" +:+ str_mul "=" filled
              +:+ str_mul " " (bar_length - filled) +:+ "] " +:+ rest])
         (set_ticks (S (ticks w)) w))
    ∧ 0 ≤ filled ≤ bar_length
    ∧ (String.length (str_mul "=" filled)
       + String.length (str_mul " " (bar_length - filled)))%nat
      = Z.to_nat bar_length
    ∧ (iter = num_batches → filled = bar_length)
    ∧ (iter = 0 → filled = 0).
Proof.
  intros Hiter Hn Hlen.
  destruct (progress_bar_run iter num_batches start_time bar_length kw w)
    as [rest Hrun]; [done | right; lia |].
  destruct (percent_bounds iter num_batches bar_length) as [Hlo Hhi];
    [done..|].
  pose proof (py_round_bounds _ _ Hlo Hhi) as Hfilled.
  eexists _, rest. split; [exact Hrun |]. split; [done |]. split; [| split].
  - rewrite !string_length_str_mul by done. lia.
  - intros ->. apply py_round_int.
    assert (¬ (inject_Z num_batches == 0)%Q) as Hnz
      by (unfold Qeq; simpl; lia).
    field. done.
  - intros ->. apply py_round_int.
    assert (¬ (inject_Z num_batches == 0)%Q) as Hnz
      by (unfold Qeq; simpl; lia).
    change (inject_Z 0) with 0%Q. field. done.
Qed.
End ProgressBarMore.

Lemma progress_bar_ignores_other_metrics_witness :
  @progress_bar nat unit demo_printf demo_clock 2 4 0%Q 30
    [("corr", (1 # 2)%Q); ("loss", (1 # 4)%Q)] demo_world
  = @progress_bar nat unit demo_printf demo_clock 2 4 0%Q 30
      [("loss", (1 # 4)%Q)] demo_world.
Proof.
  apply (@progress_bar_ignores_other_metrics nat unit demo_printf demo_clock).
  unfold shown_metrics. intros Hin.
  repeat (inversion_clear Hin as [| ? ? ? Hin']; rename Hin' into Hin).
Defined.

Lemma progress_bar_bar_width_witness :
  ∃ (filled : Z) (rest : string),
    @progress_bar nat unit demo_printf demo_clock 2 4 0%Q 30
      [("loss", (1 # 4)%Q)] demo_world
    = (OK tt,
       set_stdout
         [CR +:+ "[" +:+ str_mul "=" filled +:+ str_mul " " (30 - filled)
          +:+ "] " +:+ rest]
         (set_ticks 1%nat demo_world))
    ∧ 0 ≤ filled ≤ 30.
Proof.
  destruct (@progress_bar_bar_width nat unit demo_printf demo_clock 2 4 0%Q 30
              [("loss", (1 # 4)%Q)] demo_world)
    as (filled & rest & Hrun & Hfilled & _); [lia | lia | lia |].
  exists filled, rest. split; [exact Hrun | exact Hfilled].
Defined.


(** ** Trainer.evaluate *)

Lemma kw_set_keys {V} (kw : kwargs V) (k : string) (v : V) (k' : string) :
  k' ∈ kw_keys (kw_set kw k v) ↔ k' = k ∨ k' ∈ kw_keys kw.
Proof.
  unfold kw_keys. induction kw as [|[k0 v0] kw IH]; simpl.
  - rewrite elem_of_cons, elem_of_nil. tauto.
  - destruct (decide (k0 = k)) as [-> | Hne]; simpl.
    + rewrite !elem_of_cons. tauto.
    + rewrite !elem_of_cons, IH. tauto.
Qed.

Lemma kw_set_NoDup {V} (kw : kwargs V) (k : string) (v : V) :
  NoDup (kw_keys kw) → NoDup (kw_keys (kw_set kw k v)).
Proof.
  unfold kw_keys. induction kw as [|[k0 v0] kw IH]; simpl; intros Hnodup.
  - apply NoDup_singleton.
  - apply NoDup_cons in Hnodup as [Hfresh Hnodup].
    destruct (decide (k0 = k)) as [-> | Hne]; simpl.
    + by apply NoDup_cons.
    + apply NoDup_cons. split; [| by apply IH].
      intros [? | ?]%(kw_set_keys kw k v k0); [done | by apply Hfresh].
Qed.

Lemma kw_set_elem {V} (kw : kwargs V) (k : string) (v : V) :
  (k, v) ∈ kw_set kw k v.
Proof.
  induction kw as [|[k0 v0] kw IH]; simpl; [apply list_elem_of_here |].
  destruct (decide (k0 = k)); [apply list_elem_of_here |].
  by apply list_elem_of_further.
Qed.

Lemma kw_set_elem_other {V} (kw : kwargs V) (k k' : string) (v v' : V) :
  k' ≠ k → (k', v') ∈ kw → (k', v') ∈ kw_set kw k v.
Proof.
  intros Hne. induction kw as [|[k0 v0] kw IH]; simpl.
  { intros Hin. by apply elem_of_nil in Hin. }
  intros [[= <- <-] | Hin]%elem_of_cons.
  - rewrite decide_False by done. apply list_elem_of_here.
  - destruct (decide (k0 = k)); apply list_elem_of_further; auto.
Qed.

Section EvaluateFacts.
Context {Model Rng X Y Pred : Type}.
Context `{Numpy} `{Printf} `{Clock}.
Context `{!Keras Model X Y Pred} `{!TfData Rng (X * Y)}.
Implicit Type w : World Model Rng.
Local Arguments MonitorMetrics_update : simpl never.

Lemma build_metric_dic_short (names : list string) (results : list Q)
    (i : nat) (dic : kwargs (list Q)) :
  names ≠ [] → (length results ≤ i + length names)%nat →
  build_metric_dic i names results dic = Raise IndexError.
Proof.
  revert i dic. induction names as [|n names IH]; intros i dic Hne Hlen; [done |].
  simpl. unfold list_get.
  destruct (results !! S i) as [r|] eqn:Hr; [| done].
  apply lookup_lt_Some in Hr.
  destruct names as [|n' names]; [simpl in Hlen; lia |].
  apply IH; [done | simpl in *; lia].
Qed.

Lemma build_metric_dic_OK (names : list string) (results : list Q)
    (i : nat) (dic : kwargs (list Q)) :
  (i + length names < length results)%nat → NoDup (kw_keys dic) →
  ∃ dic',
    build_metric_dic i names results dic = OK dic'
    ∧ NoDup (kw_keys dic')
    ∧ (∀ k, k ∈ kw_keys dic' ↔ k ∈ kw_keys dic ∨ k ∈ names)
    ∧ (∀ k v, (k, v) ∈ dic → k ∉ names → (k, v) ∈ dic')
    ∧ (NoDup names →
       ∀ j n r, names !! j = Some n → results !! S (i + j) = Some r →
                (n, [r]) ∈ dic').
Proof.
  revert i dic. induction names as [|n names IH]; intros i dic Hlen Hnodup.
  { exists dic. split; [done |]. split; [done |]. split; [| split; [done |]].
    - intros k. rewrite elem_of_nil. tauto.
    - intros _ j n r Hj. by rewrite lookup_nil in Hj. }
  simpl in *. unfold list_get.
  destruct (lookup_lt_is_Some_2 results (S i)) as [r Hr]; [lia |]. rewrite Hr.
  destruct (IH (S i) (kw_set dic n [r]))
    as (dic' & -> & Hnd & Hkeys & Hkeep & Hvals);
    [lia | by apply kw_set_NoDup |].
  exists dic'. split; [done |]. split; [done |]. split; [| split].
  - intros k. rewrite Hkeys, kw_set_keys, elem_of_cons. tauto.
  - intros k v Hin Hout. apply not_elem_of_cons in Hout as [Hne Hout].
    apply Hkeep; [| done]. by apply kw_set_elem_other.
  - intros Hnames j n' r' Hj Hr'. apply NoDup_cons in Hnames as [Hfresh Hnames].
    destruct j as [|j]; simpl in Hj.
    + injection Hj as <-. rewrite Nat.add_0_r, Hr in Hr'. injection Hr' as <-.
      apply Hkeep; [apply kw_set_elem | done].
    + apply (Hvals Hnames j); [done |]. by rewrite <- Nat.add_succ_comm in Hr'.
Qed.

Lemma zoom_metrics_run (m : M TrainMetrics unit) w :
  zoom metrics set_metrics m w = ((m (metrics w)).1, set_metrics (m (metrics w)).2 w).
Proof. unfold zoom. by destruct (m (metrics w)). Qed.

Lemma TrainMetrics_update_split (name : string) (kw : kwargs (list Q))
    (tm : TrainMetrics) (s : MonitorMetrics) :
  split_of name tm = Some s →
  (TrainMetrics_update name kw tm).1 = (MonitorMetrics_update kw s).1
  ∧ split_of name (TrainMetrics_update name kw tm).2
    = Some (MonitorMetrics_update kw s).2.
Proof.
  unfold split_of, TrainMetrics_update, zoom.
  repeat case_decide; intros [= <-]; try done;
    by destruct (MonitorMetrics_update kw _).
Qed.

Lemma TrainMetrics_update_no_split (name : string) (kw : kwargs (list Q))
    (tm : TrainMetrics) :
  split_of name tm = None → TrainMetrics_update name kw tm = (OK tt, tm).
Proof. unfold split_of, TrainMetrics_update. by repeat case_decide. Qed.

Lemma TrainMetrics_print_split (name : string) (tm : TrainMetrics)
    (s : MonitorMetrics) :
  split_of name tm = Some s →
  TrainMetrics_print tm name = MonitorMetrics_print s name.
Proof.
  unfold split_of, TrainMetrics_print.
  repeat case_decide; intros [= <-]; by subst.
Qed.

Lemma for_each_print (lines : list string) w :
  for_each lines print w
  = (OK tt, set_stdout (stdout w ++ ((λ l, l +:+ LF) <$> lines)) w).
Proof.
  revert w. induction lines as [|line lines IH]; intros w.
  { simpl. rewrite app_nil_r. by destruct w. }
  rewrite for_each_cons. unfold print at 1, stdout_write, modify.
  rewrite IH. simpl. by rewrite <- app_assoc.
Qed.

Lemma Trainer_print_metrics_run (name : string) w :
  Trainer_print_metrics name w
  = ((TrainMetrics_print (metrics w) name).1,
     set_stdout (stdout w
                 ++ ((λ l, l +:+ LF) <$> (TrainMetrics_print (metrics w) name).2))
       w).
Proof.
  unfold Trainer_print_metrics, mbind, M_bind, bind, get.
  destruct (TrainMetrics_print (metrics w) name) as [r lines].
  rewrite for_each_print. by destruct r.
Qed.

(** The steps of [evaluate] once the results are long enough. *)
Lemma Trainer_evaluate_run (name : string) (x : list X) (y : list Y)
    (batch_size : Z) (verbose : bool) w (dic : kwargs (list Q)) (loss : Q) :
  build_metric_dic 0 (model_metric_names (model w))
    (model_evaluate x y batch_size (model w)) [] = OK dic →
  model_evaluate x y batch_size (model w) !! 0%nat = Some loss →
  Trainer_evaluate name x y batch_size verbose w
  = match TrainMetrics_update name [("loss", [loss])] (metrics w) with
    | (Raise e, tm1) => (Raise e, set_metrics tm1 w)
    | (OK _, tm1) =>
        match TrainMetrics_update name dic tm1 with
        | (Raise e, tm2) => (Raise e, set_metrics tm2 w)
        | (OK _, tm2) =>
            if verbose then Trainer_print_metrics name (set_metrics tm2 w)
            else (OK tt, set_metrics tm2 w)
        end
    end.
Proof.
  intros Hdic Hloss. unfold Trainer_evaluate.
  unfold mbind, M_bind, bind, gets, lift_result, list_get.
  rewrite Hdic, Hloss. rewrite zoom_metrics_run.
  destruct (TrainMetrics_update name [("loss", [loss])] (metrics w))
    as [[[] | e] tm1]; cbn [fst snd]; [| done].
  rewrite zoom_metrics_run. cbn [metrics set_metrics].
  destruct (TrainMetrics_update name dic tm1) as [[[] | e] tm2];
    cbn [fst snd]; [| done].
  by destruct verbose.
Qed.

(** When the model returns fewer results than its loss plus one value per
    metric, [evaluate] raises an index error before touching anything:
    no history is extended and nothing is printed. *)
Theorem Trainer_evaluate_short_results (name : string) (x : list X)
    (y : list Y) (batch_size : Z) (verbose : bool) (w : World Model Rng) :
  (length (model_evaluate x y batch_size (model w))
   ≤ length (model_metric_names (model w)))%nat →
  Trainer_evaluate name x y batch_size verbose w = (Raise IndexError, w).
Proof.
  intros Hshort. unfold Trainer_evaluate.
  unfold mbind, M_bind, bind, gets, lift_result.
  destruct (model_metric_names (model w)) as [|n names] eqn:Hnames.
  - simpl in *. destruct (model_evaluate x y batch_size (model w)); [done |].
    simpl in Hshort. lia.
  - by rewrite build_metric_dic_short.
Qed.

Lemma store_for_loss (names : list string) (s : MonitorMetrics) :
  store_for names s → "loss" ∈ dom (value s).
Proof. intros [_ ->]. apply fresh_dom. by left. Qed.

Lemma store_for_accepts (names : list string) (s : MonitorMetrics) (n : string) :
  store_for names s → n ∈ names → n ∈ with_std → accepts (dom (value s)) n.
Proof.
  intros [_ ->] Hin Hstd. apply fresh_accepts.
  split; [by apply with_std_recognized in Hstd as [? _] |].
  apply fresh_dom. right. exists n. split; [done |].
  split; [by apply list_elem_of_further | by left].
Qed.

Lemma store_for_update (names : list string) (kw : kwargs (list Q))
    (s : MonitorMetrics) :
  store_for names s → store_for names (MonitorMetrics_update kw s).2.
Proof. intros [Hn Hd]. split; [by rewrite update_names | by rewrite update_dom]. Qed.

Lemma history_length_nonempty (s : MonitorMetrics) (k : string) (n : nat) :
  length (history s k) = S n → history s k ≠ [].
Proof. by destruct (history s k). Qed.

(** What a successful [evaluate] records. For a model whose metric names
    are distinct and all among acc, auroc, aupr, corr, mcc and mse, on a
    split whose store was built for those names, and with one result per
    metric after the loss: [evaluate] returns; the history of "loss" and
    of every metric grows by exactly one entry, the mean of the matching
    result (results[0] for the loss, results[i+1] for metric i), with its
    deviation in the "_std" history; the model and optimizer are not
    touched; and with [verbose] one line per declared name is printed. *)
Theorem Trainer_evaluate_records (name : string) (x : list X) (y : list Y)
    (batch_size : Z) (verbose : bool) (w : World Model Rng)
    (s : MonitorMetrics) :
  split_of name (metrics w) = Some s →
  store_for (model_metric_names (model w)) s →
  NoDup (model_metric_names (model w)) →
  Forall (λ n, n ∈ with_std) (model_metric_names (model w)) →
  (length (model_metric_names (model w))
   < length (model_evaluate x y batch_size (model w)))%nat →
  ∃ w' s',
    Trainer_evaluate name x y batch_size verbose w = (OK tt, w')
    ∧ split_of name (metrics w') = Some s'
    ∧ store_for (model_metric_names (model w)) s'
    ∧ (∀ n, n ∈ "loss" :: model_metric_names (model w) →
            length (history s' n) = S (length (history s n)))
    ∧ (∀ r, model_evaluate x y batch_size (model w) !! 0%nat = Some r →
            last (history s' "loss") = Some (nanmean [r]))
    ∧ (∀ j n r, model_metric_names (model w) !! j = Some n →
                model_evaluate x y batch_size (model w) !! S j = Some r →
                last (history s' n) = Some (nanmean [r])
                ∧ last (history s' (n +:+ "_std")) = Some (nanstd [r]))
    ∧ model w' = model w ∧ optimizer w' = optimizer w
    ∧ length (stdout w')
      = (length (stdout w)
         + (if verbose then S (length (model_metric_names (model w))) else 0))%nat.
Proof.
  set (names := model_metric_names (model w)).
  set (results := model_evaluate x y batch_size (model w)).
  intros Hsplit Hstore Hnodup Hstd Hlen.
  rewrite Forall_forall in Hstd.
  assert ("loss" ∉ names) as Hloss.
  { intros Hin. apply Hstd in Hin. unfold with_std in Hin.
    repeat (inversion_clear Hin as [| ? ? ? Hin']; rename Hin' into Hin). }
  destruct (build_metric_dic_OK names results 0 [])
    as (dic & Hdic & Hdnodup & Hkeys & _ & Hvals);
    [simpl; lia | apply NoDup_nil_2 |].
  destruct (lookup_lt_is_Some_2 results 0) as [r0 Hr0]; [lia |].
  rewrite (Trainer_evaluate_run name x y batch_size verbose w dic r0) by done.
  (* the loss *)
  destruct (TrainMetrics_update_split name [("loss", [r0])] (metrics w) s Hsplit)
    as [Hout1 Hsplit1].
  set (s1 := (MonitorMetrics_update [("loss", [r0])] s).2) in *.
  assert ((MonitorMetrics_update [("loss", [r0])] s).1 = OK tt) as Hok1.
  { apply update_OK. unfold kw_keys. simpl. apply Forall_cons.
    split; [| by apply Forall_nil].
    split; [by eapply store_for_loss | by left]. }
  assert (NoDup (kw_keys [("loss", [r0])])) as Hnd1 by apply NoDup_singleton.
  pose proof (store_for_update names [("loss", [r0])] s Hstore) as Hstore1.
  fold s1 in Hstore1. rewrite Hok1 in Hout1.
  destruct (TrainMetrics_update name [("loss", [r0])] (metrics w))
    as [r1 tm1]; cbn [fst snd] in *. subst r1.
  (* the metrics *)
  destruct (TrainMetrics_update_split name dic tm1 s1 Hsplit1)
    as [Hout2 Hsplit2].
  set (s2 := (MonitorMetrics_update dic s1).2) in *.
  assert (∀ n, n ∈ kw_keys dic ↔ n ∈ names) as Hkeys'.
  { intros n. rewrite Hkeys. unfold kw_keys. simpl. rewrite elem_of_nil. tauto. }
  assert ((MonitorMetrics_update dic s1).1 = OK tt) as Hok2.
  { apply update_OK. apply Forall_forall. intros n Hn%Hkeys'.
    by apply (store_for_accepts names); [| | apply Hstd]. }
  pose proof (store_for_update names dic s1 Hstore1) as Hstore2.
  fold s2 in Hstore2. rewrite Hok2 in Hout2.
  destruct (TrainMetrics_update name dic tm1) as [r2 tm2]; cbn [fst snd] in *.
  subst r2.
  (* lengths and values *)
  assert (∀ n, n ∈ "loss" :: names → n ∈ recognized) as Hrec.
  { intros n [-> | Hn]%elem_of_cons.
    - unfold recognized. apply list_elem_of_here.
    - by apply Hstd, with_std_recognized in Hn as [? _]. }
  assert (∀ n, n ∈ "loss" :: names →
            length (history s2 n) = S (length (history s n))) as Hlen2.
  { intros n Hn. pose proof (Hrec n Hn) as Hn'.
    unfold s2. rewrite (update_length dic s1 n) by done.
    unfold s1. rewrite (update_length [("loss", [r0])] s n) by done.
    apply elem_of_cons in Hn as [-> | Hn].
    - rewrite decide_True by apply list_elem_of_here.
      rewrite decide_False by (by rewrite Hkeys'). lia.
    - rewrite decide_False.
      + rewrite decide_True by (by rewrite Hkeys'). lia.
      + unfold kw_keys. simpl. intros [-> | []%elem_of_nil]%elem_of_cons. done. }
  assert (∀ n, n ∈ names →
            length (history s2 (n +:+ "_std"))
            = S (length (history s (n +:+ "_std")))) as Hlen_std.
  { intros n Hn. pose proof (Hrec n (list_elem_of_further _ _ _ Hn)) as Hn'.
    assert (n ≠ "loss") as Hne by (by intros ->).
    destruct Hstore as [_ Hdom]. destruct Hstore1 as [_ Hdom1].
    unfold s2. rewrite (update_std_length ("loss" :: names) dic s1 n) by done.
    unfold s1.
    rewrite (update_std_length ("loss" :: names) [("loss", [r0])] s n) by done.
    rewrite decide_False.
    + rewrite decide_True by (by rewrite Hkeys'). lia.
    + unfold kw_keys. simpl. intros [-> | []%elem_of_nil]%elem_of_cons. done. }
  assert (Forall (printable s2) (metric_names s2)) as Hprintable.
  { destruct Hstore2 as [-> _]. apply Forall_forall. intros n Hn. split.
    - eapply history_length_nonempty. by apply Hlen2.
    - apply elem_of_cons in Hn as [-> | Hn]; [by left | right].
      eapply history_length_nonempty. by apply Hlen_std. }
  assert (∃ w', (if verbose
                 then Trainer_print_metrics name (set_metrics tm2 w)
                 else (OK tt, set_metrics tm2 w)) = (OK tt, w')
                ∧ metrics w' = tm2 ∧ model w' = model w
                ∧ optimizer w' = optimizer w
                ∧ length (stdout w')
                  = (length (stdout w)
                     + (if verbose then S (length names) else 0))%nat)
    as (w' & -> & Hm & Hmodel & Hopt & Hout).
  { destruct verbose.
    - rewrite Trainer_print_metrics_run. cbn [metrics set_metrics].
      rewrite (TrainMetrics_print_split name tm2 s2) by done.
      destruct (print_lines_outcome s2 name (metric_names s2))
        as (Hok & _ & Hcount).
      apply Hok in Hprintable. unfold MonitorMetrics_print.
      rewrite Hprintable. eexists. split; [reflexivity |].
      split_and!; try done. simpl.
      rewrite length_app, length_fmap, (Hcount Hprintable).
      destruct Hstore2 as [-> _]. done.
    - eexists. split; [reflexivity |]. split_and!; try done; simpl; lia. }
  exists w', s2. split; [done |]. rewrite Hm.
  split; [done |]. split; [done |]. split; [done |]. split; [| split; [| done]].
  - intros r Hr. rewrite Hr0 in Hr. injection Hr as <-.
    destruct Hstore as [_ Hdom]. destruct Hstore1 as [_ Hdom1].
    destruct (update_untouched ("loss" :: names) dic s1 "loss") as [Hsame _];
      [done | done | by apply Hrec, list_elem_of_here | by rewrite Hkeys' |].
    fold s2 in Hsame. rewrite Hsame.
    by destruct (update_records ("loss" :: names) [("loss", [r0])] s "loss" [r0]
                   Hdom Hok1 Hnd1 (list_elem_of_here _ _)).
  - intros j n r Hj Hr.
    destruct Hstore1 as [_ Hdom1].
    destruct (update_records ("loss" :: names) dic s1 n [r] Hdom1 Hok2 Hdnodup)
      as [Hmean Hdev].
    { by apply (Hvals Hnodup j). }
    split; [done |]. apply Hdev. intros ->.
    apply Hloss. by eapply list_elem_of_lookup_2.
Qed.

End EvaluateFacts.


(** ** Trainer.train_epoch with shuffling on *)

Lemma chunks_concat {A} (fuel n : nat) (l : list A) :
  (1 ≤ n)%nat → (length l ≤ fuel)%nat → concat (chunks fuel n l) = l.
Proof.
  intros Hn. revert l. induction fuel as [|fuel IH]; intros l Hlen.
  { destruct l; [done | simpl in Hlen; lia]. }
  destruct l as [|a l]; [done |].
  change (chunks (S fuel) n (a :: l))
    with (take n (a :: l) :: chunks fuel n (drop n (a :: l))).
  rewrite concat_cons, IH; [apply take_drop |].
  rewrite length_drop. simpl in *. lia.
Qed.

Lemma chunks_length {A B} (fuel n : nat) (l : list A) (l' : list B) :
  length l = length l' →
  length (chunks fuel n l) = length (chunks fuel n l').
Proof.
  revert l l'. induction fuel as [|fuel IH]; intros l l' Hlen; [done |].
  destruct l as [|a l], l' as [|b l']; try done.
  change (chunks (S fuel) n (a :: l))
    with (take n (a :: l) :: chunks fuel n (drop n (a :: l))).
  change (chunks (S fuel) n (b :: l'))
    with (take n (b :: l') :: chunks fuel n (drop n (b :: l'))).
  simpl length. f_equal. apply IH. by rewrite !length_drop, Hlen.
Qed.

Lemma dataset_batch_concat {A} (batch_size : Z) (l : list A) :
  1 ≤ batch_size → concat (dataset_batch batch_size l) = l.
Proof. intros Hb. apply chunks_concat; lia. Qed.

Lemma dataset_batch_nil {A} (batch_size : Z) (l : list A) :
  dataset_batch batch_size l = [] ↔ l = [].
Proof.
  unfold dataset_batch. destruct l as [|a l]; [done |]. by simpl.
Qed.

Lemma dataset_batch_length {A B} (batch_size : Z) (l : list A) (l' : list B) :
  length l = length l' →
  length (dataset_batch batch_size l) = length (dataset_batch batch_size l').
Proof. intros Hlen. unfold dataset_batch. rewrite Hlen. by apply chunks_length. Qed.

Lemma concat_fmap_snd {A B} (batches : list (list (A * B))) :
  concat ((λ b : list (A * B), b.*2) <$> batches) = (concat batches).*2.
Proof.
  induction batches as [|b batches IH]; [done |].
  by rewrite fmap_cons, !concat_cons, IH, fmap_app.
Qed.

Section TrainEpochFacts.
Context {Model Rng X Y Pred : Type}.
Context `{Numpy} `{Printf} `{Clock}.
Context `{!Keras Model X Y Pred} `{!TfData Rng (X * Y)}.
Implicit Type w : World Model Rng.

Lemma progress_bar_frame (iter num_batches : Z) (start_time : Q)
    (bar_length : Z) (kw : kwargs Q) w :
  bookkeeping (progress_bar iter num_batches start_time bar_length kw w).2
  = bookkeeping w
  ∧ rng (progress_bar iter num_batches start_time bar_length kw w).2 = rng w
  ∧ model (progress_bar iter num_batches start_time bar_length kw w).2 = model w.
Proof.
  unfold progress_bar, time_time, stdout_write.
  unfold mbind, M_bind, bind, gets, modify, raise, mret, M_ret, ret.
  destruct (decide (num_batches = 0)); [done |].
  destruct (decide (iter = num_batches)); [done |].
  by destruct (decide (iter + 1 = 0)).
Qed.

Lemma Trainer_train_step_run (x : list X) (y : list Y) w :
  Trainer_train_step x y w
  = (OK ((model_train_step (optimizer w) x y (model w)).1.1,
         (model_train_step (optimizer w) x y (model w)).1.2),
     set_model (model_train_step (optimizer w) x y (model w)).2 w).
Proof.
  unfold Trainer_train_step, mbind, M_bind, bind, get.
  by destruct (model_train_step (optimizer w) x y (model w)) as [[loss p] m].
Qed.

Lemma train_loop_frame (batches : list (list X * list Y)) (i num_batches : Z)
    (start_time : Q) (verbose : bool) (acc : EpochAcc) w :
  bookkeeping (train_loop i batches num_batches start_time verbose acc w).2
  = bookkeeping w
  ∧ rng (train_loop i batches num_batches start_time verbose acc w).2 = rng w.
Proof.
  revert i acc w. induction batches as [|[x y] batches IH]; intros i acc w;
    [done |].
  cbn [train_loop]. rewrite bind_run, Trainer_train_step_run.
  rewrite bind_run.
  destruct verbose.
  - match goal with
    | |- context [progress_bar ?a ?b ?c ?d ?e ?w1] =>
        pose proof (progress_bar_frame a b c d e w1) as (Hb & Hr & _);
        destruct (progress_bar a b c d e w1) as [[[] | e'] w2]
    end; cbn [fst snd] in *.
    + match goal with
      | |- context [train_loop ?i' batches _ _ _ ?a ?w'] =>
          destruct (IH i' a w') as [-> ->]
      end. by rewrite Hb, Hr.
    + by rewrite Hb, Hr.
  - unfold mret, M_ret, ret.
    match goal with
    | |- context [train_loop ?i' batches _ _ _ ?a ?w'] =>
        by destruct (IH i' a w') as [-> ->]
    end.
Qed.

Lemma dataset_iterate_run (ds : BatchDataset (X * Y)) w :
  dataset_iterate ds w
  = (OK ((λ b : list (X * Y), (b.*1, b.*2))
           <$> dataset_batch (buffer_and_batch_size ds)
                 (dataset_shuffle (buffer_and_batch_size ds) (source ds) (rng w)).1),
     set_rng (dataset_shuffle (buffer_and_batch_size ds) (source ds) (rng w)).2 w).
Proof.
  unfold dataset_iterate, mbind, M_bind, bind, get.
  by destruct (dataset_shuffle _ _ _).
Qed.

(** [train_epoch] with shuffling on and a positive batch size, step by
    step: one pass over the pipeline to count the batches, a reading of
    the clock, a second pass that is trained on. *)
Lemma train_epoch_shuffled (trainset : list (X * Y)) (batch_size : Z)
    (verbose : bool) w :
  ¬ batch_size ≤ 0 →
  Trainer_train_epoch trainset true batch_size verbose w
  = let ds := mkBatchDataset trainset batch_size in
    let pass1 := dataset_iterate ds w in
    let clock := time_time pass1.2 in
    let pass2 := dataset_iterate ds clock.2 in
    match pass1.1, clock.1, pass2.1 with
    | OK all, OK start_time, OK batches =>
        match train_loop 0 batches (Z.of_nat (length all)) start_time verbose
                {| running_loss := 0%Q; pred_batch := []; y_batch := [];
                   last_i := None |} pass2.2 with
        | (Raise e, w') => (Raise e, w')
        | (OK acc, w') =>
            match np_concatenate (pred_batch acc) with
            | Raise e => (Raise e, w')
            | OK pred =>
                match np_concatenate (y_batch acc) with
                | Raise e => (Raise e, w')
                | OK y =>
                    match last_i acc with
                    | None => (Raise (UnboundLocalError "i"), w')
                    | Some i =>
                        (OK ((running_loss acc / inject_Z (i + 1))%Q, pred, y), w')
                    end
                end
            end
        end
    | _, _, _ => (Raise ValueError, w)
    end.
Proof.
  intros Hb.
  unfold Trainer_train_epoch, shuffle_batch, local_var, time_time, lift_result.
  unfold mbind, M_bind, bind, mret, M_ret, ret, gets, modify.
  rewrite decide_False by done. cbv zeta.
  rewrite !dataset_iterate_run. cbn [fst snd].
  rewrite ?dataset_iterate_run. cbn [fst snd].
  match goal with
  | |- context [train_loop ?i ?b ?n ?t ?v ?a ?w1] =>
      destruct (train_loop i b n t v a w1) as [[acc | e] w2]
  end; [| done].
  destruct (np_concatenate (pred_batch acc)); [| done].
  destruct (np_concatenate (y_batch acc)); [| done].
  by destruct (last_i acc).
Qed.

Lemma train_epoch_frame (trainset : list (X * Y))
    (shuffle : bool) (batch_size : Z) (verbose : bool) (w : World Model Rng) :
  bookkeeping (Trainer_train_epoch trainset shuffle batch_size verbose w).2
  = bookkeeping w.
Proof.
  destruct shuffle; [| done].
  destruct (decide (batch_size ≤ 0)) as [Hb | Hb].
  { unfold Trainer_train_epoch, shuffle_batch. rewrite bind_run, bind_run.
    by rewrite decide_True. }
  rewrite train_epoch_shuffled by done. cbv zeta.
  rewrite !dataset_iterate_run. cbn [fst snd].
  unfold time_time, mbind, M_bind, gets, modify, bind, mret, M_ret, ret.
  cbn [fst snd].
  match goal with
  | |- context [train_loop ?i ?b ?n ?t ?v ?a ?w1] =>
      pose proof (train_loop_frame b i n t v a w1) as [Hbooks _];
      destruct (train_loop i b n t v a w1) as [[acc | e] w2]
  end; cbn [fst snd] in Hbooks;
    change (bookkeeping w2 = bookkeeping w) in Hbooks; [| exact Hbooks].
  destruct (np_concatenate (pred_batch acc)); [| exact Hbooks].
  destruct (np_concatenate (y_batch acc)); [| exact Hbooks].
  destruct (last_i acc); exact Hbooks.
Qed.

(** [train_epoch] trains and reports, nothing more: whatever its inputs
    and however it ends, it leaves the metric store, the decay record and
    the optimizer's learning rate as they were. In particular no training
    metric is ever recorded in the "train" split. *)
Theorem Trainer_train_epoch_keeps_books (trainset : list (X * Y))
    (shuffle : bool) (batch_size : Z) (verbose : bool) (w : World Model Rng) :
  bookkeeping (Trainer_train_epoch trainset shuffle batch_size verbose w).2
  = bookkeeping w.
Proof. apply train_epoch_frame. Qed.

(** The loop over the batches when the bar cannot divide by zero. *)
Lemma train_loop_run (batches : list (list X * list Y)) (i num_batches : Z)
    (start_time : Q) (verbose : bool) (acc : EpochAcc) w :
  num_batches ≠ 0 → 0 ≤ i →
  ∃ acc' w',
    train_loop i batches num_batches start_time verbose acc w = (OK acc', w')
    ∧ y_batch acc' = y_batch acc ++ batches.*2
    ∧ length (pred_batch acc') = (length (pred_batch acc) + length batches)%nat
    ∧ last_i acc'
      = (if batches is [] then last_i acc
         else Some (i + Z.of_nat (length batches) - 1))
    ∧ length (stdout w')
      = (length (stdout w) + (if verbose then length batches else 0))%nat.
Proof.
  intros Hn. revert i acc w.
  induction batches as [|[x y] batches IH]; intros i acc w Hi.
  { exists acc, w. simpl. rewrite app_nil_r.
    split_and!; try done; destruct verbose; lia. }
  cbn [train_loop]. rewrite bind_run, Trainer_train_step_run. rewrite bind_run.
  set (acc1 := mkEpochAcc _ _ _ _).
  set (w1 := set_model _ w).
  assert (∃ w2, (if verbose
                 then progress_bar (i + 1) num_batches start_time 30
                        [("loss", (running_loss acc1 / inject_Z (i + 1))%Q)]
                 else mret ()) w1 = (OK tt, w2)
                ∧ length (stdout w2)
                  = (length (stdout w) + (if verbose then 1 else 0))%nat)
    as (w2 & -> & Hout).
  { destruct verbose.
    - destruct (progress_bar_run (i + 1) num_batches start_time 30
                  [("loss", (running_loss acc1 / inject_Z (i + 1))%Q)] w1)
        as [rest ->]; [done | right; lia |].
      eexists. split; [done |]. simpl. rewrite length_app. simpl. lia.
    - exists w1. split; [done |]. simpl. lia. }
  destruct (IH (i + 1) acc1 w2) as (acc' & w' & -> & Hy & Hp & Hlast & Hout');
    [lia |].
  exists acc', w'. split; [done |]. subst acc1. simpl in *. split_and!.
  - by rewrite Hy, <- app_assoc.
  - rewrite Hp, length_app. simpl. lia.
  - rewrite Hlast. destruct batches; [f_equal; simpl; lia |].
    f_equal. simpl length. lia.
  - rewrite Hout', Hout. destruct verbose; lia.
Qed.

Section Shuffled.
Hypothesis shuffle_permutes :
  ∀ (buffer : Z) (l : list (X * Y)) (g : Rng), (dataset_shuffle buffer l g).1 ≡ₚ l.

(** With a shuffle that permutes its input, a positive batch size and a
    non-empty training set, [train_epoch] returns: the targets it hands
    back are those of the whole training set, each exactly once, in the
    order of the pass it trained on (the second shuffle, since the first
    pass only counts the batches), and with [verbose] it writes one
    progress line per batch. *)
Theorem Trainer_train_epoch_targets (trainset : list (X * Y))
    (batch_size : Z) (verbose : bool) (w : World Model Rng) :
  1 ≤ batch_size → trainset ≠ [] →
  ∃ loss pred y w',
    Trainer_train_epoch trainset true batch_size verbose w
    = (OK (loss, pred, y), w')
    ∧ y = (dataset_shuffle batch_size trainset
             (dataset_shuffle batch_size trainset (rng w)).2).1.*2
    ∧ y ≡ₚ trainset.*2
    ∧ rng w'
      = (dataset_shuffle batch_size trainset
           (dataset_shuffle batch_size trainset (rng w)).2).2
    ∧ length (stdout w')
      = (length (stdout w)
         + (if verbose then length (dataset_batch batch_size trainset) else 0))%nat.
Proof.
  intros Hb Hne. rewrite train_epoch_shuffled by lia. cbv zeta.
  rewrite !dataset_iterate_run. cbn [fst snd].
  unfold time_time, mbind, M_bind, gets, modify, bind, mret, M_ret, ret.
  cbn [fst snd]. cbn [rng set_rng set_ticks buffer_and_batch_size source].
  set (pass1 := dataset_shuffle batch_size trainset (rng w)).
  set (pass2 := dataset_shuffle batch_size trainset pass1.2).
  rewrite length_fmap.
  assert (length (dataset_batch batch_size pass1.1)
          = length (dataset_batch batch_size trainset)) as Hcount1.
  { apply dataset_batch_length, Permutation_length, shuffle_permutes. }
  assert (length (dataset_batch batch_size pass2.1)
          = length (dataset_batch batch_size trainset)) as Hcount2.
  { apply dataset_batch_length, Permutation_length, shuffle_permutes. }
  assert (length (dataset_batch batch_size trainset) ≠ 0%nat) as Hsome.
  { intros Hnil%length_zero_iff_nil. by apply dataset_batch_nil in Hnil. }
  match goal with
  | |- context [train_loop ?i ?b ?n ?t ?v ?a ?w1] =>
      pose proof (train_loop_frame b i n t v a w1) as [_ Hrng];
      destruct (train_loop_run b i n t v a w1)
        as (acc & w' & Hrun & Hy & Hp & Hlast & Hout); [lia | lia |];
      rewrite Hrun in Hrng |- *
  end.
  cbn [fst snd rng set_ticks set_rng] in Hrng.
  simpl in Hy, Hp, Hout. rewrite length_fmap, Hcount2 in *.
  assert (concat (y_batch acc) = pass2.1.*2) as Hcat.
  { rewrite Hy, <- list_fmap_compose.
    change (concat ((λ b : list (X * Y), b.*2)
                    <$> dataset_batch batch_size pass2.1) = pass2.1.*2).
    by rewrite concat_fmap_snd, dataset_batch_concat. }
  destruct (pred_batch acc) as [|p ps] eqn:Hpred; [simpl in Hp; lia |].
  destruct (y_batch acc) as [|y0 ys] eqn:Hys.
  { symmetry in Hy. apply fmap_nil_inv, fmap_nil_inv in Hy.
    rewrite Hy in Hcount2. simpl in Hcount2. lia. }
  destruct (dataset_batch batch_size pass2.1) as [|b bs] eqn:Hbatches;
    [simpl in Hcount2; lia |].
  cbn [fmap list_fmap] in Hlast. rewrite Hlast. cbn [np_concatenate].
  eexists _, _, _, _. split; [reflexivity |].
  split; [exact Hcat |]. split; [| split; [exact Hrng | exact Hout]].
  rewrite Hcat. apply fmap_Permutation, shuffle_permutes.
Qed.

(** An empty training set cannot be trained on: with a shuffle that
    permutes its input and a positive batch size, [train_epoch] on no
    samples raises the value error of concatenating no arrays, having
    trained nothing and written nothing. *)
Theorem Trainer_train_epoch_empty (batch_size : Z) (verbose : bool)
    (w : World Model Rng) :
  1 ≤ batch_size →
  (Trainer_train_epoch [] true batch_size verbose w).1 = Raise ValueError
  ∧ model (Trainer_train_epoch [] true batch_size verbose w).2 = model w
  ∧ stdout (Trainer_train_epoch [] true batch_size verbose w).2 = stdout w.
Proof.
  intros Hb. rewrite train_epoch_shuffled by lia. cbv zeta.
  rewrite !dataset_iterate_run. cbn [fst snd].
  unfold time_time, mbind, M_bind, gets, modify, bind, mret, M_ret, ret.
  cbn [fst snd]. cbn [rng set_rng set_ticks buffer_and_batch_size source].
  assert (∀ g, (dataset_shuffle batch_size [] g).1 = []) as Hnil.
  { intros g. apply Permutation_nil_r. apply shuffle_permutes. }
  rewrite !Hnil. done.
Qed.
End Shuffled.
End TrainEpochFacts.

(** ** fit_lr_decay: epoch budget, shuffling off, an untracked metric, no patience *)

Lemma filter_unique {A} (P : A → Prop) `{∀ a, Decision (P a)} (l : list A) :
  NoDup l → (∀ a b, P a → P b → a = b) → (length (filter P l) ≤ 1)%nat.
Proof.
  intros Hnodup Hone. induction l as [|a l IH]; [simpl; lia |].
  apply NoDup_cons in Hnodup as [Hfresh Hnodup]. specialize (IH Hnodup).
  rewrite filter_cons. destruct (decide (P a)) as [Ha |]; [| done].
  destruct (filter P l) as [|b rest] eqn:Hrest; [simpl; lia |].
  assert (b ∈ filter P l) as Hb by (rewrite Hrest; apply list_elem_of_here).
  apply list_elem_of_filter in Hb as [Hb Hin].
  by rewrite (Hone a b Ha Hb) in Hfresh.
Qed.

(** "loss" is the "_std" key of no metric. *)
Lemma loss_is_no_std_key (l : list string) :
  filter (λ n, n ≠ "loss" ∧ n +:+ "_std" = "loss") l = [].
Proof.
  induction l as [|n l IH]; [done |].
  rewrite filter_cons, decide_False; [done |]. intros [_ Hn].
  apply (f_equal String.length) in Hn as Hlen.
  rewrite string_length_app in Hlen. simpl in Hlen.
  assert (n = "") as -> by (destruct n; [done | simpl in Hlen; lia]).
  by vm_compute in Hn.
Qed.

Section FitFacts.
Context {Model Rng X Y Pred : Type}.
Context `{Numpy} `{Printf} `{Clock}.
Context `{!Keras Model X Y Pred} `{!TfData Rng (X * Y)}.
Implicit Type w : World Model Rng.

Lemma TrainMetrics_update_valid_dom (name : string) (kw : kwargs (list Q))
    (tm : TrainMetrics) :
  dom (value (valid (TrainMetrics_update name kw tm).2)) = dom (value (valid tm)).
Proof.
  unfold TrainMetrics_update, zoom.
  destruct (decide (name = "train")).
  { by destruct (MonitorMetrics_update kw (train tm)). }
  destruct (decide (name = "valid")).
  { pose proof (update_dom kw (valid tm)) as Hdom.
    by destruct (MonitorMetrics_update kw (valid tm)). }
  destruct (decide (name = "test")); [| done].
  by destruct (MonitorMetrics_update kw (test tm)).
Qed.

(** [evaluate] never adds a key to the validation store nor removes one. *)
Lemma Trainer_evaluate_valid_dom (name : string) (x : list X) (y : list Y)
    (batch_size : Z) (verbose : bool) w :
  dom (value (valid (metrics (Trainer_evaluate name x y batch_size verbose w).2)))
  = dom (value (valid (metrics w))).
Proof.
  unfold Trainer_evaluate. rewrite bind_run. unfold gets at 1. cbn [fst snd].
  rewrite bind_run. unfold gets at 1. cbn [fst snd].
  rewrite bind_run. unfold lift_result at 1.
  destruct (build_metric_dic 0 _ _ []) as [dic | e]; [| done].
  rewrite bind_run. unfold lift_result at 1.
  destruct (list_get _ 0) as [loss | e]; [| done].
  rewrite bind_run, zoom_metrics_run.
  pose proof (TrainMetrics_update_valid_dom name [("loss", [loss])] (metrics w))
    as Hdom1.
  destruct (TrainMetrics_update name [("loss", [loss])] (metrics w))
    as [[[] | e] tm1]; cbn [fst snd] in *; [| done].
  rewrite bind_run, zoom_metrics_run. cbn [metrics set_metrics].
  pose proof (TrainMetrics_update_valid_dom name dic tm1) as Hdom2.
  destruct (TrainMetrics_update name dic tm1) as [[[] | e] tm2];
    cbn [fst snd] in *; [| simpl; congruence].
  destruct verbose; [| simpl; congruence].
  rewrite Trainer_print_metrics_run. simpl. congruence.
Qed.

(** *** How much one evaluation can add to a history *)

Lemma history_append_growth (key : string) (x : pyfloat)
    (self : MonitorMetrics) (k : string) :
  (length (history (history_append key x self).2 k)
   ≤ length (history self k) + (if decide (key = k) then 1 else 0))%nat.
Proof.
  destruct (value self !! key) as [h |] eqn:Hh.
  - rewrite (history_append_Some key x self h Hh). unfold history. simpl.
    rewrite default_insert. destruct (decide (k = key)) as [-> |].
    + rewrite decide_True by done. rewrite Hh, length_app. simpl. lia.
    + rewrite decide_False by done. lia.
  - rewrite (history_append_None key x self Hh). simpl. lia.
Qed.

Lemma update_one_growth (n : string) (vals : list Q) (self : MonitorMetrics)
    (k : string) :
  (length (history (MonitorMetrics_update_one (n, vals) self).2 k)
   ≤ length (history self k)
     + (if decide (n = k) then 1 else 0)
     + (if decide (n ≠ "loss" ∧ n +:+ "_std" = k) then 1 else 0))%nat.
Proof.
  unfold MonitorMetrics_update_one. rewrite bind_run.
  pose proof (history_append_growth n (nanmean vals) self k) as Hmean.
  destruct (history_append n (nanmean vals) self) as [[[] | e] s1];
    cbn [fst snd] in *; [| lia].
  destruct (decide (n ≠ "loss")) as [Hn | Hn].
  - pose proof (history_append_growth (n +:+ "_std") (nanstd vals) s1 k)
      as Hstd.
    destruct (decide (n +:+ "_std" = k)).
    + rewrite (decide_True (P := n ≠ "loss" ∧ _)) by done. lia.
    + lia.
  - simpl. lia.
Qed.

Lemma update_growth (kw : kwargs (list Q)) (self : MonitorMetrics)
    (k : string) :
  (length (history (MonitorMetrics_update kw self).2 k)
   ≤ length (history self k)
     + length (filter (λ n, n = k) (kw_keys kw))
     + length (filter (λ n, n ≠ "loss" ∧ n +:+ "_std" = k) (kw_keys kw)))%nat.
Proof.
  unfold MonitorMetrics_update. revert self.
  induction kw as [|[n vals] kw IH]; intros self; [simpl; lia |].
  rewrite for_each_cons.
  pose proof (update_one_growth n vals self k) as Hone.
  unfold kw_keys in *. rewrite fmap_cons, !filter_cons. cbn [fst].
  destruct (MonitorMetrics_update_one (n, vals) self) as [[[] | e] s1];
    cbn [fst snd] in *.
  - specialize (IH s1).
    destruct (decide (n = k)), (decide (n ≠ "loss" ∧ n +:+ "_std" = k));
      simpl; lia.
  - destruct (decide (n = k)), (decide (n ≠ "loss" ∧ n +:+ "_std" = k));
      simpl; lia.
Qed.

Lemma update_growth_distinct (kw : kwargs (list Q)) (self : MonitorMetrics)
    (k : string) :
  NoDup (kw_keys kw) →
  (length (history (MonitorMetrics_update kw self).2 k)
   ≤ length (history self k) + (if decide (k = "loss") then 1 else 2))%nat.
Proof.
  intros Hnodup. pose proof (update_growth kw self k) as Hgrowth.
  pose proof (filter_unique (λ n, n = k) (kw_keys kw) Hnodup) as Hname.
  pose proof (filter_unique (λ n, n ≠ "loss" ∧ n +:+ "_std" = k) (kw_keys kw)
                Hnodup) as Hstd.
  assert (length (filter (λ n, n = k) (kw_keys kw)) ≤ 1)%nat as Hname'
    by (apply Hname; congruence).
  assert (length (filter (λ n, n ≠ "loss" ∧ n +:+ "_std" = k) (kw_keys kw))
          ≤ 1)%nat as Hstd'.
  { apply Hstd. intros a b [_ Ha] [_ Hb].
    apply (string_app_inj_r "_std"). congruence. }
  destruct (decide (k = "loss")) as [-> |]; [| lia].
  assert (filter (λ n, n ≠ "loss" ∧ n +:+ "_std" = "loss") (kw_keys kw) = [])
    as Hnone.
  { apply loss_is_no_std_key. }
  rewrite Hnone in Hgrowth. simpl in Hgrowth. lia.
Qed.

Lemma build_metric_dic_NoDup (names : list string) (results : list Q)
    (i : nat) (dic dic' : kwargs (list Q)) :
  build_metric_dic i names results dic = OK dic' →
  NoDup (kw_keys dic) → NoDup (kw_keys dic').
Proof.
  revert i dic. induction names as [|n names IH]; intros i dic Hrun Hnodup.
  { by injection Hrun as <-. }
  simpl in Hrun. destruct (list_get results (S i)) as [r | e]; [| done].
  eapply IH; [done |]. by apply kw_set_NoDup.
Qed.

Lemma TrainMetrics_update_valid (kw : kwargs (list Q)) (tm : TrainMetrics) :
  valid (TrainMetrics_update "valid" kw tm).2
  = (MonitorMetrics_update kw (valid tm)).2.
Proof.
  unfold TrainMetrics_update, zoom. rewrite decide_False, decide_True by done.
  by destruct (MonitorMetrics_update kw (valid tm)).
Qed.

(** One evaluation that returns adds two entries at most to any history
    of the validation store. *)
Lemma Trainer_evaluate_growth (x : list X) (y : list Y) (batch_size : Z)
    (verbose : bool) w w' (k : string) :
  Trainer_evaluate "valid" x y batch_size verbose w = (OK tt, w') →
  (length (history (valid (metrics w')) k)
   ≤ length (history (valid (metrics w)) k) + 2)%nat.
Proof.
  intros Hrun.
  destruct (build_metric_dic 0 (model_metric_names (model w))
              (model_evaluate x y batch_size (model w)) [])
    as [dic | e] eqn:Hdic.
  2: { unfold Trainer_evaluate in Hrun.
       unfold mbind, M_bind, bind, gets, lift_result in Hrun.
       by rewrite Hdic in Hrun. }
  destruct (model_evaluate x y batch_size (model w) !! 0%nat)
    as [loss |] eqn:Hloss.
  2: { unfold Trainer_evaluate in Hrun.
       unfold mbind, M_bind, bind, gets, lift_result, list_get in Hrun.
       by rewrite Hdic, Hloss in Hrun. }
  rewrite (Trainer_evaluate_run "valid" x y batch_size verbose w dic loss)
    in Hrun by done.
  apply build_metric_dic_NoDup in Hdic; [| apply NoDup_nil_2].
  pose proof (TrainMetrics_update_valid [("loss", [loss])] (metrics w)) as Hv1.
  destruct (TrainMetrics_update "valid" [("loss", [loss])] (metrics w))
    as [[[] | e] tm1]; [| done]. cbn [snd] in Hv1.
  pose proof (TrainMetrics_update_valid dic tm1) as Hv2.
  destruct (TrainMetrics_update "valid" dic tm1) as [[[] | e] tm2]; [| done].
  cbn [snd] in Hv2.
  assert (metrics w' = tm2) as ->.
  { destruct verbose.
    - rewrite Trainer_print_metrics_run in Hrun. by injection Hrun as _ <-.
    - by injection Hrun as <-. }
  rewrite Hv2.
  pose proof (update_growth_distinct dic (valid tm1) k Hdic) as Hmetrics.
  pose proof (update_growth [("loss", [loss])] (valid (metrics w)) k) as Hone.
  rewrite <- Hv1 in Hone.
  unfold kw_keys in Hone. cbn [fmap list_fmap fst] in Hone.
  rewrite !filter_cons, !filter_nil in Hone.
  rewrite (decide_False (P := "loss" ≠ "loss" ∧ _)) in Hone by tauto.
  destruct (decide (k = "loss")) as [-> |].
  - rewrite decide_True in Hone by done. simpl in Hone. lia.
  - rewrite decide_False in Hone by congruence. simpl in Hone. lia.
Qed.

(** [check_lr_decay] leaves the metric store alone. *)
Lemma Trainer_check_lr_decay_metrics (val : pyfloat) w :
  metrics (Trainer_check_lr_decay val w).2 = metrics w.
Proof.
  unfold Trainer_check_lr_decay. rewrite bind_run. unfold gets at 1.
  cbn [fst snd]. destruct (lr_decay w) as [self |]; [| done].
  rewrite bind_run. unfold LRDecay_check.
  destruct (LRDecay_status val self) as [[[|] | e] self1]; [| done | done].
  rewrite bind_run. unfold LRDecay_decay_learning_rate.
  rewrite bind_run. unfold modify at 1. cbn [fst snd].
  unfold mret, M_ret, ret. rewrite bind_run.
  unfold print, stdout_write, modify. done.
Qed.

Section Epoch.
Variables (trainset : list (X * Y)) (x_valid : list X) (y_valid : list Y).
Variables (batch_size : Z) (shuffle verbose : bool).
Variables (es_patience : Z) (es_metric lr_metric : string).

Local Abbreviation in_order :=
  (epochs_in_order trainset x_valid y_valid batch_size shuffle verbose
     es_patience es_metric lr_metric).

(** Every epoch of the record holds one call of [train_epoch]. *)
Lemma in_order_budget (epochs : list Z) w
    (calls : list (event Model Rng X Y)) (r : result unit) :
  in_order epochs w calls r →
  (train_epoch_calls calls ≤ length epochs)%nat.
Proof.
  revert w calls. induction epochs as [|epoch later IH]; intros w calls.
  { intros [-> _]. done. }
  destruct calls as [|e1 [|e2 [|e3 [|e4 rest]]]]; cbn [epochs_in_order];
    cbv zeta.
  - done.
  - intros [-> _]. simpl. lia.
  - intros (-> & _ & -> & _). simpl. lia.
  - intros (-> & _ & -> & _ & val & _ & -> & _). simpl. lia.
  - intros (-> & _ & -> & _ & val & _ & -> & _ & -> & Hrest).
    cbn [train_epoch_calls made length].
    destruct (Trainer_early_stopping _ es_metric es_patience) as [[|] | x].
    + destruct Hrest as [-> _]. simpl. lia.
    + apply IH in Hrest. lia.
    + destruct Hrest as [-> _]. simpl. lia.
Qed.

(** An epoch that began with empty histories hands its early stopping
    histories of two entries at most: no patience of zero or less, the
    least int64 apart, lets a second epoch follow. *)
Lemma in_order_single_pass (epochs : list Z) w
    (calls : list (event Model Rng X Y)) (r : result unit) :
  (∀ k, history (valid (metrics w)) k = []) →
  es_patience ≤ 0 → es_patience ≠ int64_min →
  in_order epochs w calls r →
  (train_epoch_calls calls ≤ 1)%nat.
Proof.
  intros Hfresh Hpat Hmin.
  destruct epochs as [|epoch later]; [intros [-> _]; simpl; lia |].
  destruct calls as [|e1 [|e2 [|e3 [|e4 rest]]]]; cbn [epochs_in_order];
    cbv zeta.
  - done.
  - intros [-> _]. simpl. lia.
  - intros (-> & _ & -> & _). simpl. lia.
  - intros (-> & _ & -> & _ & val & _ & -> & _). simpl. lia.
  - intros (-> & _ & -> & Hret2 & val & _ & -> & _ & -> & Hrest).
    cbn [train_epoch_calls made].
    rewrite Trainer_check_lr_decay_metrics in Hrest.
    set (w0 := announced epoch w) in *.
    set (w1 := (Trainer_train_epoch trainset shuffle batch_size verbose w0).2)
      in *.
    destruct (Trainer_early_stopping _ es_metric es_patience)
      as [[|] | x] eqn:Hstop.
    + destruct Hrest as [-> _]. simpl. lia.
    + exfalso. clear Hrest.
      destruct (Trainer_evaluate "valid" x_valid y_valid 128 true w1)
        as [r2 w2] eqn:Hrun2. cbn [fst snd] in *. subst r2.
      pose proof (Trainer_evaluate_growth x_valid y_valid 128 true w1 w2
                    es_metric Hrun2) as Hgrowth.
      assert (metrics w1 = metrics w) as Hbooks.
      { pose proof (train_epoch_frame trainset shuffle batch_size verbose w0)
          as Hframe.
        injection Hframe as Hm _ _. exact Hm. }
      rewrite Hbooks, Hfresh in Hgrowth. simpl in Hgrowth.
      set (tm := metrics w2) in *.
      destruct (value (valid tm) !! es_metric) as [vals |] eqn:Hvals.
      2: { unfold Trainer_early_stopping, dict_get in Hstop.
           by rewrite Hvals in Hstop. }
      assert (history (valid tm) es_metric = vals) as Hhist
        by (unfold history; by rewrite Hvals).
      rewrite Hhist in Hgrowth.
      destruct vals as [|v vals].
      { unfold Trainer_early_stopping, dict_get in Hstop.
        rewrite Hvals in Hstop. by case_decide. }
      destruct (early_stopping_any tm es_metric es_patience (v :: vals))
        as (i & Hi & Hrun); [done | done | unfold int64_max; lia |].
      rewrite Hrun in Hstop.
      destruct (decide (int64_min ≤ es_patience ≤ int64_max)); [| done].
      rewrite int64_wrap_id in Hstop
        by (unfold int64_min, int64_max in *; lia).
      rewrite bool_decide_eq_true_2 in Hstop; [done | lia].
    + destruct Hrest as [-> _]. simpl. lia.
Qed.

(** Without a validation history for the learning-rate metric, the first
    epoch ends in an exception before [check_lr_decay]. *)
Lemma in_order_untracked (epoch : Z) (later : list Z) w
    (calls : list (event Model Rng X Y)) (r : result unit) :
  lr_metric ∉ dom (value (valid (metrics w))) →
  in_order (epoch :: later) w calls r →
  (∃ x, r = Raise x)
  ∧ (made <$> calls = [CallTrainEpoch trainset shuffle batch_size verbose]
     ∨ made <$> calls
       = [CallTrainEpoch trainset shuffle batch_size verbose;
          CallEvaluate "valid" x_valid y_valid 128 true]).
Proof.
  intros Hout.
  destruct calls as [|e1 [|e2 [|e3 rest]]]; cbn [epochs_in_order]; cbv zeta.
  - done.
  - intros (-> & x & _ & ->). split; [by eauto | by left].
  - intros (-> & _ & -> & Hend). split; [| by right].
    destruct Hend as [(x & _ & ->) | (_ & _ & [-> | ->])]; eauto.
  - intros (-> & _ & -> & _ & val & (h & Hh & _) & _). exfalso.
    apply Hout. revert Hh.
    set (w0 := announced epoch w).
    set (w1 := (Trainer_train_epoch trainset shuffle batch_size verbose w0).2).
    intros Hh.
    assert (metrics w1 = metrics w) as Hbooks.
    { pose proof (train_epoch_frame trainset shuffle batch_size verbose w0)
        as Hframe.
      injection Hframe as Hm _ _. exact Hm. }
    rewrite <- Hbooks,
      <- (Trainer_evaluate_valid_dom "valid" x_valid y_valid 128 true w1).
    apply elem_of_dom. eauto.
Qed.

(** With shuffling off the pass ends where [train_epoch] does. *)
Lemma fit_epoch_unshuffled (epoch : Z) w (log : list (event Model Rng X Y)) :
  shuffle = false →
  fit_epoch epoch trainset x_valid y_valid batch_size shuffle verbose
    es_patience es_metric lr_metric (w, log)
  = (Raise (UnboundLocalError "batch_dataset"),
     (announced epoch w,
      log ++ [mkEvent (CallTrainEpoch trainset shuffle batch_size verbose)
                (announced epoch w)])).
Proof. by intros ->. Qed.
End Epoch.

Section Run.
Variables (m : Model) (x_train : list X) (y_train : list Y).
Variables (validation_data : list X * list Y) (num_epochs batch_size : Z).
Variables (shuffle verbose : bool) (es_patience : Z) (es_metric : string).
Variables (lr_decay_rate : Q) (lr_patience : Z) (lr_metric : string).

Local Abbreviation run w :=
  (fit_lr_decay m x_train y_train validation_data num_epochs batch_size
     shuffle verbose es_patience es_metric lr_decay_rate lr_patience
     lr_metric (w, [])).

(** The record of a run on a dataset is that of the epoch loop. *)
Lemma fit_lr_decay_in_order w (trainset : list (X * Y)) :
  from_tensor_slices x_train y_train = OK trainset →
  epochs_in_order trainset validation_data.1 validation_data.2 batch_size
    shuffle verbose es_patience es_metric lr_metric (seqZ 0 num_epochs)
    (Trainer_set_lr_decay lr_decay_rate lr_patience lr_metric
       (Trainer_init m w).2).2
    (run w).2.2 (run w).1.
Proof.
  intros Hset.
  rewrite (fit_lr_decay_run_loop _ _ _ _ _ _ _ _ _ _ _ _ _ w trainset Hset).
  match goal with
  | |- context [fit_loop ?eps ?t ?xv ?yv ?b ?s ?v ?p ?em ?lm (?w0, [])] =>
      destruct (fit_loop_in_order t xv yv b s v p em lm eps w0 [])
        as (calls & Hlog & Horder)
  end.
  rewrite Hlog. exact Horder.
Qed.

(** The epoch budget is never exceeded: whatever the data, the model and
    the patience values, a run of [fit_lr_decay] calls [train_epoch] at
    most [num_epochs] times (not at all for a budget of zero or less). *)
Theorem fit_lr_decay_epoch_budget (w : World Model Rng) :
  (train_epoch_calls (run w).2.2 ≤ Z.to_nat num_epochs)%nat.
Proof.
  destruct (from_tensor_slices x_train y_train) as [trainset | e] eqn:Hset.
  - pose proof (fit_lr_decay_in_order w trainset Hset) as Horder.
    apply in_order_budget in Horder. by rewrite length_seqZ in Horder.
  - rewrite (fit_lr_decay_no_trainset _ _ _ _ _ _ _ _ _ _ _ _ _ w e Hset).
    simpl. lia.
Qed.

(** With [shuffle=False] training cannot start: given matching training
    arrays and a budget of at least one epoch, [fit_lr_decay] announces
    epoch 1, makes its one call of [train_epoch] and ends there in the
    unbound-local error for [batch_dataset]; the model is never evaluated
    and no metric is recorded. *)
Theorem fit_lr_decay_without_shuffle (w : World Model Rng) :
  shuffle = false → length x_train = length y_train → 1 ≤ num_epochs →
  (run w).1 = Raise (UnboundLocalError "batch_dataset")
  ∧ made <$> (run w).2.2
    = [CallTrainEpoch (zip x_train y_train) shuffle batch_size verbose]
  ∧ stdout (run w).2.1 = stdout w ++ [CR +:+ "Epoch 1 " +:+ LF]
  ∧ metrics (run w).2.1 = TrainMetrics_init ("loss" :: model_metric_names m).
Proof.
  intros Hshuffle Hlen Hepochs.
  rewrite (fit_lr_decay_run_loop _ _ _ _ _ _ _ _ _ _ _ _ _ w
             (zip x_train y_train)).
  2: { unfold from_tensor_slices. by rewrite decide_True. }
  rewrite seqZ_cons by lia. cbn [fit_loop]. rewrite bind_run.
  by rewrite fit_epoch_unshuffled.
Qed.

(** The learning-rate metric must be one the trainer tracks. When
    [lr_metric] is neither "loss" nor a metric of the model among acc,
    auroc, aupr, corr, mcc and mse (nor the "_std" key of one), every run
    with matching training arrays and a budget of at least one epoch ends
    in an exception during its first epoch, in [train_epoch], in
    [evaluate] or when the validation history of [lr_metric] is read:
    [check_lr_decay] is never reached and no second epoch is run. *)
Theorem fit_lr_decay_untracked_lr_metric (w : World Model Rng) :
  ¬ fresh_key ("loss" :: model_metric_names m) lr_metric →
  length x_train = length y_train → 1 ≤ num_epochs →
  (∃ e, (run w).1 = Raise e)
  ∧ (made <$> (run w).2.2
     = [CallTrainEpoch (zip x_train y_train) shuffle batch_size verbose]
     ∨ made <$> (run w).2.2
       = [CallTrainEpoch (zip x_train y_train) shuffle batch_size verbose;
          CallEvaluate "valid" validation_data.1 validation_data.2 128 true]).
Proof.
  intros Hout Hlen Hepochs.
  pose proof (fit_lr_decay_in_order w (zip x_train y_train)) as Horder.
  rewrite seqZ_cons in Horder by lia.
  eapply in_order_untracked; [| apply Horder].
  - change (lr_metric
            ∉ dom (value (MonitorMetrics_init ("loss" :: model_metric_names m)))).
    by rewrite fresh_dom.
  - unfold from_tensor_slices. by rewrite decide_True.
Qed.

(** An early-stopping patience of zero or less allows one epoch at most:
    the first answer of [early_stopping] is True (or an exception), so
    [train_epoch] is never called a second time. The one patience this
    does not hold for is the least int64, for which the subtraction in
    [early_stopping] wraps around. *)
Theorem fit_lr_decay_no_patience (w : World Model Rng) :
  es_patience ≤ 0 → es_patience ≠ int64_min →
  (train_epoch_calls (run w).2.2 ≤ 1)%nat.
Proof.
  intros Hpat Hmin.
  destruct (from_tensor_slices x_train y_train) as [trainset | e] eqn:Hset.
  - pose proof (fit_lr_decay_in_order w trainset Hset) as Horder.
    eapply in_order_single_pass; [| done | done | apply Horder].
    intros k.
    change (history (MonitorMetrics_init ("loss" :: model_metric_names m)) k
            = []).
    apply fresh_history.
  - rewrite (fit_lr_decay_no_trainset _ _ _ _ _ _ _ _ _ _ _ _ _ w e Hset).
    simpl. lia.
Qed.
End Run.
End FitFacts.

(** ** Instances of the further theorems on evaluate, train_epoch and fit_lr_decay *)

Lemma Trainer_evaluate_short_results_witness :
  @Trainer_evaluate nat unit Z Z Z demo_numpy demo_printf demo_keras_short
    "valid" [9; 10] [11; 12] 128 true demo_world
  = (Raise IndexError, demo_world).
Proof.
  apply (@Trainer_evaluate_short_results nat unit Z Z Z demo_numpy demo_printf
           demo_keras_short "valid" [9; 10] [11; 12] 128 true demo_world).
  simpl. lia.
Defined.

Lemma Trainer_evaluate_records_witness :
  ∃ w' s',
    @Trainer_evaluate nat unit Z Z Z demo_numpy demo_printf demo_keras
      "valid" [9; 10] [11; 12] 128 true demo_world = (OK tt, w')
    ∧ split_of "valid" (metrics w') = Some s'
    ∧ length (history s' "auroc") = 1%nat
    ∧ length (stdout w') = 2%nat.
Proof.
  destruct (@Trainer_evaluate_records nat unit Z Z Z demo_numpy demo_printf
              demo_keras "valid" [9; 10] [11; 12] 128 true demo_world
              (MonitorMetrics_init ["loss"; "auroc"]))
    as (w' & s' & Hrun & Hsplit & _ & Hlen & _ & _ & _ & _ & Hout).
  - reflexivity.
  - split; reflexivity.
  - apply NoDup_cons. split; [apply not_elem_of_nil | apply NoDup_nil_2].
  - apply Forall_cons. split; [| apply Forall_nil_2].
    unfold with_std. apply list_elem_of_further, list_elem_of_here.
  - simpl. lia.
  - exists w', s'. split; [exact Hrun |]. split; [exact Hsplit |].
    split; [| exact Hout].
    apply (Hlen "auroc"). apply list_elem_of_further, list_elem_of_here.
Defined.


Lemma demo_shuffle_permutes (buffer : Z) (l : list (Z * Z)) (g : unit) :
  (@dataset_shuffle unit (Z * Z) demo_tfdata buffer l g).1 ≡ₚ l.
Proof. reflexivity. Qed.

Lemma Trainer_train_epoch_targets_witness :
  ∃ loss pred y w',
    @Trainer_train_epoch nat unit Z Z Z demo_printf demo_clock demo_keras
      demo_tfdata demo_trainset true 2 true demo_world
    = (OK (loss, pred, y), w')
    ∧ y ≡ₚ [5; 6; 7; 8]
    ∧ length (stdout w') = 2%nat.
Proof.
  destruct (@Trainer_train_epoch_targets nat unit Z Z Z demo_printf demo_clock
              demo_keras demo_tfdata demo_shuffle_permutes demo_trainset 2 true
              demo_world)
    as (loss & pred & y & w' & Hrun & _ & Hperm & _ & Hout);
    [lia | unfold demo_trainset; discriminate |].
  exists loss, pred, y, w'. split; [exact Hrun |].
  split; [exact Hperm | exact Hout].
Defined.

Lemma Trainer_train_epoch_empty_witness :
  (@Trainer_train_epoch nat unit Z Z Z demo_printf demo_clock demo_keras
     demo_tfdata [] true 2 true demo_world).1
  = Raise ValueError.
Proof.
  destruct (@Trainer_train_epoch_empty nat unit Z Z Z demo_printf demo_clock
              demo_keras demo_tfdata demo_shuffle_permutes 2 true demo_world)
    as [Hrun _]; [lia |].
  exact Hrun.
Defined.

Lemma fit_lr_decay_without_shuffle_witness :
  (@fit_lr_decay nat unit Z Z Z demo_numpy demo_printf demo_clock demo_keras
     demo_tfdata 0%nat [1; 2; 3; 4] [5; 6; 7; 8] demo_validation 10 2 false
     false 2 "auroc" (3 # 10)%Q 3 "auroc" (demo_world, [])).1
  = Raise (UnboundLocalError "batch_dataset").
Proof.
  destruct (@fit_lr_decay_without_shuffle nat unit Z Z Z demo_numpy demo_printf
              demo_clock demo_keras demo_tfdata 0%nat [1; 2; 3; 4] [5; 6; 7; 8]
              demo_validation 10 2 false false 2 "auroc" (3 # 10)%Q 3 "auroc"
              demo_world)
    as [Hrun _]; [reflexivity | reflexivity | lia |].
  exact Hrun.
Defined.

Lemma fit_lr_decay_untracked_lr_metric_witness :
  ∃ e,
    (@fit_lr_decay nat unit Z Z Z demo_numpy demo_printf demo_clock demo_keras
       demo_tfdata 0%nat [1; 2; 3; 4] [5; 6; 7; 8] demo_validation 10 2 true
       false 2 "auroc" (3 # 10)%Q 3 "aupr" (demo_world, [])).1
    = Raise e.
Proof.
  destruct (@fit_lr_decay_untracked_lr_metric nat unit Z Z Z demo_numpy
              demo_printf demo_clock demo_keras demo_tfdata 0%nat [1; 2; 3; 4]
              [5; 6; 7; 8] demo_validation 10 2 true false 2 "auroc" (3 # 10)%Q
              3 "aupr" demo_world)
    as [Hrun _]; [| reflexivity | lia | exact Hrun].
  intros [Hloss | (k & _ & Hin & Hk)]; [discriminate |].
  simpl in Hin.
  apply elem_of_cons in Hin as [-> | Hin];
    [destruct Hk as [Hk | Hk]; vm_compute in Hk; discriminate |].
  apply elem_of_cons in Hin as [-> | Hin];
    [destruct Hk as [Hk | Hk]; vm_compute in Hk; discriminate |].
  by apply elem_of_nil in Hin.
Defined.

Lemma fit_lr_decay_no_patience_witness :
  le (train_epoch_calls
        (@fit_lr_decay nat unit Z Z Z demo_numpy demo_printf demo_clock
           demo_keras demo_tfdata 0%nat [1; 2; 3; 4] [5; 6; 7; 8]
           demo_validation 10 2 true false 0 "auroc" (3 # 10)%Q 3 "auroc"
           (demo_world, [])).2.2)
     1.
Proof.
  apply (@fit_lr_decay_no_patience nat unit Z Z Z demo_numpy demo_printf
           demo_clock demo_keras demo_tfdata 0%nat [1; 2; 3; 4] [5; 6; 7; 8]
           demo_validation 10 2 true false 0 "auroc" (3 # 10)%Q 3 "auroc"
           demo_world).
  - lia.
  - discriminate.
Defined.

(** The one patience for which a run goes on: with the least int64 as
    early-stopping patience, and a model that also reports its loss as a
    metric (two "loss" entries per evaluation), the budget of three epochs
    is used up. *)
Example fit_lr_decay_least_patience :
  train_epoch_calls
    (@fit_lr_decay nat unit Z Z Z demo_numpy demo_printf demo_clock
       demo_keras_loss demo_tfdata 0%nat [1; 2; 3; 4] [5; 6; 7; 8]
       demo_validation 3 2 true false int64_min "loss" (3 # 10)%Q 3 "loss"
       (demo_world, [])).2.2
  = 3%nat.
Proof. vm_compute. reflexivity. Qed.
